(** * liblscp client engine (client.c): a shallow embedding and its properties

    The protocol client of qsampler talks to a LinuxSampler server over a TCP
    command channel and a UDP notification channel.  This development embeds
    [src/client.c] and proves properties of its tokenizer, its response
    classifier, the notification listener and the info caches.

    Conventions of the embedding.

    - A C string is a [text] (a list of characters); the terminating NUL is
      implicit at the end of the list.  Where the source rewrites a buffer in
      place and keeps several pointers into it ([_lscp_unquote],
      [_lscp_szsplit_create]) a pointer is an offset into the buffer and the
      NUL bytes written by the code are explicit.
    - [int] values are [Z].  The source performs no arithmetic on them that
      could wrap; [atol] saturates at the ends of [long] as [strtol] does, and
      [atoi] is that [long] converted to [int].
    - The client structure lives in one heap cell of the [world]; a pointer to
      it is [NULL] or [PTR].  Reading through [NULL] (or through [PTR] once the
      structure has been freed) is undefined in C and is the outcome
      [Fault NullPointer] here.
    - [strdup] and the small allocations of the tokenizer are taken to
      succeed.  The allocation of the buffer fill array, whose size the server
      chooses, can fail or come up short: the environment decides.
    - An operation is a function of the world and runs to completion.  The
      listener is a thread of its own that takes no lock; what it can do
      inside [lscp_client_subscribe], which tests the session-id first and
      writes it last, is given by [subscribe_during_listener]. *)

From Stdlib Require Import Ascii String DecimalString DecimalPos ZArith Lia Bool Arith List.
Import ListNotations.

Set Implicit Arguments.
Open Scope string_scope.
Open Scope list_scope.

(** ** Characters and C strings *)

Abbreviation text := (list ascii).

Coercion list_ascii_of_string : string >-> list.

Definition NUL : ascii := Ascii.zero.
Definition CR : ascii := ascii_of_nat 13.
Definition LF : ascii := ascii_of_nat 10.
Definition CRLF : text := [CR; LF].
Definition DQUOTE : ascii := ascii_of_nat 34.

(** [isspace] of <ctype.h> in the C locale: space, \t, \n, \v, \f, \r. *)
Definition isspace (c : ascii) : bool :=
  let n := nat_of_ascii c in
  (n =? 32)%nat || ((9 <=? n)%nat && (n <=? 13)%nat).

Definition isupper (c : ascii) : bool :=
  let n := nat_of_ascii c in (65 <=? n)%nat && (n <=? 90)%nat.

Definition tolower (c : ascii) : ascii :=
  if isupper c then ascii_of_nat (nat_of_ascii c + 32) else c.

(** The C string held by a byte array: the bytes before the first NUL. *)
Fixpoint cstr (b : text) : text :=
  match b with
  | [] => []
  | c :: b' => if Ascii.eqb c NUL then [] else c :: cstr b'
  end.

(** [strcmp(a, b) == 0]. *)
Fixpoint streq (a b : text) : bool :=
  match a, b with
  | [], [] => true
  | x :: a', y :: b' => Ascii.eqb x y && streq a' b'
  | _, _ => false
  end.

(** [strncasecmp(a, b, n) == 0]. *)
Fixpoint strncaseeq (n : nat) (a b : text) : bool :=
  match n with
  | O => true
  | S n' =>
      match a, b with
      | [], [] => true
      | x :: a', y :: b' =>
          Ascii.eqb (tolower x) (tolower y) && strncaseeq n' a' b'
      | _, _ => false
      end
  end.

(** [strcasecmp(a, b) == 0]. *)
Fixpoint strcaseeq (a b : text) : bool :=
  match a, b with
  | [], [] => true
  | x :: a', y :: b' => Ascii.eqb (tolower x) (tolower y) && strcaseeq a' b'
  | _, _ => false
  end.

(** [strchr(pszSeps, c) != NULL] for a character [c] other than NUL. *)
Definition is_sep (pszSeps : text) (c : ascii) : bool :=
  existsb (Ascii.eqb c) pszSeps.

(** [s + strspn(s, pszSeps)]. *)
Fixpoint skip_seps (pszSeps s : text) : text :=
  match s with
  | [] => []
  | c :: s' => if is_sep pszSeps c then skip_seps pszSeps s' else s
  end.

(** [strpbrk(s, pszSeps)]: the characters before the first separator, and the
    text that follows that separator when there is one. *)
Fixpoint strpbrk (pszSeps s : text) : text * option text :=
  match s with
  | [] => ([], None)
  | c :: s' =>
      if is_sep pszSeps c then ([], Some s')
      else let '(tok, after) := strpbrk pszSeps s' in (c :: tok, after)
  end.

(** [_lscp_ltrim]. *)
Fixpoint _lscp_ltrim (psz : text) : text :=
  match psz with
  | [] => []
  | c :: psz' => if isspace c then _lscp_ltrim psz' else psz
  end.

Definition digit_of (c : ascii) : option Z :=
  let n := nat_of_ascii c in
  if (48 <=? n)%nat && (n <=? 57)%nat then Some (Z.of_nat (n - 48)) else None.

Fixpoint atoi_digits (acc : Z) (s : text) : Z :=
  match s with
  | [] => acc
  | c :: s' =>
      match digit_of c with
      | Some d => atoi_digits (10 * acc + d) s'
      | None => acc
      end
  end.

(** The number a text starts with, as [strtol(s, NULL, 10)] reads it before
    any range check: optional white space, an optional sign, then decimal
    digits. *)
Definition numeral_value (s : text) : Z :=
  match _lscp_ltrim s with
  | c :: s' =>
      if Ascii.eqb c "-" then (- atoi_digits 0 s')%Z
      else if Ascii.eqb c "+" then atoi_digits 0 s'
      else atoi_digits 0 (c :: s')
  | [] => 0%Z
  end.

(** [strtol(s, NULL, 10)] for a [long] of [bits] bits: the number read, or
    [LONG_MIN] or [LONG_MAX] when it is out of range. *)
Definition strtol (bits : Z) (s : text) : Z :=
  Z.max (- 2 ^ (bits - 1)) (Z.min (2 ^ (bits - 1) - 1) (numeral_value s)).

(** The conversion of a [long] to the 32-bit [int]. *)
Definition int_of_long (z : Z) : Z := ((z + 2 ^ 31) mod 2 ^ 32 - 2 ^ 31)%Z.

(** [sprintf("%d", z)]. *)
Definition fmt_d (z : Z) : text :=
  list_ascii_of_string (NilZero.string_of_int (Z.to_int z)).

(** ** The custom tokenizer *)

(** [_lscp_strtok(pchBuffer, pszSeps, &pch)].  [pchBuffer] is [None] for the
    NULL argument, in which case scanning resumes at [*ppch].  The result is
    the token (or [None] for NULL) and the value of [*ppch] afterwards, which
    is left alone when no token is found.  The NUL the source writes over the
    separator that ends the token shows here as the token being a text of its
    own. *)
Definition _lscp_strtok (pchBuffer : option text) (pszSeps : text) (ppch : text)
  : option text * text :=
  let pchBuffer := match pchBuffer with Some b => b | None => ppch end in
  let pchBuffer := skip_seps pszSeps pchBuffer in
  match pchBuffer with
  | [] => (None, ppch)
  | _ :: _ =>
      match strpbrk pszSeps pchBuffer with
      | (pszToken, None) => (Some pszToken, [])
      | (pszToken, Some after) => (Some pszToken, skip_seps pszSeps after)
      end
  end.

(** What a buffer reads as a C string from its start once [_lscp_strtok] has
    scanned it: the scan writes its first NUL right after the first token. *)
Definition strtok_residue (pszSeps buf : text) : text :=
  let lead := length buf - length (skip_seps pszSeps buf) in
  firstn lead buf ++ fst (strpbrk pszSeps (skip_seps pszSeps buf)).

(** ** Buffers with explicit NULs *)

Definition peek (b : text) (i : nat) : ascii := nth i b NUL.

(** [b[i] = 0]; writing over the implicit terminator changes nothing. *)
Definition poke_nul (b : text) (i : nat) : text :=
  if (i <? length b)%nat then firstn i b ++ NUL :: skipn (S i) b else b.

Definition cstr_at (b : text) (i : nat) : text := cstr (skipn i b).

Fixpoint span_len (p : ascii -> bool) (s : text) : nat :=
  match s with
  | [] => O
  | c :: s' => if p c then S (span_len p s') else O
  end.

(** [while (isspace(b[i])) ++i]. *)
Definition skip_space (b : text) (i : nat) : nat :=
  i + span_len isspace (skipn i b).

(** [while (isspace(b[e - 1]) && e > lo) --e].  At [e = 0] the source reads the
    byte before the buffer and then fails the second test. *)
Fixpoint trim_back (b : text) (lo e : nat) : nat :=
  match e with
  | O => O
  | S e1 => if isspace (peek b e1) && (lo <? e)%nat then trim_back b lo e1 else e
  end.

Definition is_quote (c : ascii) : bool :=
  Ascii.eqb c DQUOTE || Ascii.eqb c "'".

(** [_lscp_unquote(&psz, dup)] with [*ppsz] at offset [ppsz] of buffer [b].
    The result is the buffer the returned string lives in (a copy when [dup]
    is set), the returned pointer and the new [*ppsz], both offsets into that
    buffer. *)
Definition _lscp_unquote (b : text) (ppsz : nat) (dup : bool) : text * nat * nat :=
  let psz := skip_space b ppsz in
  if is_quote (peek b psz) then
    let chQuote := peek b psz in
    let psz := skip_space b (S psz) in
    let '(b, psz) := if dup then (cstr_at b psz, O) else (b, psz) in
    let e :=
      psz + span_len (fun c => negb (Ascii.eqb c NUL) && negb (Ascii.eqb c chQuote))
                     (skipn psz b) in
    if Ascii.eqb (peek b e) NUL then (b, psz, e)
    else
      let e := trim_back b psz e in
      (poke_nul b e, psz, S e)
  else if dup then (cstr_at b psz, O, O)
  else (b, psz, ppsz).

(** The string [_lscp_unquote(&psz, 1)] returns for the C string [s]. *)
Definition unquoted (s : text) : text :=
  let '(b, psz, _) := _lscp_unquote s 0 true in cstr_at b psz.

Definition quoted_hello : text :=
  "  " ++ DQUOTE :: "Hello, World" ++ DQUOTE :: "  ".


(** ** Splitting a comma separated string *)

(** [strpbrk(b + head, pszSeps)] as an offset into [b]. *)
Fixpoint find_sep (pszSeps s : text) (i : nat) : option nat :=
  match s with
  | [] => None
  | c :: s' =>
      if Ascii.eqb c NUL then None
      else if is_sep pszSeps c then Some i
      else find_sep pszSeps s' (S i)
  end.

Definition strpbrk_at (b : text) (head : nat) (pszSeps : text) : option nat :=
  find_sep pszSeps (skipn head b) head.

(** The [while ((pch = strpbrk(pszHead, pszSeps)) != NULL)] loop of
    [_lscp_szsplit_create].  Every item points into the one copy [b] made for
    the first item, which sits at offset 0 ([ppszSplit[0]]). *)
Fixpoint szsplit_loop (fuel : nat) (pszSeps b : text) (pszHead : nat)
    (items : list nat) : text * list nat :=
  match fuel with
  | O => (b, items)
  | S fuel' =>
      match strpbrk_at b pszHead pszSeps with
      | None => (b, items)
      | Some pch =>
          let pszHead := pch + length pszSeps in
          let pch := trim_back b 0 pch in
          let b := poke_nul b pch in
          let '(b, item, pszHead) := _lscp_unquote b pszHead false in
          szsplit_loop fuel' pszSeps b pszHead (items ++ [item])
      end
  end.

(** [_lscp_szsplit_create]: the strings of the NULL terminated array, read
    once the whole buffer has been cut. *)
Definition _lscp_szsplit_create (pszCsv pszSeps : text) : list text :=
  let '(b, item0, pszHead) := _lscp_unquote pszCsv 0 true in
  let '(b, items) := szsplit_loop (S (length b)) pszSeps b pszHead [item0] in
  map (cstr_at b) items.

Definition csv_drivers : text :=
  DQUOTE :: "ALSA" ++ DQUOTE :: "," ++ DQUOTE :: "JACK" ++ DQUOTE :: " ,CoreAudio".

(** ** Client data structures *)

(** [lscp_status_t] (declared in lscp/socket.h). *)
Inductive lscp_status_t : Set :=
  | LSCP_OK | LSCP_FAILED | LSCP_ERROR | LSCP_WARNING | LSCP_TIMEOUT.

Definition status_eqb (a b : lscp_status_t) : bool :=
  match a, b with
  | LSCP_OK, LSCP_OK | LSCP_FAILED, LSCP_FAILED | LSCP_ERROR, LSCP_ERROR
  | LSCP_WARNING, LSCP_WARNING | LSCP_TIMEOUT, LSCP_TIMEOUT => true
  | _, _ => false
  end.

Inductive lscp_usage_t : Set := LSCP_USAGE_BYTES | LSCP_USAGE_PERCENTAGE.

(** A pointer to the client structure. *)
Inductive pointer : Set := NULL | PTR.

(** Identity of a block returned by [malloc]. *)
Definition block := nat.

Record lscp_engine_info_t : Type := {
  ei_description : option text;
  ei_version : option text
}.

Record lscp_driver_info_t : Type := {
  di_description : option text;
  di_version : option text;
  di_parameters : option (list text)
}.

(** One entry of the buffer fill array; a field is [None] while it still holds
    what [malloc] left there. *)
Record lscp_buffer_fill_t : Type := {
  stream_id : option Z;
  stream_usage : option Z
}.

(** What the TCP side of the world does with one request: [send] comes up
    short, [select] runs into the timeout or fails, or [recv] hands over bytes
    (none when [recv] returns less than 1). *)
Inductive tcp_event : Type :=
  | SendShort
  | SelectTimeout
  | SelectError
  | Recv (bytes : text).

(** One return of [recvfrom] in the listener: the receive array as the call
    leaves it (the datagram in its first [cchBuffer] bytes, whatever was there
    before in the rest) and the length returned, not positive on error. *)
Inductive udp_event : Type :=
  | Recvfrom (achBuffer : text) (cchBuffer : Z).

(** ** Operations: state passing with undefined behaviour as an outcome *)

(** Undefined behaviour of the C program: reading through a NULL (or freed)
    pointer, reading a pointer variable that was never set, indexing outside
    an array.  [FuelExhausted] is the bounded loops of this file running out of
    steps; the loops are given enough. *)
Inductive fault : Set := NullPointer | Uninitialised | OutOfBounds | FuelExhausted.

Inductive outcome (A : Type) : Type :=
  | Done (a : A)
  | Fault (f : fault).
Arguments Fault {A} f.

Definition M (W A : Type) : Type := W -> outcome (A * W).

Definition ret {W A} (a : A) : M W A := fun w => Done (a, w).

Definition bind {W A B} (m : M W A) (k : A -> M W B) : M W B :=
  fun w =>
    match m w with
    | Done (a, w') => k a w'
    | Fault f => Fault f
    end.

Definition undefined {W A} (f : fault) : M W A := fun _ => Fault f.

Notation "x <- m ;; k" := (bind m (fun x => k))
  (at level 61, m at next level, right associativity).
Notation "m ;;; k" := (bind m (fun _ => k))
  (at level 61, right associativity).

(** What the code takes from outside this file: [LSCP_BUFSIZ] of
    lscp/socket.h, the width of [long] and [unsigned long] (32 bits at least),
    C [float] values with [atof], the ["%g"] format and the test [f < 0.0],
    what [malloc(n * sizeof(lscp_buffer_fill_t))] gives for a stream count [n]
    (NULL, or a block with room for so many whole entries: [n] of them unless
    the size wrapped around in [size_t]), and the server at the other end of
    the TCP connection, which decides what happens to a request given the
    bytes sent and the [timeval] handed to [select]. *)
Class Environment : Type := {
  LSCP_BUFSIZ : nat;
  ULONG_BITS : Z;
  ULONG_BITS_wide : (32 <=? ULONG_BITS)%Z = true;
  malloc_fill : Z -> option nat;
  float : Type;
  float_zero : float;
  atof : text -> float;
  fmt_g : float -> text;
  float_negative : float -> bool;
  Server : Type;
  serve : Server -> text -> Z * Z -> tcp_event * Server
}.

Section Client.

Context {E : Environment}.

(** [atol] and [atoi] of the C library: [atol(s)] is [strtol(s, NULL, 10)] and
    [atoi(s)] is [(int) strtol(s, NULL, 10)]. *)
Definition atol (s : text) : Z := strtol ULONG_BITS s.

Definition atoi (s : text) : Z := int_of_long (atol s).

Record lscp_channel_info_t : Type := {
  engine_name : option text;
  audio_device : Z;
  audio_channels : Z;
  audio_routing : option (list text);
  instrument_file : option text;
  instrument_nr : Z;
  midi_device : Z;
  midi_port : Z;
  midi_channel : Z;
  volume : float
}.

(** [struct _lscp_client_t].  [pfnCallback] stands for the callback together
    with its [pvData]; the sockets are part of the [world]; of the UDP agent
    the structure keeps the running flag and the local port. *)
Record lscp_client_t : Type := {
  pfnCallback : text -> lscp_status_t;
  udp_iState : bool;
  udp_port : Z;
  sessid : option text;
  audio_drivers : option (list text);
  midi_drivers : option (list text);
  engines : option (list text);
  audio_info : lscp_driver_info_t;
  midi_info : lscp_driver_info_t;
  engine_info : lscp_engine_info_t;
  channel_info : lscp_channel_info_t;
  pszResult : option text;
  iErrno : Z;
  buffer_fill : option (block * list lscp_buffer_fill_t);
  iStreamCount : Z;
  iTimeout : Z
}.

Definition with_udp_iState (v : bool) (c : lscp_client_t) : lscp_client_t :=
  {| pfnCallback := pfnCallback c; udp_iState := v; udp_port := udp_port c;
     sessid := sessid c; audio_drivers := audio_drivers c;
     midi_drivers := midi_drivers c; engines := engines c;
     audio_info := audio_info c; midi_info := midi_info c;
     engine_info := engine_info c; channel_info := channel_info c;
     pszResult := pszResult c; iErrno := iErrno c;
     buffer_fill := buffer_fill c; iStreamCount := iStreamCount c;
     iTimeout := iTimeout c |}.

Definition with_sessid (v : option text) (c : lscp_client_t) : lscp_client_t :=
  {| pfnCallback := pfnCallback c; udp_iState := udp_iState c; udp_port := udp_port c;
     sessid := v; audio_drivers := audio_drivers c;
     midi_drivers := midi_drivers c; engines := engines c;
     audio_info := audio_info c; midi_info := midi_info c;
     engine_info := engine_info c; channel_info := channel_info c;
     pszResult := pszResult c; iErrno := iErrno c;
     buffer_fill := buffer_fill c; iStreamCount := iStreamCount c;
     iTimeout := iTimeout c |}.

Definition with_audio_drivers (v : option (list text)) (c : lscp_client_t) : lscp_client_t :=
  {| pfnCallback := pfnCallback c; udp_iState := udp_iState c; udp_port := udp_port c;
     sessid := sessid c; audio_drivers := v;
     midi_drivers := midi_drivers c; engines := engines c;
     audio_info := audio_info c; midi_info := midi_info c;
     engine_info := engine_info c; channel_info := channel_info c;
     pszResult := pszResult c; iErrno := iErrno c;
     buffer_fill := buffer_fill c; iStreamCount := iStreamCount c;
     iTimeout := iTimeout c |}.

Definition with_midi_drivers (v : option (list text)) (c : lscp_client_t) : lscp_client_t :=
  {| pfnCallback := pfnCallback c; udp_iState := udp_iState c; udp_port := udp_port c;
     sessid := sessid c; audio_drivers := audio_drivers c;
     midi_drivers := v; engines := engines c;
     audio_info := audio_info c; midi_info := midi_info c;
     engine_info := engine_info c; channel_info := channel_info c;
     pszResult := pszResult c; iErrno := iErrno c;
     buffer_fill := buffer_fill c; iStreamCount := iStreamCount c;
     iTimeout := iTimeout c |}.

Definition with_engines (v : option (list text)) (c : lscp_client_t) : lscp_client_t :=
  {| pfnCallback := pfnCallback c; udp_iState := udp_iState c; udp_port := udp_port c;
     sessid := sessid c; audio_drivers := audio_drivers c;
     midi_drivers := midi_drivers c; engines := v;
     audio_info := audio_info c; midi_info := midi_info c;
     engine_info := engine_info c; channel_info := channel_info c;
     pszResult := pszResult c; iErrno := iErrno c;
     buffer_fill := buffer_fill c; iStreamCount := iStreamCount c;
     iTimeout := iTimeout c |}.

Definition with_audio_info (v : lscp_driver_info_t) (c : lscp_client_t) : lscp_client_t :=
  {| pfnCallback := pfnCallback c; udp_iState := udp_iState c; udp_port := udp_port c;
     sessid := sessid c; audio_drivers := audio_drivers c;
     midi_drivers := midi_drivers c; engines := engines c;
     audio_info := v; midi_info := midi_info c;
     engine_info := engine_info c; channel_info := channel_info c;
     pszResult := pszResult c; iErrno := iErrno c;
     buffer_fill := buffer_fill c; iStreamCount := iStreamCount c;
     iTimeout := iTimeout c |}.

Definition with_midi_info (v : lscp_driver_info_t) (c : lscp_client_t) : lscp_client_t :=
  {| pfnCallback := pfnCallback c; udp_iState := udp_iState c; udp_port := udp_port c;
     sessid := sessid c; audio_drivers := audio_drivers c;
     midi_drivers := midi_drivers c; engines := engines c;
     audio_info := audio_info c; midi_info := v;
     engine_info := engine_info c; channel_info := channel_info c;
     pszResult := pszResult c; iErrno := iErrno c;
     buffer_fill := buffer_fill c; iStreamCount := iStreamCount c;
     iTimeout := iTimeout c |}.

Definition with_engine_info (v : lscp_engine_info_t) (c : lscp_client_t) : lscp_client_t :=
  {| pfnCallback := pfnCallback c; udp_iState := udp_iState c; udp_port := udp_port c;
     sessid := sessid c; audio_drivers := audio_drivers c;
     midi_drivers := midi_drivers c; engines := engines c;
     audio_info := audio_info c; midi_info := midi_info c;
     engine_info := v; channel_info := channel_info c;
     pszResult := pszResult c; iErrno := iErrno c;
     buffer_fill := buffer_fill c; iStreamCount := iStreamCount c;
     iTimeout := iTimeout c |}.

Definition with_channel_info (v : lscp_channel_info_t) (c : lscp_client_t) : lscp_client_t :=
  {| pfnCallback := pfnCallback c; udp_iState := udp_iState c; udp_port := udp_port c;
     sessid := sessid c; audio_drivers := audio_drivers c;
     midi_drivers := midi_drivers c; engines := engines c;
     audio_info := audio_info c; midi_info := midi_info c;
     engine_info := engine_info c; channel_info := v;
     pszResult := pszResult c; iErrno := iErrno c;
     buffer_fill := buffer_fill c; iStreamCount := iStreamCount c;
     iTimeout := iTimeout c |}.

Definition with_pszResult (v : option text) (c : lscp_client_t) : lscp_client_t :=
  {| pfnCallback := pfnCallback c; udp_iState := udp_iState c; udp_port := udp_port c;
     sessid := sessid c; audio_drivers := audio_drivers c;
     midi_drivers := midi_drivers c; engines := engines c;
     audio_info := audio_info c; midi_info := midi_info c;
     engine_info := engine_info c; channel_info := channel_info c;
     pszResult := v; iErrno := iErrno c;
     buffer_fill := buffer_fill c; iStreamCount := iStreamCount c;
     iTimeout := iTimeout c |}.

Definition with_iErrno (v : Z) (c : lscp_client_t) : lscp_client_t :=
  {| pfnCallback := pfnCallback c; udp_iState := udp_iState c; udp_port := udp_port c;
     sessid := sessid c; audio_drivers := audio_drivers c;
     midi_drivers := midi_drivers c; engines := engines c;
     audio_info := audio_info c; midi_info := midi_info c;
     engine_info := engine_info c; channel_info := channel_info c;
     pszResult := pszResult c; iErrno := v;
     buffer_fill := buffer_fill c; iStreamCount := iStreamCount c;
     iTimeout := iTimeout c |}.

Definition with_buffer_fill (v : option (block * list lscp_buffer_fill_t))
    (c : lscp_client_t) : lscp_client_t :=
  {| pfnCallback := pfnCallback c; udp_iState := udp_iState c; udp_port := udp_port c;
     sessid := sessid c; audio_drivers := audio_drivers c;
     midi_drivers := midi_drivers c; engines := engines c;
     audio_info := audio_info c; midi_info := midi_info c;
     engine_info := engine_info c; channel_info := channel_info c;
     pszResult := pszResult c; iErrno := iErrno c;
     buffer_fill := v; iStreamCount := iStreamCount c;
     iTimeout := iTimeout c |}.

Definition with_iStreamCount (v : Z) (c : lscp_client_t) : lscp_client_t :=
  {| pfnCallback := pfnCallback c; udp_iState := udp_iState c; udp_port := udp_port c;
     sessid := sessid c; audio_drivers := audio_drivers c;
     midi_drivers := midi_drivers c; engines := engines c;
     audio_info := audio_info c; midi_info := midi_info c;
     engine_info := engine_info c; channel_info := channel_info c;
     pszResult := pszResult c; iErrno := iErrno c;
     buffer_fill := buffer_fill c; iStreamCount := v;
     iTimeout := iTimeout c |}.

Definition with_iTimeout (v : Z) (c : lscp_client_t) : lscp_client_t :=
  {| pfnCallback := pfnCallback c; udp_iState := udp_iState c; udp_port := udp_port c;
     sessid := sessid c; audio_drivers := audio_drivers c;
     midi_drivers := midi_drivers c; engines := engines c;
     audio_info := audio_info c; midi_info := midi_info c;
     engine_info := engine_info c; channel_info := channel_info c;
     pszResult := pszResult c; iErrno := iErrno c;
     buffer_fill := buffer_fill c; iStreamCount := iStreamCount c;
     iTimeout := v |}.

(** ** The world of a client *)

(** The heap cell of the client structure ([None] before creation and after
    [free]), the server, the allocator's next block and the blocks freed so
    far, and the datagrams sent by the listener. *)
Record world : Type := {
  w_client : option lscp_client_t;
  w_server : Server;
  w_next_block : block;
  w_freed : list block;
  w_udp_sent : list text
}.

Definition op (A : Type) : Type := M world A.

(** The world with one component replaced. *)
Definition with_cell (v : option lscp_client_t) (w : world) : world :=
  {| w_client := v; w_server := w_server w; w_next_block := w_next_block w;
     w_freed := w_freed w; w_udp_sent := w_udp_sent w |}.

Definition with_client (c : lscp_client_t) (w : world) : world :=
  with_cell (Some c) w.

Definition with_server (s : Server) (w : world) : world :=
  {| w_client := w_client w; w_server := s; w_next_block := w_next_block w;
     w_freed := w_freed w; w_udp_sent := w_udp_sent w |}.

Definition with_next_block (b : block) (w : world) : world :=
  {| w_client := w_client w; w_server := w_server w; w_next_block := b;
     w_freed := w_freed w; w_udp_sent := w_udp_sent w |}.

Definition with_freed (l : list block) (w : world) : world :=
  {| w_client := w_client w; w_server := w_server w; w_next_block := w_next_block w;
     w_freed := l; w_udp_sent := w_udp_sent w |}.

Definition with_udp_sent (l : list text) (w : world) : world :=
  {| w_client := w_client w; w_server := w_server w; w_next_block := w_next_block w;
     w_freed := w_freed w; w_udp_sent := l |}.

(** Reading the structure [pClient] points to. *)
Definition load (pClient : pointer) : op lscp_client_t :=
  fun w =>
    match pClient, w_client w with
    | PTR, Some c => Done (c, w)
    | _, _ => Fault NullPointer
    end.

(** Writing the structure [pClient] points to. *)
Definition store (pClient : pointer) (f : lscp_client_t -> lscp_client_t) : op unit :=
  fun w =>
    match pClient, w_client w with
    | PTR, Some c => Done (tt, with_client (f c) w)
    | _, _ => Fault NullPointer
    end.

(** [free(pClient)]. *)
Definition free_client : op unit :=
  fun w => Done (tt, with_cell None w).

(** [send], [select] and [recv] on the TCP socket. *)
Definition transact (request : text) (tv : Z * Z) : op tcp_event :=
  fun w =>
    let '(ev, s) := serve (w_server w) request tv in
    Done (ev, with_server s w).

(** [malloc(n * sizeof(lscp_buffer_fill_t))]: NULL, or a block never handed
    out before, given by its identity and its number of whole entries. *)
Definition malloc (n : Z) : op (option (block * nat)) :=
  fun w =>
    match malloc_fill n with
    | Some k => Done (Some (w_next_block w, k), with_next_block (S (w_next_block w)) w)
    | None => Done (None, w)
    end.

(** [free(b)]. *)
Definition free (b : block) : op unit :=
  fun w => Done (tt, with_freed (b :: w_freed w) w).

(** [sendto] on the UDP socket. *)
Definition udp_send (d : text) : op unit :=
  fun w => Done (tt, with_udp_sent (w_udp_sent w ++ [d]) w).

(** [sprintf(szQuery, ...)] into [char szQuery[LSCP_BUFSIZ]] with a [%s]
    conversion: the text written and its NUL have to fit the array, which the
    source does not test.  (The requests made of fixed text and [%d] or [%g]
    conversions alone are a few dozen bytes whatever their arguments; they are
    written as texts.) *)
Definition sprintf_query (line : text) : op text :=
  if (length line <? LSCP_BUFSIZ)%nat then ret line else undefined OutOfBounds.

(** ** The transaction engine *)

(** The [timeval] prepared for [select]: seconds and microseconds. *)
Definition select_timeval (iTimeout : Z) : Z * Z :=
  if (1000 <? iTimeout)%Z
  then (Z.quot iTimeout 1000, (iTimeout - Z.quot iTimeout 1000 * 1000) * 1000)%Z
  else (0, iTimeout * 1000)%Z.

(** [lscp_client_call].  [pchResult] is the capacity [*pcchResult] of the
    receive buffer, [None] when one of the two result pointers is NULL; the
    bytes received come back with the status. *)
Definition lscp_client_call (pClient : pointer) (pchBuffer : option text)
    (cchBuffer : Z) (pchResult : option Z) : op (lscp_status_t * text) :=
  match pClient with
  | NULL => ret (LSCP_FAILED, [])
  | PTR =>
      match pchBuffer, pchResult with
      | Some buf, Some cchResult =>
          if (cchBuffer <? 1)%Z then ret (LSCP_FAILED, [])
          else if (cchResult <? 1)%Z then ret (LSCP_FAILED, [])
          else
            c <- load pClient ;;
            ev <- transact (firstn (Z.to_nat cchBuffer) buf)
                           (select_timeval (iTimeout c)) ;;
            match ev with
            | SendShort => ret (LSCP_FAILED, [])
            | SelectTimeout => ret (LSCP_TIMEOUT, [])
            | SelectError => ret (LSCP_FAILED, [])
            | Recv bytes =>
                let got := firstn (Z.to_nat cchResult) bytes in
                match got with
                | [] => ret (LSCP_FAILED, [])
                | _ :: _ => ret (LSCP_OK, got)
                end
            end
      | _, _ => ret (LSCP_FAILED, [])
      end
  end.

(** [lscp_client_set_timeout]. *)
Definition lscp_client_set_timeout (pClient : pointer) (iTimeout : Z)
  : op lscp_status_t :=
  match pClient with
  | NULL => ret LSCP_FAILED
  | PTR =>
      if (iTimeout <? 0)%Z then ret LSCP_FAILED
      else store pClient (with_iTimeout iTimeout) ;;; ret LSCP_OK
  end.

(** [lscp_client_get_timeout]. *)
Definition lscp_client_get_timeout (pClient : pointer) : op Z :=
  match pClient with
  | NULL => ret (-1)%Z
  | PTR => c <- load pClient ;; ret (iTimeout c)
  end.

(** [_lscp_client_set_result]. *)
Definition _lscp_client_set_result (pClient : pointer) (pszResult : option text)
    (iErrno : Z) : op unit :=
  store pClient (with_pszResult None) ;;;
  store pClient (with_iErrno iErrno) ;;;
  match pszResult with
  | Some r => store pClient (with_pszResult (Some (_lscp_ltrim r)))
  | None => ret tt
  end.

(** [while (cchResult > 0 && (achResult[cchResult - 1] == '\n' ||
    achResult[cchResult - 1] == '\r')) cchResult--]. *)
Fixpoint rstrip_crlf (s : text) : text :=
  match s with
  | [] => []
  | c :: s' =>
      match rstrip_crlf s' with
      | [] => if Ascii.eqb c LF || Ascii.eqb c CR then [] else [c]
      | r => c :: r
      end
  end.

Definition timeout_message : text := "Timeout during receive operation".

(** The classification of a received, NUL terminated response: the status,
    [pszResult] and [iErrno]. *)
Definition classify (achResult : text) : lscp_status_t * option text * Z :=
  let pszSeps : text := ":[]" in
  let ret0 :=
    if strncaseeq 4 achResult "ERR:" then LSCP_ERROR
    else if strncaseeq 4 achResult "WRN:" then LSCP_WARNING
    else LSCP_OK in
  match ret0 with
  | LSCP_OK =>
      if strncaseeq 3 achResult "OK[" then
        let '(pszToken, pch) := _lscp_strtok (Some achResult) pszSeps [] in
        match pszToken with
        | Some _ => (ret0, fst (_lscp_strtok None pszSeps pch), 0%Z)
        | None => (ret0, None, 0%Z)
        end
      else (ret0, Some achResult, 0%Z)
  | _ =>
      let '(pszToken, pch) := _lscp_strtok (Some achResult) pszSeps [] in
      match pszToken with
      | Some _ =>
          let '(pszToken, pch) := _lscp_strtok None pszSeps pch in
          match pszToken with
          | Some code => (ret0, fst (_lscp_strtok None pszSeps pch), atoi code)
          | None => (ret0, None, (-1)%Z)
          end
      | None => (ret0, None, (-1)%Z)
      end
  end.

(** [lscp_client_query]. *)
Definition lscp_client_query (pClient : pointer) (pszQuery : text)
  : op lscp_status_t :=
  match pClient with
  | NULL => ret LSCP_FAILED
  | PTR =>
      r <- lscp_client_call pClient (Some pszQuery) (Z.of_nat (length pszQuery))
             (Some (Z.of_nat LSCP_BUFSIZ)) ;;
      let '(ret0, achResult) := r in
      match ret0 with
      | LSCP_OK =>
          let achResult := rstrip_crlf achResult in
          if (LSCP_BUFSIZ <=? length achResult)%nat then undefined OutOfBounds
          else
            let '(ret1, pszResult, iErrno) := classify (cstr achResult) in
            _lscp_client_set_result pClient pszResult iErrno ;;; ret ret1
      | LSCP_TIMEOUT =>
          _lscp_client_set_result pClient (Some timeout_message) (-1)%Z ;;;
          ret ret0
      | _ =>
          _lscp_client_set_result pClient None (-1)%Z ;;; ret ret0
      end
  end.

(** [lscp_client_get_result]. *)
Definition lscp_client_get_result (pClient : pointer) : op (option text) :=
  match pClient with
  | NULL => ret None
  | PTR => c <- load pClient ;; ret (pszResult c)
  end.

(** [lscp_client_get_errno]. *)
Definition lscp_client_get_errno (pClient : pointer) : op Z :=
  match pClient with
  | NULL => ret (-1)%Z
  | PTR => c <- load pClient ;; ret (iErrno c)
  end.

(** ** Session lifecycle and registration *)

Definition LSCP_TIMEOUT_MSECS : Z := 200.

(** [_lscp_engine_info_init] and [_lscp_engine_info_reset] leave this. *)
Definition _lscp_engine_info_init : lscp_engine_info_t :=
  {| ei_description := None; ei_version := None |}.

(** [_lscp_driver_info_init] and [_lscp_driver_info_reset] leave this. *)
Definition _lscp_driver_info_init : lscp_driver_info_t :=
  {| di_description := None; di_version := None; di_parameters := None |}.

(** [_lscp_channel_info_init] and [_lscp_channel_info_reset] leave this. *)
Definition _lscp_channel_info_init : lscp_channel_info_t :=
  {| engine_name := None; audio_device := 0; audio_channels := 0;
     audio_routing := None; instrument_file := None; instrument_nr := 0;
     midi_device := 0; midi_port := 0; midi_channel := 0;
     volume := float_zero |}.

(** [lscp_client_create].  [setup] is the outcome of name resolution, of the
    two sockets and of starting the listener: the local UDP port when all of
    it went well. *)
Definition lscp_client_create (callback : option (text -> lscp_status_t))
    (setup : option Z) : op pointer :=
  match callback, setup with
  | Some cb, Some port =>
      fun w =>
        Done (PTR,
          {| w_client := Some
               {| pfnCallback := cb; udp_iState := true; udp_port := port;
                  sessid := None; audio_drivers := None; midi_drivers := None;
                  engines := None;
                  audio_info := _lscp_driver_info_init;
                  midi_info := _lscp_driver_info_init;
                  engine_info := _lscp_engine_info_init;
                  channel_info := _lscp_channel_info_init;
                  pszResult := None; iErrno := (-1)%Z;
                  buffer_fill := None; iStreamCount := 0%Z;
                  iTimeout := LSCP_TIMEOUT_MSECS |};
             w_server := w_server w; w_next_block := w_next_block w;
             w_freed := w_freed w; w_udp_sent := w_udp_sent w |})
  | _, _ => ret NULL
  end.

(** [lscp_client_join]. *)
Definition lscp_client_join (pClient : pointer) : op lscp_status_t :=
  match pClient with
  | NULL => ret LSCP_FAILED
  | PTR => _ <- load pClient ;; ret LSCP_OK
  end.

(** [if (p) free(p)] for the buffer fill array. *)
Definition free_buffer_fill (pClient : pointer) : op unit :=
  c <- load pClient ;;
  match buffer_fill c with
  | Some (b, _) => free b
  | None => ret tt
  end.

(** [lscp_client_destroy]. *)
Definition lscp_client_destroy (pClient : pointer) : op lscp_status_t :=
  match pClient with
  | NULL => ret LSCP_FAILED
  | PTR =>
      store pClient (with_sessid None) ;;;
      store pClient (with_channel_info _lscp_channel_info_init) ;;;
      store pClient (with_engine_info _lscp_engine_info_init) ;;;
      store pClient (with_midi_info _lscp_driver_info_init) ;;;
      store pClient (with_audio_info _lscp_driver_info_init) ;;;
      store pClient (with_audio_drivers None) ;;;
      store pClient (with_midi_drivers None) ;;;
      store pClient (with_engines None) ;;;
      _lscp_client_set_result pClient None 0%Z ;;;
      free_buffer_fill pClient ;;;
      store pClient (with_buffer_fill None) ;;;
      store pClient (with_iStreamCount 0%Z) ;;;
      store pClient (with_iTimeout 0%Z) ;;;
      free_client ;;;
      ret LSCP_OK
  end.

(** The end of [lscp_client_subscribe], from the return of its query on: the
    check for a session-id in the result text and the write of
    [pClient->sessid], which is not tested again. *)
Definition subscribe_result (pClient : pointer) (r : lscp_status_t)
  : op lscp_status_t :=
  match r with
  | LSCP_OK =>
      pszResult <- lscp_client_get_result pClient ;;
      match pszResult with
      | None => undefined Uninitialised
      | Some res =>
          let pszSeps : text := "[]" in
          let '(pszToken, pch) := _lscp_strtok (Some res) pszSeps [] in
          store pClient (with_pszResult (Some (strtok_residue pszSeps res))) ;;;
          match pszToken with
          | Some tok =>
              if strcaseeq tok "OK" then
                match fst (_lscp_strtok None pszSeps pch) with
                | Some id => store pClient (with_sessid (Some id)) ;;; ret r
                | None => ret r
                end
              else ret r
          | None => ret r
          end
      end
  | _ => ret r
  end.

(** [lscp_client_subscribe]. *)
Definition lscp_client_subscribe (pClient : pointer) : op lscp_status_t :=
  match pClient with
  | NULL => ret LSCP_FAILED
  | PTR =>
      c <- load pClient ;;
      match sessid c with
      | Some _ => ret LSCP_FAILED
      | None =>
          r <- lscp_client_query pClient
                 ("SUBSCRIBE NOTIFICATION " ++ fmt_d (udp_port c) ++ CRLF) ;;
          subscribe_result pClient r
      end
  end.

(** [lscp_client_unsubscribe]. *)
Definition lscp_client_unsubscribe (pClient : pointer) : op lscp_status_t :=
  match pClient with
  | NULL => ret LSCP_FAILED
  | PTR =>
      c <- load pClient ;;
      match sessid c with
      | None => ret LSCP_FAILED
      | Some id =>
          szQuery <- sprintf_query ("UNSUBSCRIBE NOTIFICATION " ++ id ++ [LF; LF]) ;;
          r <- lscp_client_query pClient szQuery ;;
          match r with
          | LSCP_OK => store pClient (with_sessid None) ;;; ret r
          | _ => ret r
          end
      end
  end.

(** ** The notification listener *)

(** One turn of the [while (pClient->udp.iState)] loop of
    [_lscp_client_udp_proc], for one return of [recvfrom]. *)
Definition udp_turn (pClient : pointer) (ev : udp_event) : op unit :=
  let '(Recvfrom achBuffer cchBuffer) := ev in
  if (0 <? cchBuffer)%Z then
    if strncaseeq 5 achBuffer "PING " then
      if (Z.of_nat LSCP_BUFSIZ <=? cchBuffer)%Z then undefined OutOfBounds
      else
        let pszSeps : text := " " ++ CRLF in
        let line := cstr (firstn (Z.to_nat cchBuffer) achBuffer) in
        let '(pszToken, pch) := _lscp_strtok (Some line) pszSeps [] in
        match pszToken with
        | None => undefined Uninitialised
        | Some _ =>
            let '(_, pch) := _lscp_strtok None pszSeps pch in
            let '(pszToken, pch) := _lscp_strtok None pszSeps pch in
            match pszToken with
            | Some tok =>
                c <- load pClient ;;
                match sessid c with
                | None => store pClient (with_sessid (Some tok))
                | Some _ => ret tt
                end ;;;
                c <- load pClient ;;
                match sessid c with
                | Some id =>
                    if streq tok id then udp_send ("PONG " ++ id ++ CRLF)
                    else ret tt
                | None => ret tt
                end
            | None => ret tt
            end
        end
    else
      c <- load pClient ;;
      if status_eqb (pfnCallback c (firstn (Z.to_nat cchBuffer) achBuffer)) LSCP_OK
      then ret tt
      else store pClient (with_udp_iState false)
  else store pClient (with_udp_iState false).

(** [_lscp_client_udp_proc] over the returns of [recvfrom] still to come; when
    they run out the thread is blocked in [recvfrom]. *)
Fixpoint _lscp_client_udp_proc (pClient : pointer) (events : list udp_event)
  : op unit :=
  match events with
  | [] => ret tt
  | ev :: events' =>
      c <- load pClient ;;
      if udp_iState c
      then udp_turn pClient ev ;;; _lscp_client_udp_proc pClient events'
      else ret tt
  end.

(** [lscp_client_subscribe] on the caller's thread while the listener thread
    takes the turns [events].  The listener takes no lock and the caller holds
    the transaction mutex inside [lscp_client_query] only, so the turns can
    fall anywhere between the test of [pClient->sessid] at the top of the
    function and the write at its end; they are placed right after the test
    (a turn writes the session-id and the UDP socket only, which the query
    does not read). *)
Definition subscribe_during_listener (pClient : pointer) (events : list udp_event)
  : op lscp_status_t :=
  match pClient with
  | NULL => ret LSCP_FAILED
  | PTR =>
      c <- load pClient ;;
      match sessid c with
      | Some _ => ret LSCP_FAILED
      | None =>
          _lscp_client_udp_proc pClient events ;;;
          r <- lscp_client_query pClient
                 ("SUBSCRIBE NOTIFICATION " ++ fmt_d (udp_port c) ++ CRLF) ;;
          subscribe_result pClient r
      end
  end.

(** ** Info caches *)

(** The loop shared by the three info parsers:
    [while (pszToken) { if (key matches) { pszToken = _lscp_strtok(NULL, "\r\n", &pch);
    if (pszToken) set the field; } pszToken = _lscp_strtok(NULL, ":", &pch); }].
    [field] is the chain of [strcasecmp] tests of the structure at hand. *)
Fixpoint info_loop {I : Type} (fuel : nat)
    (field : text -> option (text -> I -> I))
    (info : I) (pszToken : option text) (pch : text) : outcome I :=
  match pszToken with
  | None => Done info
  | Some key =>
      match fuel with
      | O => Fault FuelExhausted
      | S fuel' =>
          let '(info, pch) :=
            match field key with
            | Some set =>
                let '(value, pch) := _lscp_strtok None CRLF pch in
                (match value with Some v => set v info | None => info end, pch)
            | None => (info, pch)
            end in
          let '(pszToken, pch) := _lscp_strtok None ":" pch in
          info_loop fuel' field info pszToken pch
      end
  end.

(** Parsing a result text into an info structure that has just been reset. *)
Definition info_parse {I : Type} (field : text -> option (text -> I -> I))
    (init : I) (pszResult : text) : outcome I :=
  let '(pszToken, pch) := _lscp_strtok (Some pszResult) ":" [] in
  info_loop (S (length pszResult)) field init pszToken pch.

Definition driver_info_field (key : text)
  : option (text -> lscp_driver_info_t -> lscp_driver_info_t) :=
  if strcaseeq key "DESCRIPTION" then
    Some (fun v d => {| di_description := Some (unquoted v);
                        di_version := di_version d;
                        di_parameters := di_parameters d |})
  else if strcaseeq key "VERSION" then
    Some (fun v d => {| di_description := di_description d;
                        di_version := Some (unquoted v);
                        di_parameters := di_parameters d |})
  else if strcaseeq key "PARAMETERS" then
    Some (fun v d => {| di_description := di_description d;
                        di_version := di_version d;
                        di_parameters := Some (_lscp_szsplit_create v ",") |})
  else None.

Definition engine_info_field (key : text)
  : option (text -> lscp_engine_info_t -> lscp_engine_info_t) :=
  if strcaseeq key "DESCRIPTION" then
    Some (fun v e => {| ei_description := Some (unquoted v);
                        ei_version := ei_version e |})
  else if strcaseeq key "VERSION" then
    Some (fun v e => {| ei_description := ei_description e;
                        ei_version := Some (unquoted v) |})
  else None.

Definition channel_info_field (key : text)
  : option (text -> lscp_channel_info_t -> lscp_channel_info_t) :=
  if strcaseeq key "ENGINE_NAME" then
    Some (fun v i =>
      {| engine_name := Some (unquoted v); audio_device := audio_device i;
         audio_channels := audio_channels i; audio_routing := audio_routing i;
         instrument_file := instrument_file i; instrument_nr := instrument_nr i;
         midi_device := midi_device i; midi_port := midi_port i;
         midi_channel := midi_channel i; volume := volume i |})
  else if strcaseeq key "AUDIO_OUTPUT_DEVICE" then
    Some (fun v i =>
      {| engine_name := engine_name i; audio_device := atoi (_lscp_ltrim v);
         audio_channels := audio_channels i; audio_routing := audio_routing i;
         instrument_file := instrument_file i; instrument_nr := instrument_nr i;
         midi_device := midi_device i; midi_port := midi_port i;
         midi_channel := midi_channel i; volume := volume i |})
  else if strcaseeq key "AUDIO_OUTPUT_CHANNELS" then
    Some (fun v i =>
      {| engine_name := engine_name i; audio_device := audio_device i;
         audio_channels := atoi (_lscp_ltrim v); audio_routing := audio_routing i;
         instrument_file := instrument_file i; instrument_nr := instrument_nr i;
         midi_device := midi_device i; midi_port := midi_port i;
         midi_channel := midi_channel i; volume := volume i |})
  else if strcaseeq key "AUDIO_OUTPUT_ROUTING" then
    Some (fun v i =>
      {| engine_name := engine_name i; audio_device := audio_device i;
         audio_channels := audio_channels i;
         audio_routing := Some (_lscp_szsplit_create v ",");
         instrument_file := instrument_file i; instrument_nr := instrument_nr i;
         midi_device := midi_device i; midi_port := midi_port i;
         midi_channel := midi_channel i; volume := volume i |})
  else if strcaseeq key "INSTRUMENT_FILE" then
    Some (fun v i =>
      {| engine_name := engine_name i; audio_device := audio_device i;
         audio_channels := audio_channels i; audio_routing := audio_routing i;
         instrument_file := Some (unquoted v); instrument_nr := instrument_nr i;
         midi_device := midi_device i; midi_port := midi_port i;
         midi_channel := midi_channel i; volume := volume i |})
  else if strcaseeq key "INSTRUMENT_NR" then
    Some (fun v i =>
      {| engine_name := engine_name i; audio_device := audio_device i;
         audio_channels := audio_channels i; audio_routing := audio_routing i;
         instrument_file := instrument_file i; instrument_nr := atoi (_lscp_ltrim v);
         midi_device := midi_device i; midi_port := midi_port i;
         midi_channel := midi_channel i; volume := volume i |})
  else if strcaseeq key "MIDI_INPUT_DEVICE" then
    Some (fun v i =>
      {| engine_name := engine_name i; audio_device := audio_device i;
         audio_channels := audio_channels i; audio_routing := audio_routing i;
         instrument_file := instrument_file i; instrument_nr := instrument_nr i;
         midi_device := atoi (_lscp_ltrim v); midi_port := midi_port i;
         midi_channel := midi_channel i; volume := volume i |})
  else if strcaseeq key "MIDI_INPUT_PORT" then
    Some (fun v i =>
      {| engine_name := engine_name i; audio_device := audio_device i;
         audio_channels := audio_channels i; audio_routing := audio_routing i;
         instrument_file := instrument_file i; instrument_nr := instrument_nr i;
         midi_device := midi_device i; midi_port := atoi (_lscp_ltrim v);
         midi_channel := midi_channel i; volume := volume i |})
  else if strcaseeq key "MIDI_INPUT_CHANNEL" then
    Some (fun v i =>
      {| engine_name := engine_name i; audio_device := audio_device i;
         audio_channels := audio_channels i; audio_routing := audio_routing i;
         instrument_file := instrument_file i; instrument_nr := instrument_nr i;
         midi_device := midi_device i; midi_port := midi_port i;
         midi_channel := atoi (_lscp_ltrim v); volume := volume i |})
  else if strcaseeq key "VOLUME" then
    Some (fun v i =>
      {| engine_name := engine_name i; audio_device := audio_device i;
         audio_channels := audio_channels i; audio_routing := audio_routing i;
         instrument_file := instrument_file i; instrument_nr := instrument_nr i;
         midi_device := midi_device i; midi_port := midi_port i;
         midi_channel := midi_channel i; volume := atof (_lscp_ltrim v) |})
  else None.

(** Which of the two driver caches a [lscp_driver_info_t *] points to. *)
Inductive driver_slot : Set := audio_slot | midi_slot.

Definition driver_info_at (slot : driver_slot) (c : lscp_client_t)
  : lscp_driver_info_t :=
  match slot with audio_slot => audio_info c | midi_slot => midi_info c end.

Definition with_driver_info (slot : driver_slot) (v : lscp_driver_info_t)
  : lscp_client_t -> lscp_client_t :=
  match slot with audio_slot => with_audio_info v | midi_slot => with_midi_info v end.

(** Running an info parser over the result text and storing what it built;
    the scan cuts the result text in place. *)
Definition reparse {I : Type} (pClient : pointer)
    (field : text -> option (text -> I -> I)) (init : I)
    (put : I -> lscp_client_t -> lscp_client_t) : op (option I) :=
  pszResult <- lscp_client_get_result pClient ;;
  store pClient (put init) ;;;
  match pszResult with
  | None => undefined Uninitialised
  | Some res =>
      store pClient (with_pszResult (Some (strtok_residue ":" res))) ;;;
      match info_parse field init res with
      | Done info => store pClient (put info) ;;; ret (Some info)
      | Fault f => undefined f
      end
  end.

(** [_lscp_driver_info_query].  The result is NULL or the address of the
    driver cache, given here by what the cache then holds. *)
Definition _lscp_driver_info_query (pClient : pointer) (pDriverInfo : driver_slot)
    (pszQuery : text) : op (option lscp_driver_info_t) :=
  r <- lscp_client_query pClient pszQuery ;;
  match r with
  | LSCP_OK =>
      reparse pClient driver_info_field _lscp_driver_info_init
              (with_driver_info pDriverInfo)
  | _ => ret None
  end.

(** [lscp_get_audio_driver_info]. *)
Definition lscp_get_audio_driver_info (pClient : pointer)
    (pszAudioDriver : option text) : op (option lscp_driver_info_t) :=
  match pszAudioDriver with
  | None => ret None
  | Some name =>
      szQuery <- sprintf_query ("GET AUDIO_OUTPUT_DRIVER INFO " ++ name ++ CRLF) ;;
      _lscp_driver_info_query pClient audio_slot szQuery
  end.

(** [lscp_get_midi_driver_info]. *)
Definition lscp_get_midi_driver_info (pClient : pointer)
    (pszMidiDriver : option text) : op (option lscp_driver_info_t) :=
  match pszMidiDriver with
  | None => ret None
  | Some name =>
      szQuery <- sprintf_query ("GET MIDI_INPUT_DRIVER INFO " ++ name ++ CRLF) ;;
      _lscp_driver_info_query pClient midi_slot szQuery
  end.

(** [lscp_get_engine_info]. *)
Definition lscp_get_engine_info (pClient : pointer) (pszEngineName : option text)
  : op (option lscp_engine_info_t) :=
  match pszEngineName with
  | None => ret None
  | Some name =>
      szQuery <- sprintf_query ("GET ENGINE INFO " ++ name ++ CRLF) ;;
      r <- lscp_client_query pClient szQuery ;;
      match r with
      | LSCP_OK =>
          reparse pClient engine_info_field _lscp_engine_info_init with_engine_info
      | _ => ret None
      end
  end.

(** [lscp_get_channel_info]. *)
Definition lscp_get_channel_info (pClient : pointer) (iSamplerChannel : Z)
  : op (option lscp_channel_info_t) :=
  if (iSamplerChannel <? 0)%Z then ret None
  else
    r <- lscp_client_query pClient
           ("GET CHANNEL INFO " ++ fmt_d iSamplerChannel ++ CRLF) ;;
    match r with
    | LSCP_OK =>
        reparse pClient channel_info_field _lscp_channel_info_init with_channel_info
    | _ => ret None
    end.

(** ** Command wrappers *)

(** The three list caches of the client. *)
Inductive list_slot : Set := audio_drivers_slot | midi_drivers_slot | engines_slot.

Definition list_at (slot : list_slot) (c : lscp_client_t) : option (list text) :=
  match slot with
  | audio_drivers_slot => audio_drivers c
  | midi_drivers_slot => midi_drivers c
  | engines_slot => engines c
  end.

Definition with_list (slot : list_slot) (v : option (list text))
  : lscp_client_t -> lscp_client_t :=
  match slot with
  | audio_drivers_slot => with_audio_drivers v
  | midi_drivers_slot => with_midi_drivers v
  | engines_slot => with_engines v
  end.

(** The body shared by [lscp_get_available_audio_drivers],
    [lscp_get_available_midi_drivers] and [lscp_get_available_engines]. *)
Definition get_available (pClient : pointer) (slot : list_slot) (pszQuery : text)
  : op (option (list text)) :=
  r <- lscp_client_query pClient pszQuery ;;
  match r with
  | LSCP_OK =>
      pszResult <- lscp_client_get_result pClient ;;
      match pszResult with
      | None => undefined NullPointer
      | Some res => store pClient (with_list slot (Some (_lscp_szsplit_create res ",")))
      end
  | _ => ret tt
  end ;;;
  c <- load pClient ;;
  ret (list_at slot c).

Definition lscp_get_available_audio_drivers (pClient : pointer) :=
  get_available pClient audio_drivers_slot
    ("GET AVAILABLE_AUDIO_OUTPUT_DRIVERS" ++ CRLF).

Definition lscp_get_available_midi_drivers (pClient : pointer) :=
  get_available pClient midi_drivers_slot
    ("GET AVAILABLE_MIDI_INPUT_DRIVERS" ++ CRLF).

Definition lscp_get_available_engines (pClient : pointer) :=
  get_available pClient engines_slot ("GET AVAILABLE_ENGINES" ++ CRLF).

(** [lscp_load_instrument]. *)
Definition lscp_load_instrument (pClient : pointer) (pszFileName : option text)
    (iInstrIndex iSamplerChannel : Z) : op lscp_status_t :=
  match pszFileName with
  | None => ret LSCP_FAILED
  | Some name =>
      if (iSamplerChannel <? 0)%Z then ret LSCP_FAILED
      else
        szQuery <- sprintf_query
                     ("LOAD INSTRUMENT " ++ name ++ " " ++ fmt_d iInstrIndex ++ " "
                        ++ fmt_d iSamplerChannel ++ CRLF) ;;
        lscp_client_query pClient szQuery
  end.

(** [lscp_load_engine]. *)
Definition lscp_load_engine (pClient : pointer) (pszEngineName : option text)
    (iSamplerChannel : Z) : op lscp_status_t :=
  match pszEngineName with
  | None => ret LSCP_FAILED
  | Some name =>
      if (iSamplerChannel <? 0)%Z then ret LSCP_FAILED
      else
        szQuery <- sprintf_query
                     ("LOAD ENGINE " ++ name ++ " " ++ fmt_d iSamplerChannel ++ CRLF) ;;
        lscp_client_query pClient szQuery
  end.

(** The body shared by the counters: [atoi] of the result on success, -1
    otherwise. *)
Definition query_int (pClient : pointer) (pszQuery : text) : op Z :=
  r <- lscp_client_query pClient pszQuery ;;
  match r with
  | LSCP_OK =>
      pszResult <- lscp_client_get_result pClient ;;
      match pszResult with
      | None => undefined NullPointer
      | Some res => ret (atoi res)
      end
  | _ => ret (-1)%Z
  end.

Definition lscp_get_channels (pClient : pointer) : op Z :=
  query_int pClient ("GET CHANNELS" ++ CRLF).

Definition lscp_add_channel (pClient : pointer) : op Z :=
  query_int pClient ("ADD CHANNEL" ++ CRLF).

(** [lscp_remove_channel]. *)
Definition lscp_remove_channel (pClient : pointer) (iSamplerChannel : Z)
  : op lscp_status_t :=
  if (iSamplerChannel <? 0)%Z then ret LSCP_FAILED
  else lscp_client_query pClient
         ("REMOVE CHANNEL " ++ fmt_d iSamplerChannel ++ CRLF).

(** [lscp_get_channel_voice_count]. *)
Definition lscp_get_channel_voice_count (pClient : pointer) (iSamplerChannel : Z)
  : op Z :=
  if (iSamplerChannel <? 0)%Z then ret (-1)%Z
  else query_int pClient
         ("GET CHANNEL VOICE_COUNT " ++ fmt_d iSamplerChannel ++ CRLF).

(** [lscp_get_channel_stream_count]. *)
Definition lscp_get_channel_stream_count (pClient : pointer) (iSamplerChannel : Z)
  : op Z :=
  if (iSamplerChannel <? 0)%Z then ret (-1)%Z
  else query_int pClient
         ("GET CHANNEL STREAM_COUNT " ++ fmt_d iSamplerChannel ++ CRLF).

(** [lscp_set_channel_audio_type]. *)
Definition lscp_set_channel_audio_type (pClient : pointer) (iSamplerChannel : Z)
    (pszAudioDriver : option text) : op lscp_status_t :=
  if (iSamplerChannel <? 0)%Z then ret LSCP_FAILED
  else
    match pszAudioDriver with
    | None => ret LSCP_FAILED
    | Some name =>
        szQuery <- sprintf_query
                     ("SET CHANNEL AUDIO_OUTPUT_TYPE " ++ fmt_d iSamplerChannel ++ " "
                        ++ name ++ CRLF) ;;
        lscp_client_query pClient szQuery
    end.

(** [lscp_set_channel_audio_channel]. *)
Definition lscp_set_channel_audio_channel (pClient : pointer)
    (iSamplerChannel iAudioOut iAudioIn : Z) : op lscp_status_t :=
  if (iSamplerChannel <? 0)%Z || (iAudioOut <? 0)%Z || (iAudioIn <? 0)%Z
  then ret LSCP_FAILED
  else lscp_client_query pClient
         ("SET CHANNEL AUDIO_OUTPUT_CHANNELS " ++ fmt_d iSamplerChannel ++ " "
            ++ fmt_d iAudioOut ++ " " ++ fmt_d iAudioIn ++ CRLF).

(** [lscp_set_channel_midi_type]. *)
Definition lscp_set_channel_midi_type (pClient : pointer) (iSamplerChannel : Z)
    (pszMidiDriver : option text) : op lscp_status_t :=
  if (iSamplerChannel <? 0)%Z then ret LSCP_FAILED
  else
    match pszMidiDriver with
    | None => ret LSCP_FAILED
    | Some name =>
        szQuery <- sprintf_query
                     ("SET CHANNEL MIDI_INPUT_TYPE " ++ fmt_d iSamplerChannel ++ " "
                        ++ name ++ CRLF) ;;
        lscp_client_query pClient szQuery
    end.

(** [lscp_set_channel_midi_port]. *)
Definition lscp_set_channel_midi_port (pClient : pointer)
    (iSamplerChannel iMidiPort : Z) : op lscp_status_t :=
  if (iSamplerChannel <? 0)%Z || (iMidiPort <? 0)%Z then ret LSCP_FAILED
  else lscp_client_query pClient
         ("SET CHANNEL MIDI_INPUT_PORT " ++ fmt_d iSamplerChannel ++ " "
            ++ fmt_d iMidiPort ++ CRLF).

(** [lscp_set_channel_midi_channel]. *)
Definition lscp_set_channel_midi_channel (pClient : pointer)
    (iSamplerChannel iMidiChannel : Z) : op lscp_status_t :=
  if (iSamplerChannel <? 0)%Z || (iMidiChannel <? 0)%Z || (16 <? iMidiChannel)%Z
  then ret LSCP_FAILED
  else if (0 <? iMidiChannel)%Z then
    lscp_client_query pClient
      ("SET CHANNEL MIDI_INPUT_CHANNEL " ++ fmt_d iSamplerChannel ++ " "
         ++ fmt_d iMidiChannel ++ CRLF)
  else
    lscp_client_query pClient
      ("SET CHANNEL MIDI_INPUT_CHANNEL " ++ fmt_d iSamplerChannel ++ " ALL" ++ CRLF).

(** [lscp_set_channel_volume]. *)
Definition lscp_set_channel_volume (pClient : pointer) (iSamplerChannel : Z)
    (fVolume : float) : op lscp_status_t :=
  if (iSamplerChannel <? 0)%Z || float_negative fVolume then ret LSCP_FAILED
  else lscp_client_query pClient
         ("SET CHANNEL VOLUME " ++ fmt_d iSamplerChannel ++ " "
            ++ fmt_g fVolume ++ CRLF).

(** [lscp_reset_channel]. *)
Definition lscp_reset_channel (pClient : pointer) (iSamplerChannel : Z)
  : op lscp_status_t :=
  if (iSamplerChannel <? 0)%Z then ret LSCP_FAILED
  else lscp_client_query pClient
         ("RESET CHANNEL " ++ fmt_d iSamplerChannel ++ CRLF).

(** ** Buffer fill *)

(** What [malloc] leaves in an entry. *)
Definition fill_indeterminate : lscp_buffer_fill_t :=
  {| stream_id := None; stream_usage := None |}.

(** [a[i] = f(a[i])] on an array of [length a] entries. *)
Definition array_set {A : Type} (a : list A) (i : Z) (f : A -> A) : outcome (list A) :=
  if ((0 <=? i)%Z && (i <? Z.of_nat (length a))%Z)%bool then
    let n := Z.to_nat i in
    match nth_error a n with
    | Some x => Done (firstn n a ++ f x :: skipn (S n) a)
    | None => Fault OutOfBounds
    end
  else Fault OutOfBounds.

(** [pBufferFill[iStream].stream_id = atol(pszToken)], into [unsigned int]. *)
Definition set_stream_id (tok : text) (e : lscp_buffer_fill_t) : lscp_buffer_fill_t :=
  {| stream_id := Some (atol tok mod 2 ^ 32)%Z; stream_usage := stream_usage e |}.

(** [pBufferFill[iStream].stream_usage = atol(pszToken)], into [unsigned long]. *)
Definition set_stream_usage (tok : text) (e : lscp_buffer_fill_t) : lscp_buffer_fill_t :=
  {| stream_id := stream_id e; stream_usage := Some (atol tok mod 2 ^ ULONG_BITS)%Z |}.

Definition fill_seps : text := "[]%,".

(** The [while (pszToken && iStream < pClient->iStreamCount)] loop of
    [lscp_get_channel_buffer_fill]: the array and [iStream] at its end. *)
Fixpoint buffer_fill_loop (fuel : nat) (pBufferFill : list lscp_buffer_fill_t)
    (iStreamCount iStream : Z) (pszToken : option text) (pch : text)
  : outcome (list lscp_buffer_fill_t * Z) :=
  match pszToken with
  | None => Done (pBufferFill, iStream)
  | Some tok =>
      if (iStream <? iStreamCount)%Z then
        match fuel with
        | O => Fault FuelExhausted
        | S fuel' =>
            match tok with
            | [] =>
                let '(pszToken, pch) := _lscp_strtok None fill_seps pch in
                buffer_fill_loop fuel' pBufferFill iStreamCount iStream pszToken pch
            | _ :: _ =>
                match array_set pBufferFill iStream (set_stream_id tok) with
                | Fault f => Fault f
                | Done pBufferFill =>
                    let '(pszToken, pch) := _lscp_strtok None fill_seps pch in
                    match pszToken with
                    | None => Done (pBufferFill, iStream)
                    | Some tok' =>
                        match array_set pBufferFill iStream (set_stream_usage tok') with
                        | Fault f => Fault f
                        | Done pBufferFill =>
                            let iStream := (iStream + 1)%Z in
                            let '(pszToken, pch) := _lscp_strtok None fill_seps pch in
                            buffer_fill_loop fuel' pBufferFill iStreamCount iStream
                                             pszToken pch
                        end
                    end
                end
            end
        end
      else Done (pBufferFill, iStream)
  end.

(** The parse of a buffer fill payload into the array, from [iStream = 0]. *)
Definition buffer_fill_parse (pBufferFill : list lscp_buffer_fill_t)
    (iStreamCount : Z) (pszResult : text)
  : outcome (list lscp_buffer_fill_t * Z) :=
  let '(pszToken, pch) := _lscp_strtok (Some pszResult) fill_seps [] in
  buffer_fill_loop (S (length pszResult)) pBufferFill iStreamCount 0%Z pszToken pch.

(** The reallocation step of [lscp_get_channel_buffer_fill], taken when the
    resolved count differs from [pClient->iStreamCount]. *)
Definition buffer_fill_realloc (pClient : pointer) (iStreamCount : Z) : op unit :=
  free_buffer_fill pClient ;;;
  store pClient (with_iStreamCount 0%Z) ;;;
  p <- malloc iStreamCount ;;
  store pClient
    (with_buffer_fill
       (match p with
        | Some (b, k) => Some (b, repeat fill_indeterminate k)
        | None => None
        end)) ;;;
  store pClient (with_iStreamCount iStreamCount).

(** The stream count [lscp_get_channel_buffer_fill] works with: the cached one,
    or the answer to a count query when the cached one is below 1. *)
Definition resolve_stream_count (pClient : pointer) (iSamplerChannel : Z) : op Z :=
  c <- load pClient ;;
  if (iStreamCount c <? 1)%Z
  then lscp_get_channel_stream_count pClient iSamplerChannel
  else ret (iStreamCount c).

(** The transaction of [lscp_get_channel_buffer_fill] and the parse of its
    answer into the array; the scan cuts the result text in place. *)
Definition buffer_fill_query (pClient : pointer) (pszUsageType : text)
    (iSamplerChannel : Z) : op (option block) :=
  r <- lscp_client_query pClient
         ("GET CHANNEL BUFFER_FILL " ++ pszUsageType ++ " "
            ++ fmt_d iSamplerChannel ++ CRLF) ;;
  match r with
  | LSCP_OK =>
      pszResult <- lscp_client_get_result pClient ;;
      c <- load pClient ;;
      match pszResult with
      | None => undefined Uninitialised
      | Some res =>
          store pClient (with_pszResult (Some (strtok_residue fill_seps res))) ;;;
          match buffer_fill c with
          | Some (b, cells) =>
              match buffer_fill_parse cells (iStreamCount c) res with
              | Done (cells', _) =>
                  store pClient (with_buffer_fill (Some (b, cells'))) ;;;
                  ret (Some b)
              | Fault f => undefined f
              end
          | None =>
              match buffer_fill_parse [] (iStreamCount c) res with
              | Done _ => ret None
              | Fault FuelExhausted => undefined FuelExhausted
              | Fault _ => undefined NullPointer
              end
          end
      end
  | _ => ret None
  end.

(** [lscp_get_channel_buffer_fill].  The result is NULL or the array, named by
    its block. *)
Definition lscp_get_channel_buffer_fill (pClient : pointer)
    (usage_type : lscp_usage_t) (iSamplerChannel : Z) : op (option block) :=
  _ <- load pClient ;;
  let pszUsageType : text :=
    match usage_type with
    | LSCP_USAGE_BYTES => "BYTES"
    | LSCP_USAGE_PERCENTAGE => "PERCENTAGE"
    end in
  if (iSamplerChannel <? 0)%Z then ret None
  else
    iStreamCount' <- resolve_stream_count pClient iSamplerChannel ;;
    if (iStreamCount' <? 1)%Z then ret None
    else
      c <- load pClient ;;
      (if (iStreamCount c =? iStreamCount')%Z then ret tt
       else buffer_fill_realloc pClient iStreamCount') ;;;
      buffer_fill_query pClient pszUsageType iSamplerChannel.

(** ** All operations on a session *)

(** The public functions of client.c that take the client, and one turn of the
    listener thread. *)
Inductive operation : Type :=
  | Op_join
  | Op_destroy
  | Op_call (pchBuffer : option text) (cchBuffer : Z) (pchResult : option Z)
  | Op_set_timeout (iTimeout : Z)
  | Op_get_timeout
  | Op_query (pszQuery : text)
  | Op_get_result
  | Op_get_errno
  | Op_subscribe
  | Op_unsubscribe
  | Op_get_available_audio_drivers
  | Op_get_available_midi_drivers
  | Op_get_available_engines
  | Op_get_audio_driver_info (name : option text)
  | Op_get_midi_driver_info (name : option text)
  | Op_load_instrument (name : option text) (iInstrIndex iSamplerChannel : Z)
  | Op_load_engine (name : option text) (iSamplerChannel : Z)
  | Op_get_channels
  | Op_add_channel
  | Op_remove_channel (iSamplerChannel : Z)
  | Op_get_engine_info (name : option text)
  | Op_get_channel_info (iSamplerChannel : Z)
  | Op_get_channel_voice_count (iSamplerChannel : Z)
  | Op_get_channel_stream_count (iSamplerChannel : Z)
  | Op_get_channel_buffer_fill (usage_type : lscp_usage_t) (iSamplerChannel : Z)
  | Op_set_channel_audio_type (iSamplerChannel : Z) (name : option text)
  | Op_set_channel_audio_channel (iSamplerChannel iAudioOut iAudioIn : Z)
  | Op_set_channel_midi_type (iSamplerChannel : Z) (name : option text)
  | Op_set_channel_midi_port (iSamplerChannel iMidiPort : Z)
  | Op_set_channel_midi_channel (iSamplerChannel iMidiChannel : Z)
  | Op_set_channel_volume (iSamplerChannel : Z) (fVolume : float)
  | Op_reset_channel (iSamplerChannel : Z)
  | Op_udp_turn (ev : udp_event).

(** Forgetting the value an operation returns. *)
Definition void {A : Type} (m : op A) : op (option lscp_status_t) :=
  _ <- m ;; ret None.

(** Keeping the status an operation returns. *)
Definition status {A : Type} (m : op A) (f : A -> lscp_status_t)
  : op (option lscp_status_t) :=
  a <- m ;; ret (Some (f a)).

(** Running one operation on the session behind [pClient], from its call to
    its return with no turn of the listener in between; the value is the
    [lscp_status_t] returned, when the operation returns one.  (For a turn of
    the listener that falls inside [lscp_client_subscribe] see
    [subscribe_during_listener].) *)
Definition perform (pClient : pointer) (o : operation) : op (option lscp_status_t) :=
  match o with
  | Op_join => status (lscp_client_join pClient) id
  | Op_destroy => status (lscp_client_destroy pClient) id
  | Op_call b n r => status (lscp_client_call pClient b n r) fst
  | Op_set_timeout t => status (lscp_client_set_timeout pClient t) id
  | Op_get_timeout => void (lscp_client_get_timeout pClient)
  | Op_query q => status (lscp_client_query pClient q) id
  | Op_get_result => void (lscp_client_get_result pClient)
  | Op_get_errno => void (lscp_client_get_errno pClient)
  | Op_subscribe => status (lscp_client_subscribe pClient) id
  | Op_unsubscribe => status (lscp_client_unsubscribe pClient) id
  | Op_get_available_audio_drivers => void (lscp_get_available_audio_drivers pClient)
  | Op_get_available_midi_drivers => void (lscp_get_available_midi_drivers pClient)
  | Op_get_available_engines => void (lscp_get_available_engines pClient)
  | Op_get_audio_driver_info n => void (lscp_get_audio_driver_info pClient n)
  | Op_get_midi_driver_info n => void (lscp_get_midi_driver_info pClient n)
  | Op_load_instrument n i ch => status (lscp_load_instrument pClient n i ch) id
  | Op_load_engine n ch => status (lscp_load_engine pClient n ch) id
  | Op_get_channels => void (lscp_get_channels pClient)
  | Op_add_channel => void (lscp_add_channel pClient)
  | Op_remove_channel ch => status (lscp_remove_channel pClient ch) id
  | Op_get_engine_info n => void (lscp_get_engine_info pClient n)
  | Op_get_channel_info ch => void (lscp_get_channel_info pClient ch)
  | Op_get_channel_voice_count ch => void (lscp_get_channel_voice_count pClient ch)
  | Op_get_channel_stream_count ch => void (lscp_get_channel_stream_count pClient ch)
  | Op_get_channel_buffer_fill u ch => void (lscp_get_channel_buffer_fill pClient u ch)
  | Op_set_channel_audio_type ch n => status (lscp_set_channel_audio_type pClient ch n) id
  | Op_set_channel_audio_channel ch o i =>
      status (lscp_set_channel_audio_channel pClient ch o i) id
  | Op_set_channel_midi_type ch n => status (lscp_set_channel_midi_type pClient ch n) id
  | Op_set_channel_midi_port ch p => status (lscp_set_channel_midi_port pClient ch p) id
  | Op_set_channel_midi_channel ch m =>
      status (lscp_set_channel_midi_channel pClient ch m) id
  | Op_set_channel_volume ch v => status (lscp_set_channel_volume pClient ch v) id
  | Op_reset_channel ch => status (lscp_reset_channel pClient ch) id
  | Op_udp_turn ev => void (udp_turn pClient ev)
  end.

(** What [_lscp_client_set_result] makes of a client. *)
Definition with_result (pszResult : option text) (iErrno : Z) (c : lscp_client_t)
  : lscp_client_t :=
  with_pszResult (option_map _lscp_ltrim pszResult) (with_iErrno iErrno c).

(** The four info caches of a client. *)
Definition info_caches (c : lscp_client_t) :=
  (audio_info c, midi_info c, engine_info c, channel_info c).

End Client.

(** ** Texts free of given characters *)

Definition sep_free (pszSeps s : text) : bool :=
  forallb (fun c => negb (is_sep pszSeps c)) s.

Definition nul_free (s : text) : bool :=
  forallb (fun c => negb (Ascii.eqb c NUL)) s.

Definition all_space (s : text) : bool := forallb isspace s.

(** ** The specification's reading of the wire format *)

(** Follows the spec's words "surrounding whitespace trimmed": white space
    removed at both ends. *)
Definition spec_trim (s : text) : text :=
  rev (_lscp_ltrim (rev (_lscp_ltrim s))).

(** Follows the spec's words "colon-delimited": the fields of a text cut at
    every colon. *)
Fixpoint spec_colon_fields (s : text) : list text :=
  match s with
  | [] => [[]]
  | c :: s' =>
      if Ascii.eqb c ":" then [] :: spec_colon_fields s'
      else
        match spec_colon_fields s' with
        | f :: fs => (c :: f) :: fs
        | [] => [[c]]
        end
  end.

(** Follows the spec's words "the bracketed payload" of [OK[<payload>]]: what
    stands between the opening bracket and the closing one. *)
Fixpoint upto_bracket (s : text) : option text :=
  match s with
  | [] => None
  | c :: s' =>
      if Ascii.eqb c "]" then Some []
      else option_map (cons c) (upto_bracket s')
  end.

Definition spec_bracket_payload (s : text) : option text :=
  match s with
  | _ :: _ :: b :: s' => if Ascii.eqb b "[" then upto_bracket s' else None
  | _ => None
  end.

(** ** A scripted environment for concrete runs *)

(** A server that answers the requests it gets from a script, one event per
    request, and lets [select] time out once the script is used up. *)
Definition script_serve (script : list tcp_event) (request : text) (tv : Z * Z)
  : tcp_event * list tcp_event :=
  match script with
  | [] => (SelectTimeout, [])
  | ev :: script' => (ev, script')
  end.

(** [LSCP_BUFSIZ] of 1024 bytes, a 64-bit [long], a [malloc] that gives what
    it is asked for, integers standing in for [float] values, and a scripted
    server. *)
Definition demo : Environment :=
  {| LSCP_BUFSIZ := 1024;
     ULONG_BITS := 64;
     ULONG_BITS_wide := eq_refl;
     malloc_fill := fun n => Some (Z.to_nat n);
     float := Z;
     float_zero := 0%Z;
     atof := numeral_value;
     fmt_g := fmt_d;
     float_negative := fun z => (z <? 0)%Z;
     Server := list tcp_event;
     serve := script_serve |}.

(** A client as [lscp_client_create] leaves it, with a callback that accepts
    every notification and the listener on port 5000. *)
Definition fresh_client : @lscp_client_t demo :=
  {| pfnCallback := fun _ => LSCP_OK; udp_iState := true; udp_port := 5000;
     sessid := None; audio_drivers := None; midi_drivers := None; engines := None;
     audio_info := _lscp_driver_info_init; midi_info := _lscp_driver_info_init;
     engine_info := _lscp_engine_info_init;
     channel_info := _lscp_channel_info_init (E := demo);
     pszResult := None; iErrno := (-1)%Z; buffer_fill := None;
     iStreamCount := 0%Z; iTimeout := LSCP_TIMEOUT_MSECS |}.

(** The world of a client facing a server that follows [script]. *)
Definition scripted (c : @lscp_client_t demo) (script : list tcp_event)
  : @world demo :=
  {| w_client := Some c; w_server := script; w_next_block := O;
     w_freed := []; w_udp_sent := [] |}.

(** What an operation made of the client, when it returned. *)
Definition client_after {E : Environment} {A : Type} (r : outcome (A * world))
  : option lscp_client_t :=
  match r with
  | Done (_, w) => w_client w
  | Fault _ => None
  end.

(** What an operation returned. *)
Definition value_of {E : Environment} {A : Type} (r : outcome (A * world)) : option A :=
  match r with
  | Done (a, _) => Some a
  | Fault _ => None
  end.

(** A client that holds error code 5 from an earlier answer and now faces a
    server that stays silent. *)
Definition client_after_error : @lscp_client_t demo :=
  with_iErrno 5%Z (with_pszResult (Some ("Invalid channel" : text)) fresh_client).

(** Answers of the server used in the concrete runs. *)
Definition answer_error : text := "ERR:5:Invalid channel" ++ CRLF.
Definition answer_error_bracket : text := "ERR:5:bad [x]" ++ CRLF.
Definition answer_ok : text := "OK[42]" ++ CRLF.
Definition answer_ok_colon : text := "OK[a:b]" ++ CRLF.
Definition answer_plain : text := "  12" ++ CRLF.

Definition query_channels : text := "GET CHANNELS" ++ CRLF.

(** The datagrams the listener had sent when an operation returned. *)
Definition sent_after {E : Environment} {A : Type} (r : outcome (A * world))
  : option (list text) :=
  match r with
  | Done (_, w) => Some (w_udp_sent w)
  | Fault _ => None
  end.

(** The separators of the listener. *)
Definition ping_seps : text := " " ++ CRLF.

(** A keepalive datagram. *)
Definition ping (port id : text) : text := "PING " ++ port ++ " " ++ id.

(** The keepalive of the spec's example, and a later one with another id. *)
Definition ping_abc : text := ping "5000" "abc123".
Definition ping_zzz : text := ping "5000" "zzz".

(** A client whose session-id is bound to [abc123]. *)
Definition bound_client : @lscp_client_t demo :=
  with_sessid (Some ("abc123" : text)) fresh_client.

(** A client whose info caches hold an earlier successful snapshot. *)
Definition cached_client : @lscp_client_t demo :=
  with_channel_info
    {| engine_name := Some ("GigEngine" : text); audio_device := 0%Z;
       audio_channels := 2%Z; audio_routing := Some ["0" : text; "1" : text];
       instrument_file := Some ("piano.gig" : text); instrument_nr := 0%Z;
       midi_device := 0%Z; midi_port := 0%Z; midi_channel := 1%Z;
       volume := (1%Z : @float demo) |}
    (with_audio_info
       {| di_description := Some ("Advanced Linux Sound Architecture" : text);
          di_version := Some ("1.0" : text);
          di_parameters := Some ["card" : text] |}
       fresh_client).

(** Answers to the stream count and buffer fill queries. *)
Definition answer_two_streams : text := "2" ++ CRLF.
Definition answer_fill : text := "[0]12%,[1]34%" ++ CRLF.
Definition payload_three_streams : text := "[0]12%,[1]34%,[2]56%".

(** A client that has already asked for the buffer fill of two streams: its
    array is block 0. *)
Definition filled_client : @lscp_client_t demo :=
  with_iStreamCount 2%Z
    (with_buffer_fill
       (Some (O, [ {| stream_id := Some 0%Z; stream_usage := Some 7%Z |};
                   {| stream_id := Some 1%Z; stream_usage := Some 9%Z |} ]))
       fresh_client).

(** ** Texts made of given characters *)

(** Every character of [s] is one of the separators. *)
Definition sep_only (pszSeps s : text) : bool := forallb (is_sep pszSeps) s.

(** Every character of [s] is CR or LF. *)
Definition crlf_only (s : text) : bool :=
  forallb (fun c => Ascii.eqb c LF || Ascii.eqb c CR) s.

(** ** Sequences of operations *)

(** Running operations one after the other on the session behind [pClient]. *)
Fixpoint perform_all {E : Environment} (pClient : pointer) (ops : list operation)
  : op unit :=
  match ops with
  | [] => ret tt
  | o :: ops' => perform pClient o ;;; perform_all pClient ops'
  end.

(** ** Well-formed buffer fill answers *)

(** The payload [[<id>]<usage>%,[<id>]<usage>%,...] of a buffer fill answer,
    one bracketed stream id and one usage figure per stream. *)
Fixpoint fill_payload (pairs : list (text * text)) : text :=
  match pairs with
  | [] => []
  | (id, usage) :: rest =>
      "[" ++ id ++ "]" ++ usage ++ "%" ++
      match rest with
      | [] => []
      | _ :: _ => "," ++ fill_payload rest
      end
  end.

(** What follows a pair in a payload. *)
Definition payload_tail (rest : list (text * text)) : text :=
  match rest with
  | [] => []
  | _ :: _ => "," ++ fill_payload rest
  end.

(** A stream id or usage figure as it stands in a payload: not empty and free
    of the separators of the parse. *)
Definition fill_token (t : text) : Prop := t <> [] /\ sep_free fill_seps t = true.

(** The array entry the parse makes of an (id, usage) pair. *)
Definition fill_entry {E : Environment} (p : text * text) : lscp_buffer_fill_t :=
  set_stream_usage (snd p) (set_stream_id (fst p) fill_indeterminate).

(** ** Well-formed comma separated lists *)

(** The items of a list joined by commas. *)
Definition csv_join (items : list text) : text :=
  match items with
  | [] => []
  | item :: rest => item ++ flat_map (fun t => ","%char :: t) rest
  end.

(** An item that stands in a comma separated list as it is: not empty, free
    of commas and NULs, with no white space at either end and no quote at its
    start. *)
Definition csv_item (t : text) : Prop :=
  t <> [] /\ sep_free "," t = true /\ nul_free t = true /\
  isspace (hd NUL t) = false /\ is_quote (hd NUL t) = false /\
  isspace (last t NUL) = false.

(** ** Well-formed info answers *)


(** The answer to an engine info query. *)
Definition engine_info_answer (description version : text) : text :=
  "DESCRIPTION:" ++ description ++ CRLF ++ "VERSION:" ++ version.

(** ** Decimal numerals *)

(** What a decimal numeral is made of. *)
Definition numeral_char (c : ascii) : bool :=
  match digit_of c with Some _ => true | None => Ascii.eqb c "-" end.

(** ** More data for concrete runs *)

Definition answer_warning : text := "WRN:3:careful" ++ CRLF.

Definition answer_subscribed : text := "OK[abc123]" ++ CRLF.


(** A client whose engine cache holds an earlier answer. *)
Definition engine_client : @lscp_client_t demo :=
  with_engine_info {| ei_description := Some ("old" : text);
                      ei_version := Some ("0.1" : text) |} fresh_client.

Definition answer_engine : text :=
  engine_info_answer " Gigasampler Engine" " 0.3" ++ CRLF.



(** As many bytes as the receive array holds, none of them CR or LF. *)
Definition answer_full : text := repeat "a"%char 1024.

(** The world before a session is created, facing a server that follows
    [script]. *)
Definition unborn (script : list tcp_event) : @world demo :=
  @Build_world demo None script O [] [].

(** ** Observations of the world *)

(** [m] leaves what [obs] sees of the world as it was. *)
Definition preserves {E : Environment} {A X : Type} (obs : world -> X) (m : op A)
  : Prop :=
  forall w a w', m w = Done (a, w') -> obs w' = obs w.

(** What an observation of one client field sees. *)
Definition field {E : Environment} {X : Type} (g : lscp_client_t -> X) (w : world)
  : option X :=
  option_map g (w_client w).

(** Observations that do not look at the server, at the result record of the
    client, at the blocks of the allocator. *)
Definition server_blind {E : Environment} {X : Type} (obs : world -> X) : Prop :=
  forall w s, obs (with_server s w) = obs w.

Definition result_blind {E : Environment} {X : Type} (obs : world -> X) : Prop :=
  forall w c, w_client w = Some c ->
    (forall v, obs (with_client (with_pszResult v c) w) = obs w) /\
    (forall z, obs (with_client (with_iErrno z c) w) = obs w).

(** The buffer fill array of a client as an object: its block and its number
    of entries. *)
Definition array_shape {E : Environment} (c : lscp_client_t) : option (block * nat) :=
  option_map (fun p => (fst p, length (snd p))) (buffer_fill c).

(** What the reallocation of the buffer fill array is about: the cached
    stream count, the array object, and the state of the allocator. *)
Definition fill_state {E : Environment} (w : world) :=
  (field iStreamCount w, field array_shape w, w_next_block w, w_freed w).

(** The buffer fill array has as many entries as the cached stream count says,
    and there is no array while the count is 0. *)
Definition fill_wf {E : Environment} (w : world) : Prop :=
  match w_client w with
  | Some c =>
      match buffer_fill c with
      | Some (_, cells) => Z.of_nat (length cells) = iStreamCount c
      | None => iStreamCount c = 0%Z
      end
  | None => True
  end.

(** The buffer fill array is what [malloc] gave for the cached stream count:
    there is no array while the count is 0; for a count of 1 or more the
    array is missing when [malloc] failed for that count and has the entries
    [malloc] found room for otherwise. *)
Definition fill_as_allocated {E : Environment} (w : world) : Prop :=
  match w_client w with
  | Some c =>
      (iStreamCount c = 0%Z /\ buffer_fill c = None) \/
      ((1 <= iStreamCount c)%Z /\
       option_map (fun p => length (snd p)) (buffer_fill c)
         = malloc_fill (iStreamCount c))
  | None => True
  end.

(** * Properties *)

Unset Implicit Arguments.

(** ** The tokenizer on well-formed input *)

Lemma skip_seps_head (pszSeps : text) (c : ascii) (s : text) :
  is_sep pszSeps c = false -> skip_seps pszSeps (c :: s) = c :: s.
Proof. intros H. simpl. rewrite H. reflexivity. Qed.

Lemma strpbrk_token (pszSeps tok : text) (c : ascii) (rest : text) :
  sep_free pszSeps tok = true -> is_sep pszSeps c = true ->
  strpbrk pszSeps (tok ++ c :: rest) = (tok, Some rest).
Proof.
  intros Hfree Hc. induction tok as [|x tok IH]; simpl in *.
  - rewrite Hc. reflexivity.
  - apply andb_true_iff in Hfree. destruct Hfree as [Hx Hfree].
    apply negb_true_iff in Hx. rewrite Hx, (IH Hfree). reflexivity.
Qed.

Lemma strpbrk_last (pszSeps tok : text) :
  sep_free pszSeps tok = true -> strpbrk pszSeps tok = (tok, None).
Proof.
  intros Hfree. induction tok as [|x tok IH]; simpl in *; [reflexivity|].
  apply andb_true_iff in Hfree. destruct Hfree as [Hx Hfree].
  apply negb_true_iff in Hx. rewrite Hx, (IH Hfree). reflexivity.
Qed.

(** A non-empty token free of separators and followed by a separator is what
    the tokenizer returns, leaving the cursor after the separators. *)
Lemma strtok_token (pszSeps tok : text) (c : ascii) (rest ppch : text)
    (buf : option text) :
  tok <> [] -> sep_free pszSeps tok = true -> is_sep pszSeps c = true ->
  match buf with Some b => b | None => ppch end = tok ++ c :: rest ->
  _lscp_strtok buf pszSeps ppch = (Some tok, skip_seps pszSeps rest).
Proof.
  intros Hne Hfree Hc Hbuf. unfold _lscp_strtok. rewrite Hbuf.
  destruct tok as [|x tok]; [congruence|].
  simpl in Hfree. apply andb_true_iff in Hfree. destruct Hfree as [Hx Hfree].
  apply negb_true_iff in Hx.
  change ((x :: tok) ++ c :: rest) with (x :: (tok ++ c :: rest)).
  rewrite (skip_seps_head _ _ _ Hx).
  cbn [strpbrk]. rewrite Hx, (strpbrk_token _ _ _ _ Hfree Hc). reflexivity.
Qed.

(** A non-empty token free of separators that ends the text is returned too,
    and the cursor is left at the end. *)
Lemma strtok_last (pszSeps tok ppch : text) (buf : option text) :
  tok <> [] -> sep_free pszSeps tok = true ->
  match buf with Some b => b | None => ppch end = tok ->
  _lscp_strtok buf pszSeps ppch = (Some tok, []).
Proof.
  intros Hne Hfree Hbuf. unfold _lscp_strtok. rewrite Hbuf.
  destruct tok as [|x tok]; [congruence|].
  pose proof Hfree as Hfree'.
  simpl in Hfree. apply andb_true_iff in Hfree. destruct Hfree as [Hx Hfree].
  apply negb_true_iff in Hx.
  rewrite (skip_seps_head _ _ _ Hx), (strpbrk_last _ _ Hfree'). reflexivity.
Qed.

Lemma cstr_nul_free (s : text) : nul_free s = true -> cstr s = s.
Proof.
  induction s as [|c s IH]; simpl; [reflexivity|].
  intros H. apply andb_true_iff in H. destruct H as [Hc Hs].
  apply negb_true_iff in Hc. rewrite Hc, (IH Hs). reflexivity.
Qed.

Lemma ltrim_head (c : ascii) (s : text) :
  isspace c = false -> _lscp_ltrim (c :: s) = c :: s.
Proof. intros H. simpl. rewrite H. reflexivity. Qed.

(** ** Unquoting *)

Lemma skipn_span_space (s : text) :
  skipn (span_len isspace s) s = _lscp_ltrim s.
Proof.
  induction s as [|c s IH]; simpl; [reflexivity|].
  destruct (isspace c); simpl; [exact IH | reflexivity].
Qed.

Lemma peek_skipn (b : text) (n : nat) : peek b n = hd NUL (skipn n b).
Proof.
  unfold peek. revert b. induction n as [|n IH]; intros [|c b]; simpl; auto.
Qed.

Lemma cstr_idem (s : text) : cstr (cstr s) = cstr s.
Proof.
  induction s as [|c s IH]; simpl; [reflexivity|].
  destruct (Ascii.eqb c NUL) eqn:Hc; simpl; [reflexivity|].
  rewrite Hc, IH. reflexivity.
Qed.

Lemma cstr_app (a b : text) : nul_free a = true -> cstr (a ++ b) = a ++ cstr b.
Proof.
  induction a as [|c a IH]; simpl; [reflexivity|].
  intros H. apply andb_true_iff in H. destruct H as [Hc Ha].
  apply negb_true_iff in Hc. rewrite Hc, (IH Ha). reflexivity.
Qed.

Lemma cstr_stop (a b : text) : nul_free a = true -> cstr (a ++ NUL :: b) = a.
Proof.
  intros H. rewrite (cstr_app _ _ H). simpl. apply app_nil_r.
Qed.

Lemma span_len_app (p : ascii -> bool) (a b : text) :
  forallb p a = true -> span_len p (a ++ b) = (length a + span_len p b)%nat.
Proof.
  induction a as [|c a IH]; simpl; [reflexivity|].
  intros H. apply andb_true_iff in H. destruct H as [Hc Ha].
  rewrite Hc, (IH Ha). reflexivity.
Qed.

Lemma span_len_stop (p : ascii -> bool) (c : ascii) (s : text) :
  p c = false -> span_len p (c :: s) = O.
Proof. intros H. simpl. rewrite H. reflexivity. Qed.

Lemma skipn_app_exact {A : Type} (a b : list A) : skipn (length a) (a ++ b) = b.
Proof. induction a; simpl; auto. Qed.

Lemma firstn_app_exact {A : Type} (a b : list A) : firstn (length a) (a ++ b) = a.
Proof. induction a; simpl; [reflexivity | f_equal; assumption]. Qed.

Lemma skipn_past_quote {A : Type} (pre : list A) (q : A) (s : list A) :
  skipn (S (length pre)) (pre ++ q :: s) = s.
Proof. induction pre; simpl; auto. Qed.

Lemma skipn_past_mid {A : Type} (pre : list A) (q : A) (mid s : list A) :
  skipn (S (length pre) + length mid) (pre ++ q :: mid ++ s) = s.
Proof. induction pre; simpl; [apply skipn_app_exact | assumption]. Qed.

Lemma quote_cases (q : ascii) :
  is_quote q = true -> q = DQUOTE \/ q = "'"%char.
Proof.
  unfold is_quote. intros H. apply orb_true_iff in H.
  destruct H as [H|H]; apply Ascii.eqb_eq in H; auto.
Qed.

Lemma quote_not_space (q : ascii) : is_quote q = true -> isspace q = false.
Proof. intros H. destruct (quote_cases q H); subst; reflexivity. Qed.

Lemma quote_not_nul (q : ascii) : is_quote q = true -> Ascii.eqb q NUL = false.
Proof. intros H. destruct (quote_cases q H); subst; reflexivity. Qed.

Lemma space_not_nul (c : ascii) : isspace c = true -> Ascii.eqb c NUL = false.
Proof.
  intros H. destruct (Ascii.eqb c NUL) eqn:E; [|reflexivity].
  apply Ascii.eqb_eq in E. subst. discriminate.
Qed.

Lemma all_space_nul_free (s : text) : all_space s = true -> nul_free s = true.
Proof.
  induction s as [|c s IH]; simpl; [reflexivity|].
  intros H. apply andb_true_iff in H. destruct H as [Hc Hs].
  rewrite (space_not_nul _ Hc), (IH Hs). reflexivity.
Qed.

(** Walking back over the white space that precedes the closing quote stops
    right after the last character of the content. *)
Lemma trim_back_spaces (inner post tail : text) :
  inner <> [] -> isspace (last inner NUL) = false -> all_space post = true ->
  trim_back (inner ++ post ++ tail) 0 (length inner + length post) = length inner.
Proof.
  intros Hne Hlast. revert tail.
  induction post as [|x post IH] using rev_ind; intros tail Hsp.
  - simpl. rewrite Nat.add_0_r.
    destruct (exists_last Hne) as [inner' [y Hy]]. subst inner.
    rewrite last_last in Hlast.
    rewrite length_app. simpl. rewrite Nat.add_1_r. simpl.
    rewrite peek_skipn, <- app_assoc, skipn_app_exact. simpl.
    rewrite Hlast. reflexivity.
  - unfold all_space in Hsp. rewrite forallb_app in Hsp.
    apply andb_true_iff in Hsp. destruct Hsp as [Hpost Hx].
    simpl in Hx. rewrite andb_true_r in Hx.
    rewrite length_app. simpl. rewrite Nat.add_1_r, Nat.add_succ_r. simpl.
    rewrite <- (app_assoc post [x] tail). simpl.
    assert (Hpeek : peek (inner ++ post ++ x :: tail) (length inner + length post) = x).
    { rewrite peek_skipn, app_assoc, <- length_app, skipn_app_exact. reflexivity. }
    rewrite Hpeek, Hx. simpl. apply IH. exact Hpost.
Qed.

(** A text whose first character after the leading white space is not a quote
    comes back with the leading white space removed and nothing else. *)
Lemma unquote_bare (s : text) :
  is_quote (hd NUL (_lscp_ltrim s)) = false -> unquoted s = cstr (_lscp_ltrim s).
Proof.
  intros H. unfold unquoted, _lscp_unquote, skip_space. simpl skipn.
  rewrite Nat.add_0_l, peek_skipn, skipn_span_space, H.
  unfold cstr_at. simpl skipn. rewrite skipn_span_space. apply cstr_idem.
Qed.

(** A quoted text comes back as its content, without the white space around
    the quotes and without the white space just inside them. *)
Lemma unquote_quoted (q : ascii) (pre mid inner post rest : text) :
  is_quote q = true ->
  all_space pre = true -> all_space mid = true -> all_space post = true ->
  inner <> [] -> isspace (hd NUL inner) = false -> isspace (last inner NUL) = false ->
  nul_free inner = true -> forallb (fun c => negb (Ascii.eqb c q)) inner = true ->
  unquoted (pre ++ q :: mid ++ inner ++ post ++ q :: rest) = inner.
Proof.
  intros Hq Hpre Hmid Hpost Hne Hhd Hlast Hnul Hnoq.
  pose proof (quote_not_space q Hq) as Hqs.
  pose proof (quote_not_nul q Hq) as Hqn.
  pose proof (all_space_nul_free _ Hpost) as Hpostn.
  set (s := pre ++ q :: mid ++ inner ++ post ++ q :: rest).
  set (tail := q :: cstr rest).
  assert (H1 : skip_space s 0 = length pre).
  { unfold skip_space, s. change (skipn 0 ?l) with l.
    rewrite (span_len_app _ _ _ Hpre), (span_len_stop _ _ _ Hqs). lia. }
  assert (H2 : peek s (length pre) = q).
  { unfold s. rewrite peek_skipn, skipn_app_exact. reflexivity. }
  assert (H3 : skip_space s (S (length pre)) = (S (length pre) + length mid)%nat).
  { unfold skip_space, s. rewrite skipn_past_quote, (span_len_app _ _ _ Hmid).
    destruct inner as [|x inner0]; [congruence|].
    simpl in Hhd. change ((x :: inner0) ++ ?l) with (x :: (inner0 ++ l)).
    rewrite (span_len_stop _ _ _ Hhd). lia. }
  assert (H4 : cstr_at s (S (length pre) + length mid) = inner ++ post ++ tail).
  { unfold cstr_at, s. rewrite skipn_past_mid.
    rewrite (cstr_app _ _ Hnul), (cstr_app _ _ Hpostn).
    change (cstr (q :: rest)) with (if Ascii.eqb q NUL then [] else q :: cstr rest).
    rewrite Hqn. reflexivity. }
  assert (Hspan :
    span_len (fun c => negb (Ascii.eqb c NUL) && negb (Ascii.eqb c q))
      (inner ++ post ++ tail) = (length inner + length post)%nat).
  { rewrite app_assoc, span_len_app.
    - unfold tail. rewrite span_len_stop.
      + rewrite length_app. lia.
      + rewrite Ascii.eqb_refl. apply andb_false_r.
    - rewrite forallb_app. apply andb_true_iff. split.
      + apply forallb_forall. intros c Hc.
        unfold nul_free in Hnul. rewrite forallb_forall in Hnul, Hnoq.
        rewrite (Hnul c Hc), (Hnoq c Hc). reflexivity.
      + apply forallb_forall. intros c Hc.
        unfold all_space in Hpost.
        rewrite forallb_forall in Hpost. pose proof (Hpost c Hc) as Hcs.
        rewrite (space_not_nul _ Hcs).
        destruct (Ascii.eqb c q) eqn:Ecq; [|reflexivity].
        apply Ascii.eqb_eq in Ecq. subst c. congruence. }
  assert (Hpk : peek (inner ++ post ++ tail) (length inner + length post) = q).
  { rewrite peek_skipn, app_assoc, <- length_app, skipn_app_exact. reflexivity. }
  assert (Hlt : (length inner <? length (inner ++ post ++ tail))%nat = true).
  { apply Nat.ltb_lt. rewrite !length_app. unfold tail. simpl. lia. }
  unfold unquoted, _lscp_unquote. cbv zeta.
  rewrite H1, H2, Hq, H3, H4.
  cbv beta iota.
  change (skipn 0 (inner ++ post ++ tail)) with (inner ++ post ++ tail).
  rewrite Nat.add_0_l, Hspan, Hpk, Hqn.
  rewrite (trim_back_spaces inner post tail Hne Hlast Hpost).
  unfold poke_nul, cstr_at.
  rewrite Hlt, firstn_app_exact.
  change (skipn 0 ?l) with l.
  apply cstr_stop. exact Hnul.
Qed.

(** C8 (as amended): a text whose first character after the leading white
    space is not a quote is returned with the leading white space removed and
    its trailing white space kept, so that [  foo  ] yields [foo  ]; a quoted
    text is returned as its content, with the white space outside the quotes,
    the quotes and the white space just inside them removed and every other
    character (commas included) kept. *)
Theorem C8_unquote_keeps_trailing_space :
  (forall s : text,
      is_quote (hd NUL (_lscp_ltrim s)) = false ->
      unquoted s = cstr (_lscp_ltrim s)) /\
  unquoted "  foo  " = "foo  " /\
  (forall (q : ascii) (pre mid inner post rest : text),
      is_quote q = true ->
      all_space pre = true -> all_space mid = true -> all_space post = true ->
      inner <> [] ->
      isspace (hd NUL inner) = false -> isspace (last inner NUL) = false ->
      nul_free inner = true ->
      forallb (fun c => negb (Ascii.eqb c q)) inner = true ->
      unquoted (pre ++ q :: mid ++ inner ++ post ++ q :: rest) = inner) /\
  unquoted quoted_hello = "Hello, World".
Proof.
  split; [exact unquote_bare|].
  split; [vm_compute; reflexivity|].
  split; [exact unquote_quoted|].
  vm_compute; reflexivity.
Qed.

(** ** Reasoning about operations *)

Section Properties.

Context {E : Environment}.

Lemma bind_done {A B : Type} (m : op A) (k : A -> op B) (w w' : world) (b : B) :
  bind m k w = Done (b, w') ->
  exists a w1, m w = Done (a, w1) /\ k a w1 = Done (b, w').
Proof.
  unfold bind. destruct (m w) as [[a w1]|f]; [|discriminate].
  intros H. exists a, w1. auto.
Qed.

Lemma bind_run {A B : Type} (m : op A) (k : A -> op B) (w w1 : world) (a : A) :
  m w = Done (a, w1) -> bind m k w = k a w1.
Proof. intros H. unfold bind. rewrite H. reflexivity. Qed.

Lemma preserves_ret {A X : Type} (obs : world -> X) (a : A) : preserves obs (ret a).
Proof. intros w a' w' H. inversion H. reflexivity. Qed.

Lemma preserves_undefined {A X : Type} (obs : world -> X) (f : fault) :
  preserves obs (@undefined world A f).
Proof. intros w a w' H. discriminate. Qed.

Lemma preserves_bind {A B X : Type} (obs : world -> X) (m : op A) (k : A -> op B) :
  preserves obs m -> (forall a, preserves obs (k a)) -> preserves obs (bind m k).
Proof.
  intros Hm Hk w b w' H. apply bind_done in H. destruct H as [a [w1 [H1 H2]]].
  rewrite (Hk a _ _ _ H2). exact (Hm _ _ _ H1).
Qed.

Lemma preserves_load {X : Type} (obs : world -> X) (p : pointer) :
  preserves obs (load p).
Proof.
  intros w a w' H. unfold load in H.
  destruct p; [discriminate|]. destruct (w_client w); inversion H. reflexivity.
Qed.

Lemma preserves_store {X : Type} (obs : world -> X) (p : pointer)
    (f : lscp_client_t -> lscp_client_t) :
  (forall w c, w_client w = Some c -> obs (with_client (f c) w) = obs w) ->
  preserves obs (store p f).
Proof.
  intros Hf w a w' H. unfold store in H.
  destruct p; [discriminate|]. destruct (w_client w) eqn:Hc; inversion H.
  apply Hf. exact Hc.
Qed.

Lemma preserves_transact {X : Type} (obs : world -> X) (req : text) (tv : Z * Z) :
  (forall w s, obs (with_server s w) = obs w) -> preserves obs (transact req tv).
Proof.
  intros Hs w a w' H. unfold transact in H.
  destruct (serve (w_server w) req tv) as [ev s]. inversion H. apply Hs.
Qed.

Lemma preserves_malloc {X : Type} (obs : world -> X) (n : Z) :
  (forall w b, obs (with_next_block b w) = obs w) -> preserves obs (malloc n).
Proof.
  intros Hb w a w' H. unfold malloc in H.
  destruct (malloc_fill n); inversion H; [apply Hb | reflexivity].
Qed.

Lemma preserves_sprintf {X : Type} (obs : world -> X) (line : text) :
  preserves obs (sprintf_query line).
Proof.
  unfold sprintf_query.
  destruct (length line <? LSCP_BUFSIZ)%nat;
    [apply preserves_ret | apply preserves_undefined].
Qed.

(** A request that fits [szQuery] is written as it is. *)
Lemma sprintf_fits (line : text) (w : world) :
  (length line < LSCP_BUFSIZ)%nat -> sprintf_query line w = Done (line, w).
Proof.
  intros H. unfold sprintf_query. apply Nat.ltb_lt in H. rewrite H. reflexivity.
Qed.

Lemma sprintf_bind {B : Type} (line : text) (k : text -> op B) (w : world) :
  bind (sprintf_query line) k w
  = if (length line <? LSCP_BUFSIZ)%nat then k line w else Fault OutOfBounds.
Proof.
  unfold bind, sprintf_query. destruct (length line <? LSCP_BUFSIZ)%nat; reflexivity.
Qed.


Lemma preserves_free {X : Type} (obs : world -> X) (b : block) :
  (forall w l, obs (with_freed l w) = obs w) -> preserves obs (free b).
Proof. intros Hb w a w' H. inversion H. apply Hb. Qed.

Lemma preserves_udp_send {X : Type} (obs : world -> X) (d : text) :
  (forall w l, obs (with_udp_sent l w) = obs w) -> preserves obs (udp_send d).
Proof. intros Hb w a w' H. inversion H. apply Hb. Qed.

Ltac blind :=
  repeat match goal with
  | |- server_blind _ => intros ? ?
  | |- result_blind _ => intros ? ? ?; split; intros ?
  | |- forall _, _ => intros ?
  end;
  unfold fill_state, field, array_shape; cbn;
  repeat match goal with
  | H : w_client _ = Some _ |- _ => rewrite H
  end;
  reflexivity.

Lemma preserves_set_result {X : Type} (obs : world -> X) (p : pointer)
    (r : option text) (e : Z) :
  result_blind obs -> preserves obs (_lscp_client_set_result p r e).
Proof.
  intros Hb. unfold _lscp_client_set_result.
  repeat (apply preserves_bind; [|intros ?]);
    try (apply preserves_store; intros w c Hc; apply (Hb w c Hc)).
  destruct r; [|apply preserves_ret].
  apply preserves_store; intros w c Hc; apply (Hb w c Hc).
Qed.

Lemma preserves_call {X : Type} (obs : world -> X) (p : pointer)
    (b : option text) (n : Z) (r : option Z) :
  server_blind obs -> preserves obs (lscp_client_call p b n r).
Proof.
  intros Hs. unfold lscp_client_call.
  destruct p; [apply preserves_ret|].
  destruct b as [buf|]; [|apply preserves_ret].
  destruct r as [cap|]; [|apply preserves_ret].
  destruct (n <? 1)%Z; [apply preserves_ret|].
  destruct (cap <? 1)%Z; [apply preserves_ret|].
  apply preserves_bind; [apply preserves_load|intros c].
  apply preserves_bind; [apply preserves_transact; exact Hs|intros ev].
  destruct ev; try apply preserves_ret.
  destruct (firstn (Z.to_nat cap) bytes); apply preserves_ret.
Qed.

Lemma preserves_query {X : Type} (obs : world -> X) (p : pointer) (q : text) :
  server_blind obs -> result_blind obs -> preserves obs (lscp_client_query p q).
Proof.
  intros Hs Hr. unfold lscp_client_query.
  destruct p; [apply preserves_ret|].
  apply preserves_bind; [apply preserves_call; exact Hs|intros [ret0 achResult]].
  destruct ret0;
    try (apply preserves_bind;
         [apply preserves_set_result; exact Hr | intros ?; apply preserves_ret]).
  destruct (LSCP_BUFSIZ <=? length (rstrip_crlf achResult))%nat;
    [apply preserves_undefined|].
  destruct (classify (cstr (rstrip_crlf achResult))) as [[ret1 res] err].
  apply preserves_bind;
    [apply preserves_set_result; exact Hr | intros ?; apply preserves_ret].
Qed.

(** One step of a proof that an operation preserves an observation. *)
Ltac preserves_step :=
  match goal with
  | |- preserves _ (ret _) => apply preserves_ret
  | |- preserves _ (undefined _) => apply preserves_undefined
  | |- preserves _ (bind _ _) => apply preserves_bind; [|intros ?]
  | |- preserves _ (load _) => apply preserves_load
  | |- preserves _ (lscp_client_query _ _) => apply preserves_query; blind
  | |- preserves _ (lscp_client_call _ _ _ _) => apply preserves_call; blind
  | |- preserves _ (_lscp_client_set_result _ _ _) =>
      apply preserves_set_result; blind
  | |- preserves _ (lscp_client_get_result _) => unfold lscp_client_get_result
  | |- preserves _ (store _ _) => apply preserves_store; blind
  | |- preserves _ (transact _ _) => apply preserves_transact; blind
  | |- preserves _ (malloc _) => apply preserves_malloc; blind
  | |- preserves _ (sprintf_query _) => apply preserves_sprintf
  | |- preserves _ (free _) => apply preserves_free; blind
  | |- preserves _ (udp_send _) => apply preserves_udp_send; blind
  | |- preserves _ (match ?x with _ => _ end) => destruct x
  end.

Ltac preserves_auto := repeat preserves_step.

(** ** NULL client pointers *)

(** Called with a NULL client pointer, each function of the [lscp_client_]
    family returns its failure value at once: the pointer is not read and the
    world, the server included, is as before.  (The typed wrappers have no
    test of their own.) *)
Lemma client_family_on_null (w : world) (pszQuery : text) (iTimeout : Z)
    (pchBuffer : option text) (cchBuffer : Z) (pchResult : option Z) :
  lscp_client_query NULL pszQuery w = Done (LSCP_FAILED, w) /\
  lscp_client_set_timeout NULL iTimeout w = Done (LSCP_FAILED, w) /\
  lscp_client_destroy NULL w = Done (LSCP_FAILED, w) /\
  lscp_client_join NULL w = Done (LSCP_FAILED, w) /\
  lscp_client_get_result NULL w = Done (None, w) /\
  lscp_client_get_errno NULL w = Done ((-1)%Z, w) /\
  lscp_client_get_timeout NULL w = Done ((-1)%Z, w) /\
  lscp_client_call NULL pchBuffer cchBuffer pchResult w = Done ((LSCP_FAILED, []), w) /\
  lscp_client_subscribe NULL w = Done (LSCP_FAILED, w) /\
  lscp_client_unsubscribe NULL w = Done (LSCP_FAILED, w).
Proof. repeat split. Qed.

(** ** Transactions *)

Lemma store_run (f : lscp_client_t -> lscp_client_t) (w : world) (c : lscp_client_t) :
  w_client w = Some c -> store PTR f w = Done (tt, with_client (f c) w).
Proof. intros H. unfold store. rewrite H. reflexivity. Qed.

Lemma load_run (w : world) (c : lscp_client_t) :
  w_client w = Some c -> load PTR w = Done (c, w).
Proof. intros H. unfold load. rewrite H. reflexivity. Qed.

(** [_lscp_client_set_result] replaces the result text and the error code and
    nothing else. *)
Lemma set_result_run (r : option text) (e : Z) (w : world) (c : lscp_client_t) :
  w_client w = Some c ->
  _lscp_client_set_result PTR r e w = Done (tt, with_client (with_result r e c) w).
Proof.
  intros H. unfold _lscp_client_set_result, bind, store. rewrite H. cbn.
  destruct r; reflexivity.
Qed.

(** A call that gets past its guards has read the client and has changed
    nothing but the server. *)
Lemma call_done (b : option text) (n : Z) (r : option Z) (w w1 : world)
    (st : lscp_status_t) (got : text) :
  lscp_client_call PTR b n r w = Done ((st, got), w1) ->
  st <> LSCP_FAILED ->
  exists c, w_client w = Some c /\ w_client w1 = Some c.
Proof.
  unfold lscp_client_call. intros H Hst.
  destruct b as [buf|]; [|inversion H; congruence].
  destruct r as [cap|]; [|inversion H; congruence].
  destruct (n <? 1)%Z; [inversion H; congruence|].
  destruct (cap <? 1)%Z; [inversion H; congruence|].
  unfold bind, load, transact in H.
  destruct (w_client w) as [c|] eqn:Hc; [|discriminate].
  destruct (serve (w_server w) (firstn (Z.to_nat n) buf) (select_timeval (iTimeout c)))
    as [ev s].
  exists c. split; [reflexivity|].
  destruct ev; try destruct (firstn (Z.to_nat cap) bytes);
    inversion H; subst; try congruence; exact Hc.
Qed.

(** C1 (as amended): when [lscp_client_call] reports TIMEOUT inside
    [lscp_client_query], the query returns TIMEOUT, the result text becomes
    the fixed timeout message and the error code becomes -1, whatever it was
    before the call; nothing else of the client changes. *)
Theorem C1_timeout_resets_errno (w w1 : world) (pszQuery got : text) :
  lscp_client_call PTR (Some pszQuery) (Z.of_nat (length pszQuery))
    (Some (Z.of_nat LSCP_BUFSIZ)) w = Done ((LSCP_TIMEOUT, got), w1) ->
  exists c1 c2,
    w_client w1 = Some c1 /\
    lscp_client_query PTR pszQuery w = Done (LSCP_TIMEOUT, with_client c2 w1) /\
    c2 = with_result (Some timeout_message) (-1)%Z c1 /\
    pszResult c2 = Some timeout_message /\
    iErrno c2 = (-1)%Z.
Proof.
  intros Hcall.
  destruct (call_done _ _ _ _ _ _ _ Hcall) as [c [_ Hc1]]; [discriminate|].
  exists c, (with_result (Some timeout_message) (-1)%Z c).
  split; [exact Hc1|]. split; [|repeat split].
  unfold lscp_client_query. rewrite (bind_run _ _ _ _ _ Hcall).
  rewrite (bind_run _ _ _ _ _ (set_result_run _ _ _ _ Hc1)). reflexivity.
Qed.

(** ** Classification of responses *)

Lemma skip_seps_token (pszSeps tok rest : text) :
  tok <> [] -> sep_free pszSeps tok = true ->
  skip_seps pszSeps (tok ++ rest) = tok ++ rest.
Proof.
  intros Hne Hfree. destruct tok as [|x tok]; [congruence|].
  simpl in Hfree. apply andb_true_iff in Hfree. destruct Hfree as [Hx _].
  apply negb_true_iff in Hx. apply (skip_seps_head _ _ _ Hx).
Qed.

(** A response that starts with [ERR:] is classified as an error. *)
Lemma classify_error_status (t : text) :
  strncaseeq 4 t "ERR:" = true -> fst (fst (classify t)) = LSCP_ERROR.
Proof.
  intros H. unfold classify. rewrite H.
  destruct (_lscp_strtok (Some t) ":[]" []) as [[tok|] pch]; [|reflexivity].
  destruct (_lscp_strtok None ":[]" pch) as [[code|] pch']; reflexivity.
Qed.

(** [ERR:<code>:<message>] with a code and a message free of [:], [[] and
    []]. *)
Lemma classify_error (code msg : text) :
  code <> [] -> sep_free ":[]" code = true ->
  msg <> [] -> sep_free ":[]" msg = true ->
  classify ("ERR:" ++ code ++ ":" ++ msg) = (LSCP_ERROR, Some msg, atoi code).
Proof.
  intros Hc Hcf Hm Hmf. unfold classify.
  change (strncaseeq 4 ("ERR:" ++ code ++ ":" ++ msg) "ERR:") with true. cbv iota.
  rewrite (strtok_token ":[]" "ERR" ":" (code ++ ":" ++ msg) [] (Some ("ERR:" ++ code ++ ":" ++ msg)));
    [|discriminate|reflexivity|reflexivity|reflexivity].
  rewrite (skip_seps_token _ _ _ Hc Hcf).
  rewrite (strtok_token ":[]" code ":" msg (code ++ ":" ++ msg) None Hc Hcf);
    [|reflexivity|reflexivity].
  rewrite <- (app_nil_r msg) at 1. rewrite (skip_seps_token _ _ _ Hm Hmf), app_nil_r.
  rewrite (strtok_last ":[]" msg msg None Hm Hmf); reflexivity.
Qed.

(** [OK[<payload>]] with a payload free of [:], [[] and []]. *)
Lemma classify_ok_bracket (payload rest : text) :
  payload <> [] -> sep_free ":[]" payload = true ->
  classify ("OK[" ++ payload ++ "]" ++ rest) = (LSCP_OK, Some payload, 0%Z).
Proof.
  intros Hp Hpf. unfold classify.
  change (strncaseeq 4 ("OK[" ++ payload ++ "]" ++ rest) "ERR:") with false.
  change (strncaseeq 4 ("OK[" ++ payload ++ "]" ++ rest) "WRN:") with false.
  change (strncaseeq 3 ("OK[" ++ payload ++ "]" ++ rest) "OK[") with true.
  cbv iota.
  rewrite (strtok_token ":[]" "OK" "[" (payload ++ "]" ++ rest) []
             (Some ("OK[" ++ payload ++ "]" ++ rest)));
    [|discriminate|reflexivity|reflexivity|reflexivity].
  rewrite (skip_seps_token _ _ _ Hp Hpf).
  rewrite (strtok_token ":[]" payload "]" rest (payload ++ "]" ++ rest) None Hp Hpf);
    reflexivity.
Qed.

(** A response that is neither an error nor a warning and does not start with
    [OK[] is its own result. *)
Lemma classify_ok_plain (t : text) :
  strncaseeq 4 t "ERR:" = false -> strncaseeq 4 t "WRN:" = false ->
  strncaseeq 3 t "OK[" = false ->
  classify t = (LSCP_OK, Some t, 0%Z).
Proof. intros H1 H2 H3. unfold classify. rewrite H1, H2, H3. reflexivity. Qed.

Lemma classify_ok_status (t : text) :
  strncaseeq 4 t "ERR:" = false -> strncaseeq 4 t "WRN:" = false ->
  fst (fst (classify t)) = LSCP_OK /\ snd (classify t) = 0%Z.
Proof.
  intros H1 H2. unfold classify. rewrite H1, H2.
  destruct (strncaseeq 3 t "OK["); [|split; reflexivity].
  destruct (_lscp_strtok (Some t) ":[]" []) as [[tok|] pch]; split; reflexivity.
Qed.

(** A query whose call received [got]: the answer is classified and stored. *)
Lemma query_received (w w1 : world) (pszQuery got : text) (c1 : lscp_client_t) :
  lscp_client_call PTR (Some pszQuery) (Z.of_nat (length pszQuery))
    (Some (Z.of_nat LSCP_BUFSIZ)) w = Done ((LSCP_OK, got), w1) ->
  w_client w1 = Some c1 ->
  (length (rstrip_crlf got) < LSCP_BUFSIZ)%nat ->
  lscp_client_query PTR pszQuery w =
    let '(st, res, err) := classify (cstr (rstrip_crlf got)) in
    Done (st, with_client (with_result res err c1) w1).
Proof.
  intros Hcall Hc1 Hlen. unfold lscp_client_query.
  rewrite (bind_run _ _ _ _ _ Hcall). cbv iota beta.
  apply Nat.leb_gt in Hlen. rewrite Hlen.
  destruct (classify (cstr (rstrip_crlf got))) as [[st res] err].
  rewrite (bind_run _ _ _ _ _ (set_result_run _ _ _ _ Hc1)). reflexivity.
Qed.

(** X29: a response that starts with [ERR:] (in any letter case) makes
    [lscp_client_query] return LSCP_ERROR.  When it reads
    [ERR:<code>:<message>], code and message not empty and free of [:], [[]
    and []], the error code becomes [atoi] of the code and the result text the
    message without its leading white space. *)
Theorem error_response (w w1 : world) (pszQuery got : text) :
  lscp_client_call PTR (Some pszQuery) (Z.of_nat (length pszQuery))
    (Some (Z.of_nat LSCP_BUFSIZ)) w = Done ((LSCP_OK, got), w1) ->
  (length (rstrip_crlf got) < LSCP_BUFSIZ)%nat ->
  strncaseeq 4 (cstr (rstrip_crlf got)) "ERR:" = true ->
  exists c1 c2,
    w_client w1 = Some c1 /\
    lscp_client_query PTR pszQuery w = Done (LSCP_ERROR, with_client c2 w1) /\
    (forall code msg : text,
        cstr (rstrip_crlf got) = "ERR:" ++ code ++ ":" ++ msg ->
        code <> [] -> sep_free ":[]" code = true ->
        msg <> [] -> sep_free ":[]" msg = true ->
        c2 = with_result (Some msg) (atoi code) c1 /\
        iErrno c2 = atoi code /\
        pszResult c2 = Some (_lscp_ltrim msg)).
Proof.
  intros Hcall Hlen Herr.
  destruct (call_done _ _ _ _ _ _ _ Hcall) as [c [_ Hc1]]; [discriminate|].
  pose proof (query_received _ _ _ _ _ Hcall Hc1 Hlen) as Hq.
  pose proof (classify_error_status _ Herr) as Hst.
  destruct (classify (cstr (rstrip_crlf got))) as [[st res] err] eqn:Hcl.
  simpl in Hst. subst st.
  exists c, (with_result res err c). split; [exact Hc1|]. split; [exact Hq|].
  intros code msg Hform Hc Hcf Hm Hmf.
  rewrite Hform, (classify_error _ _ Hc Hcf Hm Hmf) in Hcl.
  inversion Hcl. subst. repeat split.
Qed.

(** X30: for a response that is neither an error nor a warning
    [lscp_client_query] strips trailing CR/LF, returns LSCP_OK and sets the
    error code to 0.  When the text does not start with [OK[] the result text
    is the whole text without its leading white space.  For [OK[<payload>]]
    with a payload that is not empty and holds none of [:], [[] and []] it is
    the payload without its leading white space. *)
Theorem ok_response (w w1 : world) (pszQuery got : text) :
  lscp_client_call PTR (Some pszQuery) (Z.of_nat (length pszQuery))
    (Some (Z.of_nat LSCP_BUFSIZ)) w = Done ((LSCP_OK, got), w1) ->
  (length (rstrip_crlf got) < LSCP_BUFSIZ)%nat ->
  strncaseeq 4 (cstr (rstrip_crlf got)) "ERR:" = false ->
  strncaseeq 4 (cstr (rstrip_crlf got)) "WRN:" = false ->
  exists c1 c2,
    w_client w1 = Some c1 /\
    lscp_client_query PTR pszQuery w = Done (LSCP_OK, with_client c2 w1) /\
    iErrno c2 = 0%Z /\
    (strncaseeq 3 (cstr (rstrip_crlf got)) "OK[" = false ->
       c2 = with_result (Some (cstr (rstrip_crlf got))) 0%Z c1 /\
       pszResult c2 = Some (_lscp_ltrim (cstr (rstrip_crlf got)))) /\
    (forall payload rest : text,
        cstr (rstrip_crlf got) = "OK[" ++ payload ++ "]" ++ rest ->
        payload <> [] -> sep_free ":[]" payload = true ->
        c2 = with_result (Some payload) 0%Z c1 /\
        pszResult c2 = Some (_lscp_ltrim payload)).
Proof.
  intros Hcall Hlen H1 H2.
  destruct (call_done _ _ _ _ _ _ _ Hcall) as [c [_ Hc1]]; [discriminate|].
  pose proof (query_received _ _ _ _ _ Hcall Hc1 Hlen) as Hq.
  destruct (classify_ok_status _ H1 H2) as [Hst Herr].
  destruct (classify (cstr (rstrip_crlf got))) as [[st res] err] eqn:Hcl.
  simpl in Hst, Herr. subst st err.
  exists c, (with_result res 0%Z c). split; [exact Hc1|]. split; [exact Hq|].
  split; [reflexivity|]. split.
  - intros H3. rewrite (classify_ok_plain _ H1 H2 H3) in Hcl.
    inversion Hcl. subst. split; reflexivity.
  - intros payload rest Hform Hp Hpf.
    rewrite Hform, (classify_ok_bracket _ _ Hp Hpf) in Hcl.
    inversion Hcl. subst. split; reflexivity.
Qed.

(** ** The keepalive handshake *)

Lemma streq_eq (a b : text) : streq a b = true <-> a = b.
Proof.
  revert b. induction a as [|x a IH]; intros [|y b]; simpl; split;
    try discriminate; try reflexivity.
  - intros H. apply andb_true_iff in H. destruct H as [Hx Ha].
    apply Ascii.eqb_eq in Hx. apply IH in Ha. congruence.
  - intros H. inversion H. subst. rewrite Ascii.eqb_refl. simpl.
    apply IH. reflexivity.
Qed.

Lemma streq_refl (a : text) : streq a a = true.
Proof. apply streq_eq. reflexivity. Qed.

Lemma streq_neq (a b : text) : a <> b -> streq a b = false.
Proof.
  intros H. destruct (streq a b) eqn:Heq; [|reflexivity].
  apply streq_eq in Heq. contradiction.
Qed.

Lemma nul_free_app (a b : text) :
  nul_free a = true -> nul_free b = true -> nul_free (a ++ b) = true.
Proof.
  intros Ha Hb. unfold nul_free in *. rewrite forallb_app, Ha, Hb. reflexivity.
Qed.

(** The three tokens of a keepalive. *)
Lemma ping_tokens (port id : text) :
  port <> [] -> sep_free ping_seps port = true ->
  id <> [] -> sep_free ping_seps id = true ->
  exists pch1 pch2,
    _lscp_strtok (Some (ping port id)) ping_seps [] = (Some ("PING" : text), pch1) /\
    _lscp_strtok None ping_seps pch1 = (Some port, pch2) /\
    _lscp_strtok None ping_seps pch2 = (Some id, []).
Proof.
  intros Hp Hpf Hi Hif.
  exists (port ++ " " ++ id), id. split; [|split].
  - rewrite (strtok_token ping_seps "PING" " " (port ++ " " ++ id) []
               (Some (ping port id)));
      [|discriminate|reflexivity|reflexivity|reflexivity].
    rewrite (skip_seps_token _ _ _ Hp Hpf). reflexivity.
  - rewrite (strtok_token ping_seps port " " id (port ++ " " ++ id) None Hp Hpf);
      [|reflexivity|reflexivity].
    rewrite <- (app_nil_r id) at 1.
    rewrite (skip_seps_token _ _ _ Hi Hif), app_nil_r. reflexivity.
  - apply strtok_last; [exact Hi | exact Hif | reflexivity].
Qed.

(** What one turn of the listener does with a keepalive, from its third
    token on. *)
Lemma udp_turn_ping (w : world) (port id stale : text) :
  port <> [] -> sep_free ping_seps port = true -> nul_free port = true ->
  id <> [] -> sep_free ping_seps id = true -> nul_free id = true ->
  (length (ping port id) < LSCP_BUFSIZ)%nat ->
  udp_turn PTR (Recvfrom (ping port id ++ stale) (Z.of_nat (length (ping port id)))) w =
    (c <- load PTR ;;
     match sessid c with
     | None => store PTR (with_sessid (Some id))
     | Some _ => ret tt
     end ;;;
     c <- load PTR ;;
     match sessid c with
     | Some id' =>
         if streq id id' then udp_send ("PONG " ++ id' ++ CRLF) else ret tt
     | None => ret tt
     end) w.
Proof.
  intros Hp Hpf Hpn Hi Hif Hin Hlen.
  destruct (ping_tokens port id Hp Hpf Hi Hif) as [pch1 [pch2 [T1 [T2 T3]]]].
  unfold udp_turn.
  assert (Hpos : (0 <? Z.of_nat (length (ping port id)))%Z = true)
    by (apply Z.ltb_lt; unfold ping; simpl; lia).
  rewrite Hpos.
  change (strncaseeq 5 (ping port id ++ stale) "PING ") with true. cbv iota.
  assert (Hsz : (Z.of_nat LSCP_BUFSIZ <=? Z.of_nat (length (ping port id)))%Z = false)
    by (apply Z.leb_gt; lia).
  rewrite Hsz, Nat2Z.id, firstn_app_exact.
  assert (Hnul : nul_free (ping port id) = true).
  { unfold ping. apply nul_free_app; [reflexivity|].
    apply nul_free_app; [exact Hpn|]. apply nul_free_app; [reflexivity|exact Hin]. }
  rewrite (cstr_nul_free _ Hnul).
  fold ping_seps. rewrite T1, T2, T3. reflexivity.
Qed.

(** C2 (as amended): a keepalive [PING <port> <id>] received while no
    session-id is bound makes the listener adopt the id and, the adopted id
    now matching, reply [PONG <id>] in the same turn; with that id already
    bound it replies [PONG <id>]; with another id bound it changes nothing
    and sends nothing. *)
Theorem C2_ping_adopts_and_replies (w : world) (c : lscp_client_t)
    (port id stale : text) :
  w_client w = Some c ->
  port <> [] -> sep_free ping_seps port = true -> nul_free port = true ->
  id <> [] -> sep_free ping_seps id = true -> nul_free id = true ->
  (length (ping port id) < LSCP_BUFSIZ)%nat ->
  let turn :=
    udp_turn PTR (Recvfrom (ping port id ++ stale) (Z.of_nat (length (ping port id)))) w in
  (sessid c = None ->
     turn = Done (tt, with_udp_sent (w_udp_sent w ++ ["PONG " ++ id ++ CRLF])
                        (with_client (with_sessid (Some id) c) w))) /\
  (sessid c = Some id ->
     turn = Done (tt, with_udp_sent (w_udp_sent w ++ ["PONG " ++ id ++ CRLF]) w)) /\
  (forall id', sessid c = Some id' -> id' <> id -> turn = Done (tt, w)).
Proof.
  intros Hc Hp Hpf Hpn Hi Hif Hin Hlen turn. subst turn.
  rewrite (udp_turn_ping w port id stale Hp Hpf Hpn Hi Hif Hin Hlen).
  unfold bind, load, store. rewrite Hc.
  split; [|split].
  - intros Hs. rewrite Hs. cbn. rewrite Hc. cbn. rewrite streq_refl. reflexivity.
  - intros Hs. rewrite Hs. cbn. rewrite Hc, Hs, streq_refl. reflexivity.
  - intros id' Hs Hne. rewrite Hs. cbn. rewrite Hc, Hs.
    rewrite (streq_neq id id'); [reflexivity | congruence].
Qed.

(** ** Progress of the tokenizer and the buffer fill parse *)

Lemma skip_seps_length (pszSeps s : text) :
  (length (skip_seps pszSeps s) <= length s)%nat.
Proof.
  induction s as [|c s IH]; simpl; [lia|].
  destruct (is_sep pszSeps c); simpl; lia.
Qed.

Lemma strpbrk_after_length (pszSeps s tok after : text) :
  strpbrk pszSeps s = (tok, Some after) -> (length after < length s)%nat.
Proof.
  revert tok. induction s as [|c s IH]; simpl; intros tok H; [discriminate|].
  destruct (is_sep pszSeps c).
  - inversion H. subst. lia.
  - destruct (strpbrk pszSeps s) as [tok' after'] eqn:Hs.
    inversion H. subst. specialize (IH tok' eq_refl). lia.
Qed.

(** Every token found moves the cursor strictly forward. *)
Lemma strtok_shrinks (buf : option text) (pszSeps ppch tok pch' : text) :
  _lscp_strtok buf pszSeps ppch = (Some tok, pch') ->
  (length pch' < length (match buf with Some b => b | None => ppch end))%nat.
Proof.
  unfold _lscp_strtok.
  set (s := match buf with Some b => b | None => ppch end).
  pose proof (skip_seps_length pszSeps s) as Hskip.
  destruct (skip_seps pszSeps s) as [|x s'] eqn:Hs; [discriminate|].
  destruct (strpbrk pszSeps (x :: s')) as [t [after|]] eqn:Hb; intros H;
    inversion H; subst.
  - pose proof (strpbrk_after_length _ _ _ _ Hb) as Ha.
    pose proof (skip_seps_length pszSeps after). cbn [length] in *. lia.
  - cbn [length] in *. lia.
Qed.

(** When no token is found the cursor stays where it was. *)
Lemma strtok_none (buf : option text) (pszSeps ppch pch' : text) :
  _lscp_strtok buf pszSeps ppch = (None, pch') -> pch' = ppch.
Proof.
  unfold _lscp_strtok.
  destruct (skip_seps pszSeps match buf with Some b => b | None => ppch end);
    [intros H; inversion H; reflexivity|].
  destruct (strpbrk pszSeps (a :: l)) as [t [after|]]; discriminate.
Qed.

Lemma array_set_in_bounds {A : Type} (a : list A) (i : Z) (f : A -> A) :
  (0 <= i < Z.of_nat (length a))%Z ->
  exists a', array_set a i f = Done a' /\ length a' = length a.
Proof.
  intros Hi. unfold array_set.
  assert (Hb : ((0 <=? i)%Z && (i <? Z.of_nat (length a))%Z)%bool = true)
    by (apply andb_true_iff; split; [apply Z.leb_le | apply Z.ltb_lt]; lia).
  rewrite Hb.
  assert (Hn : (Z.to_nat i < length a)%nat) by lia.
  destruct (nth_error a (Z.to_nat i)) as [x|] eqn:Hx.
  - eexists. split; [reflexivity|].
    rewrite length_app. cbn [length]. rewrite length_firstn, length_skipn. lia.
  - apply nth_error_None in Hx. lia.
Qed.

Lemma array_set_out_of_bounds {A : Type} (a : list A) (i : Z) (f : A -> A) :
  (Z.of_nat (length a) <= i)%Z -> array_set a i f = Fault OutOfBounds.
Proof.
  intros Hi. unfold array_set.
  assert (Hb : (i <? Z.of_nat (length a))%Z = false) by (apply Z.ltb_ge; lia).
  rewrite Hb, andb_false_r. reflexivity.
Qed.

(** The loop of the buffer fill parse ends without a fault on an array of
    [iStreamCount] entries, keeps the length of the array and stops with
    [iStream] at most [iStreamCount]. *)
Lemma buffer_fill_loop_ok (fuel : nat) :
  forall (cells : list lscp_buffer_fill_t) (n i : Z) (tok : option text) (pch : text),
    Z.of_nat (length cells) = n -> (0 <= i <= n)%Z ->
    (tok <> None -> (length pch < fuel)%nat) ->
    exists cells' k,
      buffer_fill_loop fuel cells n i tok pch = Done (cells', k) /\
      length cells' = length cells /\ (i <= k <= n)%Z.
Proof.
  induction fuel as [|fuel IH]; intros cells n i tok pch Hlen Hi Hfuel.
  - destruct tok as [t|]; simpl.
    + assert (length pch < 0)%nat by (apply Hfuel; discriminate). lia.
    + exists cells, i. repeat split; lia.
  - destruct tok as [t|]; simpl; [|exists cells, i; repeat split; lia].
    assert (Hpch : (length pch < S fuel)%nat) by (apply Hfuel; discriminate).
    destruct (i <? n)%Z eqn:Hin; [|exists cells, i; repeat split; lia].
    apply Z.ltb_lt in Hin.
    destruct t as [|x t].
    + destruct (_lscp_strtok None fill_seps pch) as [tok1 pch1] eqn:T1.
      apply IH; try assumption.
      intros Hne. destruct tok1 as [t1|]; [|congruence].
      pose proof (strtok_shrinks _ _ _ _ _ T1). simpl in *. lia.
    + destruct (array_set_in_bounds cells i (set_stream_id (x :: t)))
        as [cells1 [Hset1 Hlen1]]; [lia|].
      rewrite Hset1.
      destruct (_lscp_strtok None fill_seps pch) as [tok1 pch1] eqn:T1.
      destruct tok1 as [t1|]; [|exists cells1, i; repeat split; lia].
      pose proof (strtok_shrinks _ _ _ _ _ T1) as S1. simpl in S1.
      destruct (array_set_in_bounds cells1 i (set_stream_usage t1))
        as [cells2 [Hset2 Hlen2]]; [lia|].
      rewrite Hset2.
      destruct (_lscp_strtok None fill_seps pch1) as [tok2 pch2] eqn:T2.
      destruct (IH cells2 n (i + 1)%Z tok2 pch2) as [cells' [k [Hrun [Hl Hk]]]];
        [lia | lia | |].
      * intros Hne. destruct tok2 as [t2|]; [|congruence].
        pose proof (strtok_shrinks _ _ _ _ _ T2). simpl in *. lia.
      * exists cells', k. repeat split; [exact Hrun | lia | lia | lia].
Qed.

(** C9: whatever the payload holds, the parse of a buffer fill answer into an
    array of [iStreamCount] entries ends without writing outside the array (a
    write at an index of [iStreamCount] or more would be the fault
    [OutOfBounds]), leaves the array with its [iStreamCount] entries and
    stores at most [iStreamCount] (stream-id, usage) pairs. *)
Theorem C9_buffer_fill_writes_in_bounds (cells : list lscp_buffer_fill_t)
    (iStreamCount : Z) (pszResult : text) :
  Z.of_nat (length cells) = iStreamCount ->
  exists cells' pairs,
    buffer_fill_parse cells iStreamCount pszResult = Done (cells', pairs) /\
    length cells' = length cells /\
    (0 <= pairs <= iStreamCount)%Z /\
    (forall e, array_set cells' iStreamCount e = Fault OutOfBounds).
Proof.
  intros Hlen. unfold buffer_fill_parse.
  destruct (_lscp_strtok (Some pszResult) fill_seps []) as [tok pch] eqn:T.
  destruct (buffer_fill_loop_ok (S (length pszResult)) cells iStreamCount 0%Z tok pch)
    as [cells' [k [Hrun [Hl Hk]]]]; [exact Hlen | lia | |].
  - intros Hne. destruct tok as [t|]; [|congruence].
    pose proof (strtok_shrinks _ _ _ _ _ T). simpl in *. lia.
  - exists cells', k. repeat split; try assumption; try lia.
    intros e. apply array_set_out_of_bounds. lia.
Qed.

(** ** Failed info queries *)

(** C3: when the transaction behind a typed info query (audio driver info,
    MIDI driver info, engine info, channel info) does not return OK, the
    function returns NULL, does nothing beyond that transaction, and the four
    info caches hold what they held before the call.  There is a transaction
    only when the request line has been written: for the three queries that
    take a name, the line with the name in it has to fit [szQuery]. *)
Theorem C3_failed_info_query_keeps_cache (w w1 : world) (st : lscp_status_t) :
  st <> LSCP_OK ->
  (forall name : text,
      (length ("GET AUDIO_OUTPUT_DRIVER INFO " ++ name ++ CRLF) < LSCP_BUFSIZ)%nat ->
      lscp_client_query PTR ("GET AUDIO_OUTPUT_DRIVER INFO " ++ name ++ CRLF) w
        = Done (st, w1) ->
      lscp_get_audio_driver_info PTR (Some name) w = Done (None, w1) /\
      field info_caches w1 = field info_caches w) /\
  (forall name : text,
      (length ("GET MIDI_INPUT_DRIVER INFO " ++ name ++ CRLF) < LSCP_BUFSIZ)%nat ->
      lscp_client_query PTR ("GET MIDI_INPUT_DRIVER INFO " ++ name ++ CRLF) w
        = Done (st, w1) ->
      lscp_get_midi_driver_info PTR (Some name) w = Done (None, w1) /\
      field info_caches w1 = field info_caches w) /\
  (forall name : text,
      (length ("GET ENGINE INFO " ++ name ++ CRLF) < LSCP_BUFSIZ)%nat ->
      lscp_client_query PTR ("GET ENGINE INFO " ++ name ++ CRLF) w = Done (st, w1) ->
      lscp_get_engine_info PTR (Some name) w = Done (None, w1) /\
      field info_caches w1 = field info_caches w) /\
  (forall iSamplerChannel : Z,
      (0 <= iSamplerChannel)%Z ->
      lscp_client_query PTR ("GET CHANNEL INFO " ++ fmt_d iSamplerChannel ++ CRLF) w
        = Done (st, w1) ->
      lscp_get_channel_info PTR iSamplerChannel w = Done (None, w1) /\
      field info_caches w1 = field info_caches w).
Proof.
  intros Hst.
  assert (Hkeep : forall q, lscp_client_query PTR q w = Done (st, w1) ->
                            field info_caches w1 = field info_caches w).
  { intros q Hq.
    apply (preserves_query (field info_caches) PTR q) with (a := st);
      [blind | blind | exact Hq]. }
  repeat split; intros; try (eapply Hkeep; eassumption).
  - unfold lscp_get_audio_driver_info, _lscp_driver_info_query.
    rewrite (bind_run _ _ _ _ _ (sprintf_fits _ w H)).
    rewrite (bind_run _ _ _ _ _ H0). destruct st; try reflexivity; congruence.
  - unfold lscp_get_midi_driver_info, _lscp_driver_info_query.
    rewrite (bind_run _ _ _ _ _ (sprintf_fits _ w H)).
    rewrite (bind_run _ _ _ _ _ H0). destruct st; try reflexivity; congruence.
  - unfold lscp_get_engine_info.
    rewrite (bind_run _ _ _ _ _ (sprintf_fits _ w H)).
    rewrite (bind_run _ _ _ _ _ H0). destruct st; try reflexivity; congruence.
  - unfold lscp_get_channel_info.
    assert (Hch : (iSamplerChannel <? 0)%Z = false) by (apply Z.ltb_ge; lia).
    rewrite Hch, (bind_run _ _ _ _ _ H0). destruct st; try reflexivity; congruence.
Qed.

(** ** Reallocation of the buffer fill array *)

Lemma load_done (w w' : world) (c : lscp_client_t) :
  load PTR w = Done (c, w') -> w' = w /\ w_client w = Some c.
Proof.
  unfold load. destruct (w_client w); intros H; inversion H. auto.
Qed.

Lemma store_done (f : lscp_client_t -> lscp_client_t) (w w' : world) (u : unit) :
  store PTR f w = Done (u, w') ->
  exists c, w_client w = Some c /\ w' = with_client (f c) w.
Proof.
  unfold store. destruct (w_client w) as [c|]; intros H; inversion H.
  exists c. auto.
Qed.

Lemma array_set_length {A : Type} (a a' : list A) (i : Z) (f : A -> A) :
  array_set a i f = Done a' -> length a' = length a.
Proof.
  unfold array_set.
  destruct ((0 <=? i)%Z && (i <? Z.of_nat (length a))%Z)%bool eqn:Hb; [|discriminate].
  apply andb_true_iff in Hb. destruct Hb as [H0 H1].
  apply Z.leb_le in H0. apply Z.ltb_lt in H1.
  destruct (nth_error a (Z.to_nat i)); [|discriminate].
  intros H. injection H as <-.
  change (match a with [] => [] | _ :: l => skipn (Z.to_nat i) l end)
    with (skipn (S (Z.to_nat i)) a).
  rewrite length_app. cbn [length]. rewrite length_firstn, length_skipn. lia.
Qed.

(** Whenever the loop of the buffer fill parse ends, the array has the number
    of entries it had. *)
Lemma buffer_fill_loop_length (fuel : nat) :
  forall (cells cells' : list lscp_buffer_fill_t) (n i k : Z) (tok : option text)
         (pch : text),
    buffer_fill_loop fuel cells n i tok pch = Done (cells', k) ->
    length cells' = length cells.
Proof.
  induction fuel as [|fuel IH]; intros cells cells' n i k tok pch H.
  - destruct tok as [t|]; simpl in H.
    + destruct (i <? n)%Z; [discriminate | inversion H; reflexivity].
    + inversion H. reflexivity.
  - destruct tok as [t|]; simpl in H; [|inversion H; reflexivity].
    destruct (i <? n)%Z; [|inversion H; reflexivity].
    destruct t as [|x t].
    + destruct (_lscp_strtok None fill_seps pch) as [tok1 pch1].
      apply (IH _ _ _ _ _ _ _ H).
    + destruct (array_set cells i (set_stream_id (x :: t))) as [cells1|] eqn:S1;
        [|discriminate].
      apply array_set_length in S1.
      destruct (_lscp_strtok None fill_seps pch) as [[t1|] pch1];
        [|inversion H; subst; exact S1].
      destruct (array_set cells1 i (set_stream_usage t1)) as [cells2|] eqn:S2;
        [|discriminate].
      apply array_set_length in S2.
      destruct (_lscp_strtok None fill_seps pch1) as [tok2 pch2].
      rewrite (IH _ _ _ _ _ _ _ H). lia.
Qed.

Lemma buffer_fill_parse_length (cells cells' : list lscp_buffer_fill_t) (n k : Z)
    (res : text) :
  buffer_fill_parse cells n res = Done (cells', k) -> length cells' = length cells.
Proof.
  unfold buffer_fill_parse.
  destruct (_lscp_strtok (Some res) fill_seps []) as [tok pch].
  apply buffer_fill_loop_length.
Qed.

(** Resolving the stream count touches neither the array nor the allocator. *)
Lemma resolve_preserves (iSamplerChannel : Z) :
  preserves fill_state (resolve_stream_count PTR iSamplerChannel).
Proof.
  unfold resolve_stream_count, lscp_get_channel_stream_count, query_int.
  preserves_auto.
Qed.

(** Neither does the buffer fill transaction with the parse of its answer:
    the entries are written in place. *)
Lemma buffer_fill_query_preserves (pszUsageType : text) (iSamplerChannel : Z) :
  preserves fill_state (buffer_fill_query PTR pszUsageType iSamplerChannel).
Proof.
  intros w ret' w' H. unfold buffer_fill_query in H.
  apply bind_done in H. destruct H as [r [w3 [Hq H]]].
  assert (H3 : fill_state w3 = fill_state w).
  { refine (preserves_query fill_state PTR _ _ _ _ _ _ Hq); blind. }
  rewrite <- H3.
  destruct r; try (inversion H; reflexivity).
  unfold lscp_client_get_result in H.
  apply bind_done in H. destruct H as [res [w4 [Hres H]]].
  apply bind_done in Hres. destruct Hres as [c0 [w5 [Hl0 Hret]]].
  apply load_done in Hl0. destruct Hl0 as [-> Hc0]. inversion Hret. subst w4 res.
  apply bind_done in H. destruct H as [c [w6 [Hl H]]].
  apply load_done in Hl. destruct Hl as [-> Hc].
  rewrite Hc0 in Hc. inversion Hc. subst c0.
  destruct (pszResult c) as [res|]; [|discriminate].
  apply bind_done in H. destruct H as [u [w7 [Hs H]]].
  apply store_done in Hs. destruct Hs as [c' [Hc' ->]].
  rewrite Hc0 in Hc'. inversion Hc'. subst c'.
  destruct (buffer_fill c) as [[b cells]|] eqn:Hbf.
  - destruct (buffer_fill_parse cells (iStreamCount c) res) as [[cells' k]|] eqn:Hp;
      [|discriminate].
    apply buffer_fill_parse_length in Hp.
    apply bind_done in H. destruct H as [u' [w8 [Hs H]]].
    apply store_done in Hs. destruct Hs as [c'' [Hc'' ->]].
    cbn in Hc''. inversion Hc''. subst c''. inversion H. subst.
    unfold fill_state, field, array_shape. cbn. rewrite Hc0. cbn.
    rewrite Hbf. cbn. rewrite Hp. reflexivity.
  - destruct (buffer_fill_parse [] (iStreamCount c) res) as [[cells' k]|[]];
      try discriminate.
    inversion H. subst.
    unfold fill_state, field, array_shape. cbn. rewrite Hc0. cbn.
    rewrite Hbf. reflexivity.
Qed.

(** The reallocation step: the old array is freed, the cached count becomes
    [n], and the array is what [malloc] gave: a fresh block, or none. *)
Lemma buffer_fill_realloc_run (w : world) (c : lscp_client_t) (n : Z) :
  w_client w = Some c ->
  exists w2,
    buffer_fill_realloc PTR n w = Done (tt, w2) /\
    fill_state w2 =
      (Some n,
       Some (option_map (fun k => (w_next_block w, k)) (malloc_fill n)),
       match malloc_fill n with
       | Some _ => S (w_next_block w)
       | None => w_next_block w
       end,
       match array_shape c with
       | Some (b, _) => b :: w_freed w
       | None => w_freed w
       end).
Proof.
  intros Hc.
  unfold buffer_fill_realloc, free_buffer_fill, bind, load, store, malloc, free.
  rewrite Hc. unfold array_shape.
  destruct (buffer_fill c) as [[b cells]|]; cbn; rewrite ?Hc; cbn;
    destruct (malloc_fill n) as [k|]; cbn;
    (eexists; split; [reflexivity|]);
    unfold fill_state, field, array_shape; cbn; rewrite ?repeat_length; reflexivity.
Qed.

(** What a buffer fill query does to the array, given the stream count [n] it
    resolved: nothing when [n] is below 1; otherwise the array is the same
    object when [n] is the cached count and what [malloc] gave for [n] entries
    when it is not. *)
Lemma buffer_fill_outcome (w w1 : world) (c : lscp_client_t)
    (usage_type : lscp_usage_t) (iSamplerChannel n : Z) :
  w_client w = Some c ->
  (0 <= iSamplerChannel)%Z ->
  resolve_stream_count PTR iSamplerChannel w = Done (n, w1) ->
  ((n < 1)%Z ->
     lscp_get_channel_buffer_fill PTR usage_type iSamplerChannel w = Done (None, w1) /\
     fill_state w1 = fill_state w) /\
  ((1 <= n)%Z ->
   forall ret' w',
      lscp_get_channel_buffer_fill PTR usage_type iSamplerChannel w = Done (ret', w') ->
      exists c',
        w_client w' = Some c' /\ iStreamCount c' = n /\
        (n = iStreamCount c ->
           array_shape c' = array_shape c /\
           w_next_block w' = w_next_block w /\ w_freed w' = w_freed w) /\
        (n <> iStreamCount c ->
           array_shape c' = option_map (fun k => (w_next_block w, k)) (malloc_fill n) /\
           w_next_block w' = match malloc_fill n with
                             | Some _ => S (w_next_block w)
                             | None => w_next_block w
                             end /\
           w_freed w' = match array_shape c with
                        | Some (b, _) => b :: w_freed w
                        | None => w_freed w
                        end)).
Proof.
  intros Hc Hch Hres.
  pose proof (resolve_preserves iSamplerChannel _ _ _ Hres) as H1.
  assert (Hch' : (iSamplerChannel <? 0)%Z = false) by (apply Z.ltb_ge; lia).
  split.
  - intros Hn. split; [|exact H1].
    unfold lscp_get_channel_buffer_fill.
    rewrite (bind_run _ _ _ _ _ (load_run _ _ Hc)).
    rewrite Hch', (bind_run _ _ _ _ _ Hres).
    apply Z.ltb_lt in Hn. rewrite Hn. reflexivity.
  - intros Hn ret' w' H.
    unfold lscp_get_channel_buffer_fill in H.
    rewrite (bind_run _ _ _ _ _ (load_run _ _ Hc)) in H.
    rewrite Hch', (bind_run _ _ _ _ _ Hres) in H.
    assert (Hn' : (n <? 1)%Z = false) by (apply Z.ltb_ge; lia).
    rewrite Hn' in H.
    apply bind_done in H. destruct H as [c1 [w1' [Hl H]]].
    apply load_done in Hl. destruct Hl as [-> Hc1].
    assert (Hcount : iStreamCount c1 = iStreamCount c /\ array_shape c1 = array_shape c
                     /\ w_next_block w1 = w_next_block w /\ w_freed w1 = w_freed w).
    { unfold fill_state, field in H1. rewrite Hc, Hc1 in H1. cbn in H1.
      inversion H1. auto. }
    destruct Hcount as [Hcnt [Hshape [Hnext Hfreed]]].
    apply bind_done in H. destruct H as [u [w2 [Hre H]]].
    pose proof (buffer_fill_query_preserves _ _ _ _ _ H) as H2.
    destruct (iStreamCount c1 =? n)%Z eqn:Heq.
    + apply Z.eqb_eq in Heq. inversion Hre. subst w2.
      assert (Hex : exists c', w_client w' = Some c').
      { unfold fill_state, field in H2. rewrite Hc1 in H2.
        destruct (w_client w') as [c'|]; [eauto | discriminate]. }
      destruct Hex as [c' Hc'].
      unfold fill_state, field in H2. rewrite Hc1, Hc' in H2. cbn in H2.
      inversion H2.
      exists c'. split; [exact Hc'|]. split; [congruence|]. split.
      * intros _. repeat split; congruence.
      * intros Hne. congruence.
    + apply Z.eqb_neq in Heq.
      destruct (buffer_fill_realloc_run w1 c1 n Hc1) as [w2' [Hrun Hst]].
      rewrite Hrun in Hre. inversion Hre. subst w2'.
      rewrite Hst in H2.
      assert (Hex : exists c', w_client w' = Some c').
      { unfold fill_state, field in H2.
        destruct (w_client w') as [c'|]; [eauto | discriminate]. }
      destruct Hex as [c' Hc'].
      unfold fill_state, field in H2. rewrite Hc' in H2. cbn in H2.
      inversion H2.
      exists c'. split; [exact Hc'|]. split; [reflexivity|]. split.
      * intros Heq'. congruence.
      * intros _. rewrite <- Hshape, <- Hnext, <- Hfreed. repeat split; assumption.
Qed.

(** A session that holds a stream count of 1 or more does not ask for the
    count again: its buffer fill query is the fill transaction and the parse
    alone, on the array it has; nothing is freed, nothing is allocated. *)
Lemma cached_count_is_final (w : world) (c : lscp_client_t)
    (usage_type : lscp_usage_t) (iSamplerChannel : Z) :
  w_client w = Some c -> (0 <= iSamplerChannel)%Z -> (1 <= iStreamCount c)%Z ->
  lscp_get_channel_buffer_fill PTR usage_type iSamplerChannel w
    = buffer_fill_query PTR
        (match usage_type with
         | LSCP_USAGE_BYTES => "BYTES"
         | LSCP_USAGE_PERCENTAGE => "PERCENTAGE"
         end) iSamplerChannel w /\
  forall ret' w',
    lscp_get_channel_buffer_fill PTR usage_type iSamplerChannel w = Done (ret', w') ->
    fill_state w' = fill_state w.
Proof.
  intros Hc Hch Hn.
  assert (Heq : lscp_get_channel_buffer_fill PTR usage_type iSamplerChannel w
                = buffer_fill_query PTR
                    (match usage_type with
                     | LSCP_USAGE_BYTES => "BYTES"
                     | LSCP_USAGE_PERCENTAGE => "PERCENTAGE"
                     end) iSamplerChannel w).
  { unfold lscp_get_channel_buffer_fill, resolve_stream_count.
    rewrite (bind_run _ _ _ _ _ (load_run _ _ Hc)).
    assert (Hch' : (iSamplerChannel <? 0)%Z = false) by (apply Z.ltb_ge; lia).
    assert (Hn' : (iStreamCount c <? 1)%Z = false) by (apply Z.ltb_ge; lia).
    rewrite Hch'.
    assert (Hres : (c0 <- load PTR ;;
                    (if (iStreamCount c0 <? 1)%Z
                     then lscp_get_channel_stream_count PTR iSamplerChannel
                     else ret (iStreamCount c0))) w = Done (iStreamCount c, w)).
    { rewrite (bind_run _ _ _ _ _ (load_run _ _ Hc)), Hn'. reflexivity. }
    rewrite (bind_run _ _ _ _ _ Hres), Hn'.
    rewrite (bind_run _ _ _ _ _ (load_run _ _ Hc)), Z.eqb_refl. reflexivity. }
  split; [exact Heq|].
  intros ret' w' H. rewrite Heq in H.
  exact (buffer_fill_query_preserves _ _ _ _ _ H).
Qed.

(** ** The session-id once bound *)


Lemma destroy_frees (w w' : world) (r : lscp_status_t) :
  lscp_client_destroy PTR w = Done (r, w') -> w_client w' = None.
Proof.
  intros H. unfold lscp_client_destroy in H.
  do 13 (apply bind_done in H; destruct H as [? [? [_ H]]]).
  apply bind_done in H. destruct H as [u [w2 [Hfree H]]].
  inversion Hfree. inversion H. subst. reflexivity.
Qed.




(** The listener's turns of [subscribe_during_listener] are all that sets it
    apart from [lscp_client_subscribe]. *)
Lemma subscribe_without_listener (w : world) :
  subscribe_during_listener PTR [] w = lscp_client_subscribe PTR w.
Proof.
  unfold subscribe_during_listener, lscp_client_subscribe, bind, load.
  destruct (w_client w) as [c|]; [|reflexivity].
  destruct (sessid c); reflexivity.
Qed.


(** ** The array invariant *)

(** No operation but the buffer fill query and [lscp_client_destroy] touches
    the cached stream count, the array or the allocator. *)
Lemma perform_preserves_fill_state (o : operation) :
  o <> Op_destroy ->
  (forall u ch, o <> Op_get_channel_buffer_fill u ch) ->
  preserves fill_state (perform PTR o).
Proof.
  intros H1 H2.
  destruct o; try congruence; try (exfalso; eapply H2; reflexivity);
    unfold perform, status, void,
      lscp_client_join, lscp_client_set_timeout, lscp_client_get_timeout,
      lscp_client_get_errno, lscp_client_subscribe, subscribe_result,
      lscp_client_unsubscribe, udp_turn,
      lscp_get_available_audio_drivers, lscp_get_available_midi_drivers,
      lscp_get_available_engines, get_available,
      lscp_get_audio_driver_info, lscp_get_midi_driver_info,
      _lscp_driver_info_query, lscp_get_engine_info, lscp_get_channel_info, reparse,
      lscp_load_instrument, lscp_load_engine, lscp_get_channels, lscp_add_channel,
      lscp_remove_channel, lscp_get_channel_voice_count,
      lscp_get_channel_stream_count, query_int,
      lscp_set_channel_audio_type, lscp_set_channel_audio_channel,
      lscp_set_channel_midi_type, lscp_set_channel_midi_port,
      lscp_set_channel_midi_channel, lscp_set_channel_volume, lscp_reset_channel;
    preserves_auto.
Qed.

Lemma fill_wf_of_state (w w' : world) :
  fill_state w' = fill_state w -> fill_wf w -> fill_wf w'.
Proof.
  unfold fill_state, fill_wf, field, array_shape. intros H Hwf.
  destruct (w_client w') as [c'|]; [|exact I].
  destruct (w_client w) as [c|]; [|discriminate].
  cbn in H. inversion H as [[Hn Hshape Hnext Hfreed]].
  destruct (buffer_fill c') as [[b' cells']|], (buffer_fill c) as [[b cells]|];
    cbn in Hshape; try discriminate; inversion Hshape; congruence.
Qed.

(** The client that [lscp_client_create] builds satisfies the invariant, and
    every operation keeps it as long as [malloc] gives the array asked for:
    whenever the buffer fill loop runs, its array then has
    [pClient->iStreamCount] entries. *)
Lemma fill_wf_invariant (o : operation) (w w' : world) (r : option lscp_status_t) :
  (forall n, (1 <= n)%Z -> malloc_fill n = Some (Z.to_nat n)) ->
  fill_wf w -> perform PTR o w = Done (r, w') -> fill_wf w'.
Proof.
  intros Hfull Hwf H.
  destruct o;
    try (refine (fill_wf_of_state _ _ _ Hwf);
         match goal with
         | Hp : perform PTR ?op w = Done _ |- _ =>
             exact (perform_preserves_fill_state op ltac:(discriminate)
                      ltac:(intros; discriminate) _ _ _ Hp)
         end).
  - unfold perform, status in H. apply bind_done in H.
    destruct H as [a [w1 [Hd H]]]. inversion H. subst.
    unfold fill_wf. rewrite (destroy_frees _ _ _ Hd). exact I.
  - unfold perform, void in H. apply bind_done in H.
    destruct H as [a [w1 [Hd H]]]. inversion H. subst. clear H.
    destruct (w_client w) as [c|] eqn:Hc.
    2: { unfold lscp_get_channel_buffer_fill, bind, load in Hd.
         rewrite Hc in Hd. discriminate. }
    destruct (iSamplerChannel <? 0)%Z eqn:Hch.
    { unfold lscp_get_channel_buffer_fill in Hd.
      rewrite (bind_run _ _ _ _ _ (load_run _ _ Hc)), Hch in Hd.
      inversion Hd. subst. exact Hwf. }
    apply Z.ltb_ge in Hch.
    destruct (resolve_stream_count PTR iSamplerChannel w) as [[n w1]|f] eqn:Hres.
    2: { unfold lscp_get_channel_buffer_fill in Hd.
         rewrite (bind_run _ _ _ _ _ (load_run _ _ Hc)) in Hd.
         apply Z.ltb_ge in Hch. rewrite Hch in Hd.
         unfold bind in Hd. rewrite Hres in Hd. discriminate. }
    destruct (buffer_fill_outcome w w1 c usage_type iSamplerChannel n Hc Hch Hres)
      as [Hlow Hhigh].
    destruct (Z.lt_ge_cases n 1) as [Hn|Hn].
    + destruct (Hlow Hn) as [Hrun Hst]. rewrite Hrun in Hd. inversion Hd. subst.
      exact (fill_wf_of_state _ _ Hst Hwf).
    + destruct (Hhigh Hn _ _ Hd) as [c' [Hc' [Hcount [Hsame Hdiff]]]].
      unfold fill_wf in *. rewrite Hc'. rewrite Hc in Hwf.
      destruct (Z.eq_dec n (iStreamCount c)) as [Heq|Hne].
      * destruct (Hsame Heq) as [Hshape _]. unfold array_shape in Hshape.
        destruct (buffer_fill c') as [[b' cells']|], (buffer_fill c) as [[b cells]|];
          cbn in Hshape; try discriminate; inversion Hshape; congruence.
      * destruct (Hdiff Hne) as [Hshape _]. unfold array_shape in Hshape.
        rewrite (Hfull n Hn) in Hshape.
        destruct (buffer_fill c') as [[b' cells']|]; cbn in Hshape; [|discriminate].
        inversion Hshape. lia.
Qed.

Lemma create_fill_wf (cb : option (text -> lscp_status_t)) (setup : option Z)
    (w w' : world) (p : pointer) :
  lscp_client_create cb setup w = Done (p, w') -> fill_wf w -> fill_wf w'.
Proof.
  unfold lscp_client_create. intros H Hwf.
  destruct cb as [f|]; [destruct setup as [port|]|]; inversion H; subst;
    try exact Hwf.
  unfold fill_wf. cbn. reflexivity.
Qed.

(** ** Totality of the bounded loops *)

Lemma strtok_cursor_le (buf : option text) (pszSeps ppch : text) :
  (length (snd (_lscp_strtok buf pszSeps ppch))
   <= length (match buf with Some b => b | None => ppch end))%nat
  \/ snd (_lscp_strtok buf pszSeps ppch) = ppch.
Proof.
  destruct (_lscp_strtok buf pszSeps ppch) as [[tok|] pch'] eqn:T.
  - left. pose proof (strtok_shrinks _ _ _ _ _ T). simpl. lia.
  - right. exact (strtok_none _ _ _ _ T).
Qed.

(** The info parsers never run out of steps: every turn of the loop consumes
    a token. *)
Lemma info_loop_total {I : Type} (field : text -> option (text -> I -> I))
    (fuel : nat) :
  forall (info : I) (tok : option text) (pch : text),
    (tok <> None -> (length pch < fuel)%nat) ->
    exists info', info_loop fuel field info tok pch = Done info'.
Proof.
  induction fuel as [|fuel IH]; intros info tok pch Hfuel.
  - destruct tok as [key|]; cbn [info_loop]; [|eauto].
    assert (length pch < 0)%nat by (apply Hfuel; discriminate). lia.
  - destruct tok as [key|]; cbn [info_loop]; [|eauto].
    assert (Hpch : (length pch < S fuel)%nat) by (apply Hfuel; discriminate).
    destruct (field key) as [set|].
    + destruct (_lscp_strtok None CRLF pch) as [value pch1] eqn:T1.
      assert (Hle : (length pch1 <= length pch)%nat).
      { destruct (strtok_cursor_le None CRLF pch) as [H|H];
          rewrite T1 in H; simpl in H; [lia | subst; lia]. }
      destruct (_lscp_strtok None ":" pch1) as [tok2 pch2] eqn:T2.
      apply IH. intros Hne. destruct tok2 as [t2|]; [|congruence].
      pose proof (strtok_shrinks _ _ _ _ _ T2). simpl in *. lia.
    + destruct (_lscp_strtok None ":" pch) as [tok2 pch2] eqn:T2.
      apply IH. intros Hne. destruct tok2 as [t2|]; [|congruence].
      pose proof (strtok_shrinks _ _ _ _ _ T2). simpl in *. lia.
Qed.

Lemma info_parse_total {I : Type} (field : text -> option (text -> I -> I))
    (init : I) (pszResult : text) :
  exists info, info_parse field init pszResult = Done info.
Proof.
  unfold info_parse.
  destruct (_lscp_strtok (Some pszResult) ":" []) as [tok pch] eqn:T.
  apply info_loop_total. intros Hne. destruct tok as [t|]; [|congruence].
  pose proof (strtok_shrinks _ _ _ _ _ T). simpl in *. lia.
Qed.

Lemma find_sep_bounds (pszSeps s : text) (i p : nat) :
  find_sep pszSeps s i = Some p ->
  (i <= p < i + length s)%nat /\ (1 <= length pszSeps)%nat.
Proof.
  revert i. induction s as [|c s IH]; intros i H; simpl in H; [discriminate|].
  destruct (Ascii.eqb c NUL); [discriminate|].
  destruct (is_sep pszSeps c) eqn:Hc.
  - inversion H. subst. simpl. split; [lia|].
    destruct pszSeps; [discriminate | simpl; lia].
  - destruct (IH _ H) as [Hb Hl]. simpl. split; [lia | exact Hl].
Qed.

Lemma poke_nul_length (b : text) (i : nat) : length (poke_nul b i) = length b.
Proof.
  unfold poke_nul. destruct (i <? length b)%nat eqn:Hi; [|reflexivity].
  apply Nat.ltb_lt in Hi.
  rewrite length_app. cbn [length]. rewrite length_firstn, length_skipn. lia.
Qed.

Lemma trim_back_ge (b : text) (lo e : nat) :
  (lo <= e)%nat -> (lo <= trim_back b lo e)%nat.
Proof.
  induction e as [|e IH]; intros H; simpl; [lia|].
  destruct (isspace (peek b e) && (lo <? S e)%nat)%bool eqn:Hc; [|lia].
  apply andb_true_iff in Hc. destruct Hc as [_ Hlt].
  apply Nat.ltb_lt in Hlt. apply IH. lia.
Qed.

(** Unquoting in place keeps the buffer's size and never moves the cursor
    back. *)
Lemma unquote_in_place (b b' : text) (ppsz psz ppsz' : nat) :
  _lscp_unquote b ppsz false = (b', psz, ppsz') ->
  length b' = length b /\ (ppsz <= ppsz')%nat.
Proof.
  unfold _lscp_unquote, skip_space.
  cbv beta zeta iota.
  remember (ppsz + span_len isspace (skipn ppsz b))%nat as p1 eqn:Ep1.
  destruct (is_quote (peek b p1));
    [|intros H; injection H as Hb _ He; subst b' ppsz'; split; lia].
  remember (S p1 + span_len isspace (skipn (S p1) b))%nat as p2 eqn:Ep2.
  remember (p2 + span_len _ (skipn p2 b))%nat as e eqn:Ee.
  assert (Hp2 : (ppsz < p2)%nat) by lia.
  assert (He2 : (p2 <= e)%nat) by lia.
  clear Ep1 Ep2 Ee.
  destruct (Ascii.eqb (peek b e) NUL); intros H; injection H as Hb _ He;
    subst b' ppsz'.
  - split; [reflexivity | lia].
  - split; [apply poke_nul_length|].
    pose proof (trim_back_ge b p2 e He2). lia.
Qed.

(** The loop of [_lscp_szsplit_create] is through before its bound is
    reached: a larger bound gives the same split. *)
Lemma szsplit_loop_fuel (fuel : nat) :
  forall (fuel' : nat) (pszSeps b : text) (pszHead : nat) (items : list nat),
    (length b - pszHead < fuel)%nat -> (fuel <= fuel')%nat ->
    szsplit_loop fuel pszSeps b pszHead items
    = szsplit_loop fuel' pszSeps b pszHead items.
Proof.
  induction fuel as [|fuel IH]; intros fuel' pszSeps b pszHead items Hlt Hle; [lia|].
  destruct fuel' as [|fuel']; [lia|]. cbn [szsplit_loop].
  destruct (strpbrk_at b pszHead pszSeps) as [pch|] eqn:Hp; [|reflexivity].
  unfold strpbrk_at in Hp. apply find_sep_bounds in Hp. destruct Hp as [Hb Hs].
  rewrite length_skipn in Hb.
  destruct (_lscp_unquote (poke_nul b (trim_back b 0 pch)) (pch + length pszSeps) false)
    as [[b2 item] head2] eqn:Hu.
  apply unquote_in_place in Hu. destruct Hu as [Hlen Hhead].
  rewrite poke_nul_length in Hlen.
  apply IH; lia.
Qed.

Lemma szsplit_fuel_enough (fuel' : nat) (pszSeps b : text) (pszHead : nat)
    (items : list nat) :
  (S (length b) <= fuel')%nat ->
  szsplit_loop (S (length b)) pszSeps b pszHead items
  = szsplit_loop fuel' pszSeps b pszHead items.
Proof. intros H. apply szsplit_loop_fuel; lia. Qed.

(** ** The tokenizer on arbitrary input *)

Lemma skip_seps_split (pszSeps s : text) :
  exists lead, s = lead ++ skip_seps pszSeps s /\ sep_only pszSeps lead = true.
Proof.
  induction s as [|c s [lead [Hs Hl]]]; simpl.
  - exists []. split; reflexivity.
  - destruct (is_sep pszSeps c) eqn:Hc.
    + exists (c :: lead). split; [simpl; congruence|].
      simpl. rewrite Hc. exact Hl.
    + exists []. split; reflexivity.
Qed.

Lemma skip_seps_fixed (pszSeps s : text) :
  skip_seps pszSeps (skip_seps pszSeps s) = skip_seps pszSeps s.
Proof.
  induction s as [|c s IH]; simpl; [reflexivity|].
  destruct (is_sep pszSeps c) eqn:Hc; [exact IH|].
  simpl. rewrite Hc. reflexivity.
Qed.

Lemma strpbrk_split (pszSeps s tok : text) (after : option text) :
  strpbrk pszSeps s = (tok, after) ->
  sep_free pszSeps tok = true /\
  match after with
  | None => s = tok
  | Some r => exists c, is_sep pszSeps c = true /\ s = tok ++ c :: r
  end.
Proof.
  revert tok after. induction s as [|c s IH]; simpl; intros tok after H.
  - inversion H. subst. split; reflexivity.
  - destruct (is_sep pszSeps c) eqn:Hc.
    + inversion H. subst. split; [reflexivity|]. exists c. split; [exact Hc|reflexivity].
    + destruct (strpbrk pszSeps s) as [tok' after'] eqn:Hs.
      inversion H. subst. destruct (IH _ _ eq_refl) as [Hf Ha].
      split; [simpl; rewrite Hc; exact Hf|].
      destruct after as [r|].
      * destruct Ha as [c' [Hc' Hs']]. exists c'. split; [exact Hc'|].
        simpl. congruence.
      * simpl. congruence.
Qed.

(** X1: every token [_lscp_strtok] returns is cut out of the scanned text as
    follows: the text is a run of separators, then the token, which is not
    empty and holds no separator, then either nothing (and the cursor is left
    at the end) or a separator and a remainder (and the cursor is left in the
    remainder, past any further separators). *)
Theorem strtok_token_shape (buf : option text) (pszSeps ppch tok pch' : text) :
  _lscp_strtok buf pszSeps ppch = (Some tok, pch') ->
  exists lead rest,
    match buf with Some b => b | None => ppch end = lead ++ tok ++ rest /\
    sep_only pszSeps lead = true /\
    tok <> [] /\ sep_free pszSeps tok = true /\
    skip_seps pszSeps pch' = pch' /\
    (rest = [] /\ pch' = [] \/
     exists c r, rest = c :: r /\ is_sep pszSeps c = true /\
                 pch' = skip_seps pszSeps r).
Proof.
  unfold _lscp_strtok.
  set (s := match buf with Some b => b | None => ppch end).
  destruct (skip_seps_split pszSeps s) as [lead [Hs Hlead]].
  pose proof (skip_seps_fixed pszSeps s) as Hfix.
  destruct (skip_seps pszSeps s) as [|x s'] eqn:Hskip; [discriminate|].
  assert (Hx : is_sep pszSeps x = false).
  { simpl in Hfix. destruct (is_sep pszSeps x); [|reflexivity].
    exfalso. pose proof (skip_seps_length pszSeps s') as Hl.
    rewrite Hfix in Hl. simpl in Hl. lia. }
  destruct (strpbrk pszSeps (x :: s')) as [t after] eqn:Hb.
  destruct (strpbrk_split _ _ _ _ Hb) as [Hfree Hafter].
  assert (Hne : t <> []).
  { intros ->. simpl in Hb. rewrite Hx in Hb.
    destruct (strpbrk pszSeps s'); discriminate. }
  destruct after as [r|]; intros H; inversion H; subst tok pch'.
  - destruct Hafter as [c [Hc Hform]].
    exists lead, (c :: r). rewrite Hs, Hform.
    repeat split; try assumption; [apply skip_seps_fixed|].
    right. exists c, r. repeat split. exact Hc.
  - exists lead, []. rewrite Hs, Hafter, app_nil_r.
    repeat split; try assumption. left. split; reflexivity.
Qed.

(** X2: [_lscp_strtok] returns NULL exactly when the text it scans holds
    nothing but separators (the empty text included), and it then leaves the
    cursor where it was. *)
Theorem strtok_null_iff_only_separators (buf : option text) (pszSeps ppch : text) :
  (sep_only pszSeps (match buf with Some b => b | None => ppch end) = true <->
   fst (_lscp_strtok buf pszSeps ppch) = None) /\
  (fst (_lscp_strtok buf pszSeps ppch) = None ->
   snd (_lscp_strtok buf pszSeps ppch) = ppch).
Proof.
  set (s := match buf with Some b => b | None => ppch end).
  assert (Hiff : sep_only pszSeps s = true <-> skip_seps pszSeps s = []).
  { clearbody s. induction s as [|c s IH]; simpl; [split; reflexivity|].
    destruct (is_sep pszSeps c); simpl; [exact IH|]. split; discriminate. }
  unfold _lscp_strtok. fold s. split.
  - rewrite Hiff. destruct (skip_seps pszSeps s) as [|x s'] eqn:Hskip.
    + split; reflexivity.
    + destruct (strpbrk pszSeps (x :: s')) as [t [r|]]; split; discriminate.
  - destruct (skip_seps pszSeps s) as [|x s'] eqn:Hskip; [reflexivity|].
    destruct (strpbrk pszSeps (x :: s')) as [t [r|]]; discriminate.
Qed.

(** X3: [_lscp_ltrim] removes a prefix of white space and nothing else: the
    text is that prefix followed by the result, and the result does not start
    with white space. *)
Theorem ltrim_removes_leading_space (psz : text) :
  exists pre,
    psz = pre ++ _lscp_ltrim psz /\ all_space pre = true /\
    isspace (hd NUL (_lscp_ltrim psz)) = false.
Proof.
  induction psz as [|c s [pre [Hs [Hp Hh]]]]; simpl.
  - exists []. repeat split.
  - destruct (isspace c) eqn:Hc.
    + exists (c :: pre). simpl. rewrite Hc. repeat split; [congruence|assumption..].
    + exists []. repeat split. exact Hc.
Qed.

(** ** The transaction engine on arbitrary input *)

(** X4: for a timeout that is not negative, the [timeval] handed to [select]
    amounts to the timeout exactly (seconds and microseconds add up to
    [iTimeout] milliseconds), and its microseconds stay below a million except
    for a timeout of exactly 1000 ms, which is passed as 0 s and 1000000
    microseconds. *)
Theorem select_timeval_amount (iTimeout : Z) :
  (0 <= iTimeout)%Z ->
  (fst (select_timeval iTimeout) * 1000000 + snd (select_timeval iTimeout)
     = iTimeout * 1000 /\
   0 <= fst (select_timeval iTimeout) /\
   0 <= snd (select_timeval iTimeout) <= 1000000 /\
   (snd (select_timeval iTimeout) = 1000000 <-> iTimeout = 1000))%Z.
Proof.
  intros H. unfold select_timeval.
  destruct (1000 <? iTimeout)%Z eqn:Hc; cbn [fst snd].
  - apply Z.ltb_lt in Hc.
    pose proof (Z.quot_rem' iTimeout 1000) as Hqr.
    pose proof (Z.rem_bound_pos iTimeout 1000 H ltac:(lia)) as Hr.
    pose proof (Z.quot_pos iTimeout 1000 H ltac:(lia)) as Hq.
    repeat split; try lia.
  - apply Z.ltb_ge in Hc. repeat split; lia.
Qed.

(** X5: [lscp_client_call] rejects a NULL or empty request and a NULL or
    empty receive buffer before anything is sent: it returns LSCP_FAILED and
    the world, the server included, is as before. *)
Theorem call_rejects_bad_arguments (pClient : pointer) (pchBuffer : option text)
    (cchBuffer : Z) (pchResult : option Z) (w : world) :
  pchBuffer = None \/ (cchBuffer < 1)%Z \/ pchResult = None \/
    (exists cap, pchResult = Some cap /\ (cap < 1)%Z) ->
  lscp_client_call pClient pchBuffer cchBuffer pchResult w
    = Done ((LSCP_FAILED, []), w).
Proof.
  intros H. unfold lscp_client_call. destruct pClient; [reflexivity|].
  destruct pchBuffer as [buf|]; [|reflexivity].
  destruct pchResult as [cap|]; [|reflexivity].
  destruct (cchBuffer <? 1)%Z eqn:Hn; [reflexivity|].
  destruct (cap <? 1)%Z eqn:Hcap; [reflexivity|].
  apply Z.ltb_ge in Hn. apply Z.ltb_ge in Hcap.
  destruct H as [H|[H|[H|[cap' [H H']]]]]; try discriminate; try lia.
  inversion H. lia.
Qed.

(** X6: whenever [lscp_client_call] returns, the client structure and the
    allocator are as before (only the server has moved on); the status is
    LSCP_OK, LSCP_FAILED or LSCP_TIMEOUT, never LSCP_ERROR or LSCP_WARNING;
    bytes are handed back only with LSCP_OK, and then at least one and no
    more than the capacity of the receive buffer. *)
Theorem call_result_shape (pClient : pointer) (pchBuffer : option text)
    (cchBuffer : Z) (pchResult : option Z) (w w' : world)
    (st : lscp_status_t) (got : text) :
  lscp_client_call pClient pchBuffer cchBuffer pchResult w = Done ((st, got), w') ->
  w' = with_server (w_server w') w /\
  (st = LSCP_OK \/ st = LSCP_FAILED \/ st = LSCP_TIMEOUT) /\
  (st <> LSCP_OK -> got = []) /\
  (st = LSCP_OK ->
   got <> [] /\
   exists cap, pchResult = Some cap /\ (Z.of_nat (length got) <= cap)%Z).
Proof.
  assert (Hid : forall v : world, v = with_server (w_server v) v)
    by (intros []; reflexivity).
  unfold lscp_client_call. intros H.
  assert (Hfail : Done ((LSCP_FAILED, @nil ascii), w) = Done ((st, got), w') ->
    w' = with_server (w_server w') w /\
    (st = LSCP_OK \/ st = LSCP_FAILED \/ st = LSCP_TIMEOUT) /\
    (st <> LSCP_OK -> got = []) /\
    (st = LSCP_OK ->
     got <> [] /\
     exists cap, pchResult = Some cap /\ (Z.of_nat (length got) <= cap)%Z)).
  { intros H0. inversion H0. subst. repeat split; auto; discriminate. }
  destruct pClient; [exact (Hfail H)|].
  destruct pchBuffer as [buf|]; [|exact (Hfail H)].
  destruct pchResult as [cap|]; [|exact (Hfail H)].
  destruct (cchBuffer <? 1)%Z; [exact (Hfail H)|].
  destruct (cap <? 1)%Z eqn:Hcap; [exact (Hfail H)|].
  apply Z.ltb_ge in Hcap. clear Hfail.
  unfold bind, load, transact in H.
  destruct (w_client w) as [c|]; [|discriminate].
  destruct (serve (w_server w) (firstn (Z.to_nat cchBuffer) buf)
              (select_timeval (iTimeout c))) as [ev s].
  destruct ev as [| | |bytes].
  1-3: inversion H; subst; repeat split; auto; discriminate.
  destruct (firstn (Z.to_nat cap) bytes) as [|x got'] eqn:Hgot;
    inversion H; subst.
  - repeat split; auto; discriminate.
  - split; [reflexivity|]. split; [auto|]. split; [congruence|].
    intros _. split; [discriminate|].
    exists cap. split; [reflexivity|].
    rewrite <- Hgot, length_firstn. lia.
Qed.

(** X7: [lscp_client_set_timeout] followed by [lscp_client_get_timeout] gives
    the timeout back when it is not negative, with no other field of the
    client changed; a negative timeout is refused and the session is as
    before. *)
Theorem timeout_set_then_get (w : world) (c : lscp_client_t) (msecs : Z) :
  w_client w = Some c ->
  ((0 <= msecs)%Z ->
   lscp_client_set_timeout PTR msecs w
     = Done (LSCP_OK, with_client (with_iTimeout msecs c) w) /\
   lscp_client_get_timeout PTR (with_client (with_iTimeout msecs c) w)
     = Done (msecs, with_client (with_iTimeout msecs c) w)) /\
  ((msecs < 0)%Z ->
   lscp_client_set_timeout PTR msecs w = Done (LSCP_FAILED, w) /\
   lscp_client_get_timeout PTR w = Done (iTimeout c, w)).
Proof.
  intros Hc. unfold lscp_client_set_timeout, lscp_client_get_timeout. split; intros Ht.
  - assert (Hn : (msecs <? 0)%Z = false) by (apply Z.ltb_ge; lia).
    rewrite Hn. unfold bind, store, load, ret. rewrite Hc. split; reflexivity.
  - assert (Hn : (msecs <? 0)%Z = true) by (apply Z.ltb_lt; lia).
    rewrite Hn. unfold bind, load, ret. rewrite Hc. split; reflexivity.
Qed.

(** ** Queries on arbitrary answers *)

Lemma ltrim_hd_not_space (s : text) : isspace (hd NUL (_lscp_ltrim s)) = false.
Proof.
  induction s as [|c s IH]; simpl; [reflexivity|].
  destruct (isspace c) eqn:Hc; [exact IH | exact Hc].
Qed.

Lemma set_result_done (r : option text) (e : Z) (w w' : world) (u : unit) :
  _lscp_client_set_result PTR r e w = Done (u, w') ->
  exists c, w_client w = Some c /\ w' = with_client (with_result r e c) w.
Proof.
  destruct (w_client w) as [c|] eqn:Hc.
  - rewrite (set_result_run r e w c Hc). intros H. inversion H. eauto.
  - unfold _lscp_client_set_result, bind, store. rewrite Hc. discriminate.
Qed.

(** What a query that returned has done: the call, then the result record
    set from the classification of what was received. *)
Lemma query_done (q : text) (w w' : world) (st : lscp_status_t) :
  lscp_client_query PTR q w = Done (st, w') ->
  exists st0 got w1 c1 res err,
    lscp_client_call PTR (Some q) (Z.of_nat (length q))
      (Some (Z.of_nat LSCP_BUFSIZ)) w = Done ((st0, got), w1) /\
    w_client w1 = Some c1 /\
    w' = with_client (with_result res err c1) w1 /\
    match st0 with
    | LSCP_OK =>
        (length (rstrip_crlf got) < LSCP_BUFSIZ)%nat /\
        classify (cstr (rstrip_crlf got)) = (st, res, err)
    | LSCP_TIMEOUT => st = LSCP_TIMEOUT /\ res = Some timeout_message /\ err = (-1)%Z
    | _ => st = st0 /\ res = None /\ err = (-1)%Z
    end.
Proof.
  unfold lscp_client_query. intros H.
  apply bind_done in H. destruct H as [[st0 got] [w1 [Hcall H]]].
  exists st0, got, w1.
  destruct st0.
  - destruct (LSCP_BUFSIZ <=? length (rstrip_crlf got))%nat eqn:Hlen; [discriminate|].
    apply Nat.leb_gt in Hlen.
    destruct (classify (cstr (rstrip_crlf got))) as [[st1 res] err] eqn:Hcl.
    apply bind_done in H. destruct H as [u [w2 [Hset H]]].
    inversion H. subst.
    destruct (set_result_done _ _ _ _ _ Hset) as [c1 [Hc1 Hw]].
    exists c1, res, err. repeat split; assumption.
  - apply bind_done in H. destruct H as [u [w2 [Hset H]]]. inversion H. subst.
    destruct (set_result_done _ _ _ _ _ Hset) as [c1 [Hc1 Hw]].
    exists c1, None, (-1)%Z. repeat split; assumption.
  - apply bind_done in H. destruct H as [u [w2 [Hset H]]]. inversion H. subst.
    destruct (set_result_done _ _ _ _ _ Hset) as [c1 [Hc1 Hw]].
    exists c1, None, (-1)%Z. repeat split; assumption.
  - apply bind_done in H. destruct H as [u [w2 [Hset H]]]. inversion H. subst.
    destruct (set_result_done _ _ _ _ _ Hset) as [c1 [Hc1 Hw]].
    exists c1, None, (-1)%Z. repeat split; assumption.
  - apply bind_done in H. destruct H as [u [w2 [Hset H]]]. inversion H. subst.
    destruct (set_result_done _ _ _ _ _ Hset) as [c1 [Hc1 Hw]].
    exists c1, (Some timeout_message), (-1)%Z. repeat split; assumption.
Qed.

(** The classification never answers FAILED or TIMEOUT, and answers OK only
    with error code 0. *)
Lemma classify_status (t : text) :
  (fst (fst (classify t)) = LSCP_OK /\ snd (classify t) = 0%Z) \/
  fst (fst (classify t)) = LSCP_ERROR \/
  fst (fst (classify t)) = LSCP_WARNING.
Proof.
  unfold classify.
  destruct (strncaseeq 4 t "ERR:").
  - right. left.
    destruct (_lscp_strtok (Some t) ":[]" []) as [[tok|] pch]; [|reflexivity].
    destruct (_lscp_strtok None ":[]" pch) as [[code|] pch']; reflexivity.
  - destruct (strncaseeq 4 t "WRN:").
    + right. right.
      destruct (_lscp_strtok (Some t) ":[]" []) as [[tok|] pch]; [|reflexivity].
      destruct (_lscp_strtok None ":[]" pch) as [[code|] pch']; reflexivity.
    + left. destruct (strncaseeq 3 t "OK["); [|split; reflexivity].
      destruct (_lscp_strtok (Some t) ":[]" []) as [[tok|] pch]; split; reflexivity.
Qed.

(** X8: what the result record says after [lscp_client_query] returned, by the
    status returned.  LSCP_OK: the error code is 0.  LSCP_FAILED: the error
    code is -1 and there is no result text.  LSCP_TIMEOUT: the error code is
    -1 and the result text is the timeout message.  In every case the result
    text, when there is one, does not start with white space, and no field of
    the client other than the result text and the error code has changed. *)
Theorem query_result_record (pszQuery : text) (w w' : world) (st : lscp_status_t) :
  lscp_client_query PTR pszQuery w = Done (st, w') ->
  exists c c',
    w_client w = Some c /\ w_client w' = Some c' /\
    c' = with_pszResult (pszResult c') (with_iErrno (iErrno c') c) /\
    (st = LSCP_OK -> iErrno c' = 0%Z) /\
    (st = LSCP_FAILED -> iErrno c' = (-1)%Z /\ pszResult c' = None) /\
    (st = LSCP_TIMEOUT ->
       iErrno c' = (-1)%Z /\ pszResult c' = Some timeout_message) /\
    (forall r, pszResult c' = Some r -> isspace (hd NUL r) = false).
Proof.
  intros H.
  destruct (query_done _ _ _ _ H) as [st0 [got [w1 [c1 [res [err [Hcall [Hc1 [Hw Hst]]]]]]]]].
  assert (Hc : w_client w = Some c1).
  { rewrite <- Hc1. symmetry.
    refine (preserves_call w_client PTR _ _ _ _ _ _ _ Hcall). intros ? ?. reflexivity. }
  exists c1, (with_result res err c1). subst w'.
  split; [exact Hc|]. split; [reflexivity|]. split; [reflexivity|].
  assert (Htrim : forall r, pszResult (with_result res err c1) = Some r ->
                            isspace (hd NUL r) = false).
  { intros r Hr. cbn in Hr. destruct res as [t|]; [|discriminate].
    inversion Hr. apply ltrim_hd_not_space. }
  destruct st0.
  - destruct Hst as [_ Hcl].
    pose proof (classify_status (cstr (rstrip_crlf got))) as Hs.
    rewrite Hcl in Hs. cbn in Hs.
    split; [|split; [|split; [|exact Htrim]]]; intros Hst; subst st;
      destruct Hs as [[Hs He]|[Hs|Hs]]; try discriminate; cbn; assumption.
  - destruct Hst as [-> [-> ->]].
    split; [|split; [|split; [|exact Htrim]]]; intros Hst; try discriminate.
    split; reflexivity.
  - destruct Hst as [-> [-> ->]].
    split; [|split; [|split; [|exact Htrim]]]; intros Hst; discriminate.
  - destruct Hst as [-> [-> ->]].
    split; [|split; [|split; [|exact Htrim]]]; intros Hst; discriminate.
  - destruct Hst as [-> [-> ->]].
    split; [|split; [|split; [|exact Htrim]]]; intros Hst; try discriminate.
    split; reflexivity.
Qed.

Lemma strncaseeq_wrn_not_err (t : text) :
  strncaseeq 4 t "WRN:" = true -> strncaseeq 4 t "ERR:" = false.
Proof.
  destruct t as [|x t]; [discriminate|].
  change (strncaseeq 4 (x :: t) "WRN:")
    with (Ascii.eqb (tolower x) "w" && strncaseeq 3 t "RN:").
  change (strncaseeq 4 (x :: t) "ERR:")
    with (Ascii.eqb (tolower x) "e" && strncaseeq 3 t "RR:").
  intros H. apply andb_true_iff in H. destruct H as [H _].
  apply Ascii.eqb_eq in H. rewrite H. reflexivity.
Qed.

(** A response that starts with [WRN:] is classified as a warning. *)
Lemma classify_warning_status (t : text) :
  strncaseeq 4 t "WRN:" = true -> fst (fst (classify t)) = LSCP_WARNING.
Proof.
  intros H. unfold classify. rewrite (strncaseeq_wrn_not_err t H), H.
  destruct (_lscp_strtok (Some t) ":[]" []) as [[tok|] pch]; [|reflexivity].
  destruct (_lscp_strtok None ":[]" pch) as [[code|] pch']; reflexivity.
Qed.

(** [WRN:<code>:<message>] with a code and a message free of [:], [[] and
    []]. *)
Lemma classify_warning (code msg : text) :
  code <> [] -> sep_free ":[]" code = true ->
  msg <> [] -> sep_free ":[]" msg = true ->
  classify ("WRN:" ++ code ++ ":" ++ msg) = (LSCP_WARNING, Some msg, atoi code).
Proof.
  intros Hc Hcf Hm Hmf. unfold classify.
  change (strncaseeq 4 ("WRN:" ++ code ++ ":" ++ msg) "ERR:") with false.
  change (strncaseeq 4 ("WRN:" ++ code ++ ":" ++ msg) "WRN:") with true. cbv iota.
  rewrite (strtok_token ":[]" "WRN" ":" (code ++ ":" ++ msg) []
             (Some ("WRN:" ++ code ++ ":" ++ msg)));
    [|discriminate|reflexivity|reflexivity|reflexivity].
  rewrite (skip_seps_token _ _ _ Hc Hcf).
  rewrite (strtok_token ":[]" code ":" msg (code ++ ":" ++ msg) None Hc Hcf);
    [|reflexivity|reflexivity].
  rewrite <- (app_nil_r msg) at 1. rewrite (skip_seps_token _ _ _ Hm Hmf), app_nil_r.
  rewrite (strtok_last ":[]" msg msg None Hm Hmf); reflexivity.
Qed.

(** X9: a response that starts with [WRN:] (in any letter case) makes
    [lscp_client_query] return LSCP_WARNING, not LSCP_OK.  When it reads
    [WRN:<code>:<message>], code and message not empty and free of [:], [[]
    and []], the error code becomes [atoi] of the code and the result text the
    message without its leading white space. *)
Theorem warning_response (w w1 : world) (pszQuery got : text) :
  lscp_client_call PTR (Some pszQuery) (Z.of_nat (length pszQuery))
    (Some (Z.of_nat LSCP_BUFSIZ)) w = Done ((LSCP_OK, got), w1) ->
  (length (rstrip_crlf got) < LSCP_BUFSIZ)%nat ->
  strncaseeq 4 (cstr (rstrip_crlf got)) "WRN:" = true ->
  exists c1 c2,
    w_client w1 = Some c1 /\
    lscp_client_query PTR pszQuery w = Done (LSCP_WARNING, with_client c2 w1) /\
    (forall code msg : text,
        cstr (rstrip_crlf got) = "WRN:" ++ code ++ ":" ++ msg ->
        code <> [] -> sep_free ":[]" code = true ->
        msg <> [] -> sep_free ":[]" msg = true ->
        iErrno c2 = atoi code /\
        pszResult c2 = Some (_lscp_ltrim msg)).
Proof.
  intros Hcall Hlen Hwrn.
  destruct (call_done _ _ _ _ _ _ _ Hcall) as [c [_ Hc1]]; [discriminate|].
  pose proof (query_received _ _ _ _ _ Hcall Hc1 Hlen) as Hq.
  pose proof (classify_warning_status _ Hwrn) as Hst.
  destruct (classify (cstr (rstrip_crlf got))) as [[st res] err] eqn:Hcl.
  simpl in Hst. subst st.
  exists c, (with_result res err c). split; [exact Hc1|]. split; [exact Hq|].
  intros code msg Hform Hc Hcf Hm Hmf.
  rewrite Hform, (classify_warning _ _ Hc Hcf Hm Hmf) in Hcl.
  inversion Hcl. subst. split; reflexivity.
Qed.

(** The call made by [lscp_client_query] for a query that is not empty, on a
    live session with a receive buffer of at least one byte. *)
Lemma call_run (w : world) (c : lscp_client_t) (q : text) (ev : tcp_event)
    (s : Server) :
  w_client w = Some c -> q <> [] -> (0 < LSCP_BUFSIZ)%nat ->
  serve (w_server w) q (select_timeval (iTimeout c)) = (ev, s) ->
  lscp_client_call PTR (Some q) (Z.of_nat (length q)) (Some (Z.of_nat LSCP_BUFSIZ)) w
    = Done (match ev with
            | SendShort | SelectError => (LSCP_FAILED, [])
            | SelectTimeout => (LSCP_TIMEOUT, [])
            | Recv bytes =>
                match firstn LSCP_BUFSIZ bytes with
                | [] => (LSCP_FAILED, [])
                | got => (LSCP_OK, got)
                end
            end, with_server s w).
Proof.
  intros Hc Hq Hbuf Hserve. unfold lscp_client_call.
  assert (Hn : (Z.of_nat (length q) <? 1)%Z = false).
  { apply Z.ltb_ge. destruct q; [congruence|]. cbn [length]. lia. }
  assert (Hcap : (Z.of_nat LSCP_BUFSIZ <? 1)%Z = false) by (apply Z.ltb_ge; lia).
  rewrite Hn, Hcap. unfold bind, load, transact. rewrite Hc.
  rewrite !Nat2Z.id, firstn_all, Hserve.
  destruct ev as [| | |bytes]; try reflexivity.
  destruct (firstn LSCP_BUFSIZ bytes); reflexivity.
Qed.

(** ** Registration on arbitrary answers *)

Lemma rstrip_crlf_app (s t : text) :
  crlf_only t = true -> rstrip_crlf (s ++ t) = rstrip_crlf s.
Proof.
  intros Ht.
  assert (Hnil : rstrip_crlf t = []).
  { induction t as [|c t IH]; [reflexivity|].
    simpl in Ht. apply andb_true_iff in Ht. destruct Ht as [Hc Ht].
    simpl. rewrite (IH Ht), Hc. reflexivity. }
  induction s as [|c s IH]; simpl; [exact Hnil|].
  rewrite IH. reflexivity.
Qed.

Lemma rstrip_crlf_keep (s : text) (c : ascii) :
  Ascii.eqb c LF || Ascii.eqb c CR = false -> rstrip_crlf (s ++ [c]) = s ++ [c].
Proof.
  intros Hc. induction s as [|x s IH]; simpl.
  - rewrite Hc. reflexivity.
  - rewrite IH. destruct (s ++ [c]) eqn:Hs; [|reflexivity].
    destruct s; discriminate.
Qed.

Lemma firstn_snoc {A : Type} (d : A) (k : nat) :
  forall l : list A, (k < length l)%nat -> firstn (S k) l = firstn k l ++ [nth k l d].
Proof.
  induction k as [|k IH]; intros [|x l] H; simpl in H; try lia; [reflexivity|].
  cbn [firstn nth app]. f_equal. apply IH. lia.
Qed.

(** X10: when the server sends as many bytes as the receive array of
    [lscp_client_query] holds ([LSCP_BUFSIZ]) or more, and the last byte of
    the array is neither CR nor LF, the terminating NUL is written one byte
    past the array. *)
Theorem query_overruns_full_buffer (w : world) (c : lscp_client_t)
    (pszQuery bytes : text) (s : Server) :
  w_client w = Some c -> pszQuery <> [] ->
  serve (w_server w) pszQuery (select_timeval (iTimeout c)) = (Recv bytes, s) ->
  (0 < LSCP_BUFSIZ <= length bytes)%nat ->
  crlf_only [nth (LSCP_BUFSIZ - 1) bytes NUL] = false ->
  lscp_client_query PTR pszQuery w = Fault OutOfBounds.
Proof.
  intros Hc Hq Hserve [Hbuf Hlen] Hlast. unfold lscp_client_query.
  rewrite (bind_run _ _ _ _ _ (call_run w c pszQuery _ s Hc Hq Hbuf Hserve)).
  assert (Hgot : firstn LSCP_BUFSIZ bytes
                 = firstn (LSCP_BUFSIZ - 1) bytes ++ [nth (LSCP_BUFSIZ - 1) bytes NUL]).
  { replace LSCP_BUFSIZ with (S (LSCP_BUFSIZ - 1)) at 1 by lia.
    apply firstn_snoc. lia. }
  assert (Hkeep : rstrip_crlf (firstn LSCP_BUFSIZ bytes) = firstn LSCP_BUFSIZ bytes).
  { rewrite Hgot. apply rstrip_crlf_keep.
    unfold crlf_only in Hlast. cbn [forallb] in Hlast.
    rewrite andb_true_r in Hlast. exact Hlast. }
  assert (Hfull : (LSCP_BUFSIZ <=? length (rstrip_crlf (firstn LSCP_BUFSIZ bytes)))%nat
                  = true).
  { apply Nat.leb_le. rewrite Hkeep, length_firstn. lia. }
  destruct (firstn LSCP_BUFSIZ bytes) as [|x got] eqn:Hfirst.
  { destruct (firstn (LSCP_BUFSIZ - 1) bytes); discriminate. }
  cbv iota beta. rewrite Hfull. reflexivity.
Qed.

Lemma sep_free_ltrim (pszSeps s : text) :
  sep_free pszSeps s = true -> sep_free pszSeps (_lscp_ltrim s) = true.
Proof.
  induction s as [|c s IH]; simpl; [reflexivity|].
  intros H. destruct (isspace c); [|exact H].
  apply andb_true_iff in H. destruct H as [_ H]. exact (IH H).
Qed.

Lemma sep_free_weaken (seps seps' s : text) :
  (forall c, is_sep seps' c = true -> is_sep seps c = true) ->
  sep_free seps s = true -> sep_free seps' s = true.
Proof.
  intros Hsub. unfold sep_free. rewrite !forallb_forall. intros H c Hc.
  specialize (H c Hc). apply negb_true_iff in H. apply negb_true_iff.
  destruct (is_sep seps' c) eqn:Hs; [|reflexivity].
  rewrite (Hsub c Hs) in H. discriminate.
Qed.

(** The record after a query that was answered [OK[<id>]]. *)
Lemma query_bracketed_answer (w : world) (c : lscp_client_t) (q id : text) (s : Server) :
  w_client w = Some c -> q <> [] ->
  serve (w_server w) q (select_timeval (iTimeout c))
    = (Recv ("OK[" ++ id ++ "]" ++ CRLF), s) ->
  (length ("OK[" ++ id ++ "]" ++ CRLF) <= LSCP_BUFSIZ)%nat ->
  id <> [] -> sep_free ":[]" id = true -> nul_free id = true ->
  lscp_client_query PTR q w
    = Done (LSCP_OK, with_client (with_result (Some id) 0%Z c) (with_server s w)).
Proof.
  intros Hc Hq Hserve Hlen Hid Hfree Hnul.
  assert (Hbuf : (0 < LSCP_BUFSIZ)%nat)
    by (rewrite !length_app in Hlen; simpl in Hlen; lia).
  pose proof (call_run w c q _ s Hc Hq Hbuf Hserve) as Hcall.
  cbv iota beta in Hcall. rewrite (firstn_all2 _ Hlen) in Hcall.
  change ("OK[" ++ id ++ "]" ++ CRLF) with ("O"%char :: ("K[" ++ id ++ "]" ++ CRLF)) in Hcall.
  cbv iota in Hcall.
  change ("O"%char :: ("K[" ++ id ++ "]" ++ CRLF)) with ("OK[" ++ id ++ "]" ++ CRLF) in Hcall.
  assert (Hstrip : rstrip_crlf ("OK[" ++ id ++ "]" ++ CRLF) = "OK[" ++ id ++ "]").
  { replace ("OK[" ++ id ++ "]" ++ CRLF) with ((("OK[" ++ id) ++ ["]"%char]) ++ CRLF)
      by (rewrite <- !app_assoc; reflexivity).
    rewrite (rstrip_crlf_app _ CRLF eq_refl).
    rewrite (rstrip_crlf_keep ("OK[" ++ id) "]" eq_refl).
    rewrite <- app_assoc. reflexivity. }
  rewrite (query_received w (with_server s w) q _ c Hcall Hc).
  - rewrite Hstrip.
    assert (Hn : nul_free ("OK[" ++ id ++ "]") = true).
    { apply nul_free_app; [reflexivity|]. apply nul_free_app; [exact Hnul|reflexivity]. }
    rewrite (cstr_nul_free _ Hn).
    rewrite <- (app_nil_r ("OK[" ++ id ++ "]")), <- !app_assoc.
    rewrite (classify_ok_bracket id [] Hid Hfree). reflexivity.
  - rewrite Hstrip. rewrite !length_app in Hlen |- *. simpl in Hlen |- *. lia.
Qed.

(** X11: the answer [OK[<id>]] to a subscription does not bind the
    session-id.  [lscp_client_query] stores the bracketed id alone as the
    result text, so the test of [lscp_client_subscribe] for a first token
    [OK] in that text fails (and finds no second token when the id itself
    reads [OK]): the function returns LSCP_OK with no session-id bound. *)
Theorem subscribe_bracketed_id_not_bound (w : world) (c : lscp_client_t)
    (id : text) (s : Server) :
  w_client w = Some c -> sessid c = None ->
  serve (w_server w) ("SUBSCRIBE NOTIFICATION " ++ fmt_d (udp_port c) ++ CRLF)
        (select_timeval (iTimeout c))
    = (Recv ("OK[" ++ id ++ "]" ++ CRLF), s) ->
  (length ("OK[" ++ id ++ "]" ++ CRLF) <= LSCP_BUFSIZ)%nat ->
  id <> [] -> sep_free ":[]" id = true -> nul_free id = true ->
  exists w' c',
    lscp_client_subscribe PTR w = Done (LSCP_OK, w') /\
    w_client w' = Some c' /\ sessid c' = None.
Proof.
  intros Hc Hs Hserve Hlen Hid Hfree Hnul.
  assert (Hq : lscp_client_query PTR
                 ("SUBSCRIBE NOTIFICATION " ++ fmt_d (udp_port c) ++ CRLF) w
               = Done (LSCP_OK, with_client (with_result (Some id) 0%Z c) (with_server s w))).
  { apply query_bracketed_answer; try assumption. discriminate. }
  unfold lscp_client_subscribe.
  rewrite (bind_run _ _ _ _ _ (load_run w c Hc)), Hs.
  rewrite (bind_run _ _ _ _ _ Hq).
  unfold lscp_client_get_result, bind, load, store, ret. cbn.
  assert (Hf2 : sep_free "[]" (_lscp_ltrim id) = true).
  { apply sep_free_ltrim. revert Hfree. apply sep_free_weaken.
    intros x Hx. cbn in *. destruct (Ascii.eqb x "["); [apply orb_true_r|].
    destruct (Ascii.eqb x "]"); [rewrite !orb_true_r; reflexivity|discriminate]. }
  destruct (_lscp_ltrim id) as [|x res] eqn:Hres.
  - cbn. eexists. eexists. split; [reflexivity|]. split; [reflexivity|exact Hs].
  - pose proof (strtok_last "[]" (x :: res) [] (Some (x :: res))
                  ltac:(discriminate) Hf2 eq_refl) as T.
    change (list_ascii_of_string "[]") with ["["%char; "]"%char] in T.
    rewrite T.
    destruct (strcaseeq (x :: res) ["O"%char; "K"%char]);
      cbn; eexists; eexists; (split; [reflexivity|]); (split; [reflexivity|exact Hs]).
Qed.


(** ** The listener on arbitrary datagrams *)

Lemma ping_head (x : ascii) :
  Ascii.eqb (tolower x) "p" = true ->
  Ascii.eqb x NUL = false /\ is_sep (" " ++ CRLF) x = false.
Proof.
  destruct x as [[] [] [] [] [] [] [] []]; intros H; vm_compute in H;
    try discriminate; split; reflexivity.
Qed.

(** A datagram accepted as a keepalive has a first token. *)
Lemma ping_first_token (achBuffer : text) (cchBuffer : Z) :
  strncaseeq 5 achBuffer "PING " = true -> (0 < cchBuffer)%Z ->
  exists tok pch,
    _lscp_strtok (Some (cstr (firstn (Z.to_nat cchBuffer) achBuffer))) (" " ++ CRLF) []
      = (Some tok, pch).
Proof.
  intros Hping Hpos.
  destruct achBuffer as [|x rest]; [discriminate|].
  change (strncaseeq 5 (x :: rest) "PING ")
    with (Ascii.eqb (tolower x) "p" && strncaseeq 4 rest "ING ") in Hping.
  apply andb_true_iff in Hping. destruct Hping as [Hx _].
  destruct (ping_head x Hx) as [Hnul Hsep].
  destruct (Z.to_nat cchBuffer) as [|n] eqn:Hn; [lia|].
  cbn [firstn cstr]. rewrite Hnul.
  unfold _lscp_strtok. rewrite (skip_seps_head _ _ _ Hsep).
  destruct (strpbrk (" " ++ CRLF) (x :: cstr (firstn n rest))) as [tok [after|]];
    eexists; eexists; reflexivity.
Qed.

Lemma with_sessid_same (c : lscp_client_t) : c = with_sessid (sessid c) c.
Proof. destruct c. reflexivity. Qed.

Lemma world_sent (w : world) (c : lscp_client_t) (l : list text) :
  w_client w = Some c -> with_udp_sent l w = with_udp_sent l (with_client c w).
Proof. destruct w. cbn. intros ->. reflexivity. Qed.

Lemma world_same (w : world) (c : lscp_client_t) :
  w_client w = Some c -> w = with_udp_sent (w_udp_sent w) (with_client c w).
Proof. destruct w. cbn. intros ->. reflexivity. Qed.

(** X13: one turn of the listener on a datagram shorter than its receive
    array ends without undefined behaviour, and: a receive error (a length
    that is not positive) stops the listener; a datagram that does not start
    with [PING ] (in any letter case) is handed to the callback, the listener
    stops when the callback returns anything but LSCP_OK, and nothing else
    changes; a keepalive never stops the listener, of the session it can
    change the session-id only, and besides that it can only send a
    datagram. *)
Theorem listener_turn (w : world) (c : lscp_client_t) (achBuffer : text)
    (cchBuffer : Z) :
  w_client w = Some c -> (cchBuffer < Z.of_nat LSCP_BUFSIZ)%Z ->
  exists w' c',
    udp_turn PTR (Recvfrom achBuffer cchBuffer) w = Done (tt, w') /\
    w_client w' = Some c' /\
    (if (0 <? cchBuffer)%Z then
       if strncaseeq 5 achBuffer "PING " then
         c' = with_sessid (sessid c') c /\
         w' = with_udp_sent (w_udp_sent w') (with_client c' w)
       else
         w' = if status_eqb (pfnCallback c (firstn (Z.to_nat cchBuffer) achBuffer))
                            LSCP_OK
              then w else with_client (with_udp_iState false c) w
     else w' = with_client (with_udp_iState false c) w).
Proof.
  intros Hc Hlen. unfold udp_turn.
  destruct (0 <? cchBuffer)%Z eqn:Hpos.
  - apply Z.ltb_lt in Hpos.
    destruct (strncaseeq 5 achBuffer "PING ") eqn:Hping.
    + assert (Hsz : (Z.of_nat LSCP_BUFSIZ <=? cchBuffer)%Z = false)
        by (apply Z.leb_gt; lia).
      rewrite Hsz.
      destruct (ping_first_token achBuffer cchBuffer Hping Hpos) as [tok [pch T]].
      rewrite T.
      destruct (_lscp_strtok None (" " ++ CRLF) pch) as [tok2 pch2].
      destruct (_lscp_strtok None (" " ++ CRLF) pch2) as [[id|] pch3].
      * unfold bind, load, store, udp_send, ret. rewrite Hc.
        destruct (sessid c) as [bound|] eqn:Hs; cbn; rewrite Hc; cbn.
        -- rewrite Hs. destruct (streq id bound).
           ++ exists (with_udp_sent (w_udp_sent w ++ ["PONG " ++ bound ++ CRLF]) w), c.
              split; [reflexivity|]. split; [exact Hc|].
              split; [apply with_sessid_same|].
              cbn. apply (world_sent w c _ Hc).
           ++ exists w, c. split; [reflexivity|]. split; [exact Hc|].
              split; [apply with_sessid_same | apply (world_same w c Hc)].
        -- rewrite streq_refl.
           eexists. exists (with_sessid (Some id) c).
           split; [reflexivity|]. split; [reflexivity|]. split; reflexivity.
      * exists w, c. split; [reflexivity|]. split; [exact Hc|].
        split; [apply with_sessid_same | apply (world_same w c Hc)].
    + unfold bind, load, store, ret. rewrite Hc.
      destruct (status_eqb (pfnCallback c (firstn (Z.to_nat cchBuffer) achBuffer)) LSCP_OK).
      * exists w, c. repeat split. exact Hc.
      * rewrite Hc. eexists. eexists. repeat split.
  - unfold store. rewrite Hc. eexists. eexists. repeat split.
Qed.

(** X14: the listener thread stops for good.  Once its running flag is off
    it touches nothing, whatever arrives; and a receive error turns the flag
    off, so that nothing that arrives after the error is looked at. *)
Theorem listener_stops_for_good (w : world) (c : lscp_client_t)
    (events : list udp_event) (achBuffer : text) (cchBuffer : Z) :
  w_client w = Some c ->
  (udp_iState c = false -> _lscp_client_udp_proc PTR events w = Done (tt, w)) /\
  (udp_iState c = true -> (cchBuffer <= 0)%Z ->
   _lscp_client_udp_proc PTR (Recvfrom achBuffer cchBuffer :: events) w
     = Done (tt, with_client (with_udp_iState false c) w)).
Proof.
  assert (Hoff : forall (v : world) (d : lscp_client_t),
             w_client v = Some d -> udp_iState d = false ->
             _lscp_client_udp_proc PTR events v = Done (tt, v)).
  { intros v d Hd Hs. destruct events as [|ev events']; [reflexivity|].
    cbn [_lscp_client_udp_proc].
    rewrite (bind_run _ _ _ _ _ (load_run v d Hd)), Hs. reflexivity. }
  intros Hc. split.
  - apply Hoff. exact Hc.
  - intros Hs Hlen. cbn [_lscp_client_udp_proc].
    rewrite (bind_run _ _ _ _ _ (load_run w c Hc)), Hs.
    assert (Hturn : udp_turn PTR (Recvfrom achBuffer cchBuffer) w
                    = Done (tt, with_client (with_udp_iState false c) w)).
    { unfold udp_turn.
      assert (Hn : (0 <? cchBuffer)%Z = false) by (apply Z.ltb_ge; lia).
      rewrite Hn. apply store_run. exact Hc. }
    rewrite (bind_run _ _ _ _ _ Hturn).
    apply (Hoff _ (with_udp_iState false c)); reflexivity.
Qed.

(** ** Info caches and lists on arbitrary answers *)

Lemma bind_unfold {A B : Type} (m : op A) (k : A -> op B) (w : world) :
  bind m k w = match m w with Done (a, w') => k a w' | Fault f => Fault f end.
Proof. reflexivity. Qed.

(** A call reads nothing of the client but the timeout. *)
Lemma call_frame (f : lscp_client_t -> lscp_client_t) :
  (forall c, iTimeout (f c) = iTimeout c) ->
  forall (b : option text) (n : Z) (r : option Z) (w : world) (c : lscp_client_t),
    w_client w = Some c ->
    lscp_client_call PTR b n r (with_client (f c) w) =
    match lscp_client_call PTR b n r w with
    | Done (x, w') => Done (x, with_client (f c) w')
    | Fault e => Fault e
    end.
Proof.
  intros Hf3 b n r w c Hc. unfold lscp_client_call.
  destruct b as [buf|]; [|reflexivity].
  destruct r as [cap|]; [|reflexivity].
  destruct (n <? 1)%Z; [reflexivity|].
  destruct (cap <? 1)%Z; [reflexivity|].
  unfold bind, load, transact. cbn [w_client with_client with_cell w_server].
  rewrite Hc, Hf3.
  destruct (serve (w_server w) (firstn (Z.to_nat n) buf) (select_timeval (iTimeout c)))
    as [ev s].
  destruct ev as [| | |bytes]; try reflexivity.
  destruct (firstn (Z.to_nat cap) bytes); reflexivity.
Qed.

(** A query does not look at a field of the client other than the timeout:
    changing such a field before the query or after it is the same. *)
Lemma query_frame (f : lscp_client_t -> lscp_client_t) :
  (forall c v, f (with_pszResult v c) = with_pszResult v (f c)) ->
  (forall c z, f (with_iErrno z c) = with_iErrno z (f c)) ->
  (forall c, iTimeout (f c) = iTimeout c) ->
  forall (q : text) (w : world) (c : lscp_client_t),
    w_client w = Some c ->
    lscp_client_query PTR q (with_client (f c) w) =
    match lscp_client_query PTR q w with
    | Done (st, w') =>
        Done (st, match w_client w' with
                  | Some c' => with_client (f c') w'
                  | None => w'
                  end)
    | Fault e => Fault e
    end.
Proof.
  intros Hf1 Hf2 Hf3 q w c Hc.
  assert (Hres : forall r e, with_result r e (f c) = f (with_result r e c)).
  { intros r e. unfold with_result. rewrite Hf1, Hf2. reflexivity. }
  assert (Hset : forall (st : lscp_status_t) r e (v : world),
    w_client v = Some c ->
    (_lscp_client_set_result PTR r e ;;; ret st) (with_client (f c) v) =
    match (_lscp_client_set_result PTR r e ;;; ret st) v with
    | Done (st, w') =>
        Done (st, match w_client w' with
                  | Some c' => with_client (f c') w'
                  | None => w'
                  end)
    | Fault e => Fault e
    end).
  { intros st r e v Hv.
    rewrite (bind_run _ _ _ _ _ (set_result_run r e (with_client (f c) v) (f c) eq_refl)).
    rewrite (bind_run _ _ _ _ _ (set_result_run r e v c Hv)).
    cbn. rewrite Hres. reflexivity. }
  unfold lscp_client_query. rewrite !bind_unfold.
  rewrite (call_frame f Hf3 _ _ _ w c Hc).
  destruct (lscp_client_call PTR (Some q) (Z.of_nat (length q))
              (Some (Z.of_nat LSCP_BUFSIZ)) w) as [[[st0 got] w1]|e] eqn:Hcall;
    [|reflexivity].
  assert (Hc1 : w_client w1 = Some c).
  { rewrite <- Hc.
    refine (preserves_call w_client PTR _ _ _ _ _ _ _ Hcall). intros ? ?. reflexivity. }
  destruct st0; try (apply Hset; exact Hc1).
  destruct (LSCP_BUFSIZ <=? length (rstrip_crlf got))%nat; [reflexivity|].
  destruct (classify (cstr (rstrip_crlf got))) as [[st res] err].
  apply Hset. exact Hc1.
Qed.

(** X15: a typed info query that succeeds leaves nothing of the previous
    snapshot behind.  Whatever the cache held before the call, the structure
    returned and the state of the session afterwards are the same: fields the
    answer does not mention read as after a reset, not as before the call. *)
Theorem info_query_forgets_previous_snapshot (w w' : world) (c : lscp_client_t) :
  w_client w = Some c ->
  (forall (iSamplerChannel : Z) (info i : lscp_channel_info_t),
      lscp_get_channel_info PTR iSamplerChannel w = Done (Some info, w') ->
      lscp_get_channel_info PTR iSamplerChannel
        (with_client (with_channel_info i c) w) = Done (Some info, w')) /\
  (forall (name : option text) (info i : lscp_engine_info_t),
      lscp_get_engine_info PTR name w = Done (Some info, w') ->
      lscp_get_engine_info PTR name
        (with_client (with_engine_info i c) w) = Done (Some info, w')) /\
  (forall (name : option text) (info i : lscp_driver_info_t),
      lscp_get_audio_driver_info PTR name w = Done (Some info, w') ->
      lscp_get_audio_driver_info PTR name
        (with_client (with_audio_info i c) w) = Done (Some info, w')) /\
  (forall (name : option text) (info i : lscp_driver_info_t),
      lscp_get_midi_driver_info PTR name w = Done (Some info, w') ->
      lscp_get_midi_driver_info PTR name
        (with_client (with_midi_info i c) w) = Done (Some info, w')).
Proof.
  intros Hc.
  assert (Hgen : forall (I : Type) (fld : text -> option (text -> I -> I)) (init : I)
                   (put : I -> lscp_client_t -> lscp_client_t) (q : text)
                   (info i : I),
    (forall j d v, put j (with_pszResult v d) = with_pszResult v (put j d)) ->
    (forall j d z, put j (with_iErrno z d) = with_iErrno z (put j d)) ->
    (forall j d, iTimeout (put j d) = iTimeout d) ->
    (forall j d, pszResult (put j d) = pszResult d) ->
    (forall j k d, put j (put k d) = put j d) ->
    (r <- lscp_client_query PTR q ;;
     match r with
     | LSCP_OK => reparse PTR fld init put
     | _ => ret None
     end) w = Done (Some info, w') ->
    (r <- lscp_client_query PTR q ;;
     match r with
     | LSCP_OK => reparse PTR fld init put
     | _ => ret None
     end) (with_client (put i c) w) = Done (Some info, w')).
  { intros I fld init put q info i H1 H2 H3 H4 H5 H.
    rewrite bind_unfold in H |- *.
    rewrite (query_frame (put i) (H1 i) (H2 i) (H3 i) q w c Hc).
    destruct (lscp_client_query PTR q w) as [[st w1]|e]; [|discriminate].
    destruct st; try discriminate.
    unfold reparse, lscp_client_get_result in H |- *.
    rewrite !bind_unfold in H |- *. unfold load in H |- *.
    destruct (w_client w1) as [c1|] eqn:Hc1; [|discriminate].
    cbn [w_client with_client with_cell]. rewrite H4.
    unfold ret in H |- *. cbv iota beta in H |- *.
    rewrite bind_unfold in H |- *.
    rewrite (store_run (put init) w1 c1 Hc1) in H.
    rewrite (store_run (put init) (with_client (put i c1) w1) (put i c1) eq_refl).
    rewrite H5.
    replace (with_client (put init c1) (with_client (put i c1) w1))
      with (with_client (put init c1) w1) by reflexivity.
    exact H. }
  split; [|split; [|split]].
  - intros ch info i H. unfold lscp_get_channel_info in H |- *.
    destruct (ch <? 0)%Z; [discriminate|].
    apply (Hgen _ channel_info_field _lscp_channel_info_init with_channel_info);
      try reflexivity. exact H.
  - intros [name|] info i H; [|discriminate]. unfold lscp_get_engine_info in H |- *.
    rewrite sprintf_bind in H |- *.
    destruct (_ <? LSCP_BUFSIZ)%nat; [|discriminate].
    apply (Hgen _ engine_info_field _lscp_engine_info_init with_engine_info);
      try reflexivity. exact H.
  - intros [name|] info i H; [|discriminate].
    unfold lscp_get_audio_driver_info, _lscp_driver_info_query in H |- *.
    rewrite sprintf_bind in H |- *.
    destruct (_ <? LSCP_BUFSIZ)%nat; [|discriminate].
    apply (Hgen _ driver_info_field _lscp_driver_info_init (with_driver_info audio_slot));
      try reflexivity. exact H.
  - intros [name|] info i H; [|discriminate].
    unfold lscp_get_midi_driver_info, _lscp_driver_info_query in H |- *.
    rewrite sprintf_bind in H |- *.
    destruct (_ <? LSCP_BUFSIZ)%nat; [|discriminate].
    apply (Hgen _ driver_info_field _lscp_driver_info_init (with_driver_info midi_slot));
      try reflexivity. exact H.
Qed.



(** ** Argument checks of the command wrappers *)

(** X17: the command wrappers refuse a negative sampler channel before
    anything is sent: each returns its failure value (LSCP_FAILED, NULL or
    -1) and the world, the server included, is as before. *)
Theorem wrappers_refuse_negative_channel (pClient : pointer) (w : world)
    (iSamplerChannel : Z) (name : option text) (a b : Z) (fVolume : float) :
  (iSamplerChannel < 0)%Z ->
  lscp_load_instrument pClient name a iSamplerChannel w = Done (LSCP_FAILED, w) /\
  lscp_load_engine pClient name iSamplerChannel w = Done (LSCP_FAILED, w) /\
  lscp_remove_channel pClient iSamplerChannel w = Done (LSCP_FAILED, w) /\
  lscp_reset_channel pClient iSamplerChannel w = Done (LSCP_FAILED, w) /\
  lscp_get_channel_info pClient iSamplerChannel w = Done (None, w) /\
  lscp_get_channel_voice_count pClient iSamplerChannel w = Done ((-1)%Z, w) /\
  lscp_get_channel_stream_count pClient iSamplerChannel w = Done ((-1)%Z, w) /\
  lscp_set_channel_audio_type pClient iSamplerChannel name w = Done (LSCP_FAILED, w) /\
  lscp_set_channel_audio_channel pClient iSamplerChannel a b w = Done (LSCP_FAILED, w) /\
  lscp_set_channel_midi_type pClient iSamplerChannel name w = Done (LSCP_FAILED, w) /\
  lscp_set_channel_midi_port pClient iSamplerChannel a w = Done (LSCP_FAILED, w) /\
  lscp_set_channel_midi_channel pClient iSamplerChannel a w = Done (LSCP_FAILED, w) /\
  lscp_set_channel_volume pClient iSamplerChannel fVolume w = Done (LSCP_FAILED, w).
Proof.
  intros H. apply Z.ltb_lt in H.
  unfold lscp_load_instrument, lscp_load_engine, lscp_remove_channel,
    lscp_reset_channel, lscp_get_channel_info, lscp_get_channel_voice_count,
    lscp_get_channel_stream_count, lscp_set_channel_audio_type,
    lscp_set_channel_audio_channel, lscp_set_channel_midi_type,
    lscp_set_channel_midi_port, lscp_set_channel_midi_channel,
    lscp_set_channel_volume.
  rewrite H. cbn [orb]. destruct name; repeat split.
Qed.

(** X18: the other argument checks of the wrappers, again made before
    anything is sent: a NULL name (file, engine or driver), a negative audio
    channel, a negative MIDI port, a MIDI channel outside 0..16 and a negative
    volume are refused with LSCP_FAILED and the world is as before. *)
Theorem wrappers_refuse_bad_arguments (pClient : pointer) (w : world)
    (ch a b : Z) (fVolume : float) :
  lscp_load_instrument pClient None a ch w = Done (LSCP_FAILED, w) /\
  lscp_load_engine pClient None ch w = Done (LSCP_FAILED, w) /\
  lscp_get_engine_info pClient None w = Done (None, w) /\
  lscp_get_audio_driver_info pClient None w = Done (None, w) /\
  lscp_get_midi_driver_info pClient None w = Done (None, w) /\
  lscp_set_channel_audio_type pClient ch None w = Done (LSCP_FAILED, w) /\
  lscp_set_channel_midi_type pClient ch None w = Done (LSCP_FAILED, w) /\
  ((a < 0 \/ b < 0)%Z ->
   lscp_set_channel_audio_channel pClient ch a b w = Done (LSCP_FAILED, w)) /\
  ((a < 0)%Z -> lscp_set_channel_midi_port pClient ch a w = Done (LSCP_FAILED, w)) /\
  ((a < 0 \/ 16 < a)%Z ->
   lscp_set_channel_midi_channel pClient ch a w = Done (LSCP_FAILED, w)) /\
  (float_negative fVolume = true ->
   lscp_set_channel_volume pClient ch fVolume w = Done (LSCP_FAILED, w)).
Proof.
  unfold lscp_load_instrument, lscp_load_engine, lscp_get_engine_info,
    lscp_get_audio_driver_info, lscp_get_midi_driver_info,
    lscp_set_channel_audio_type, lscp_set_channel_midi_type,
    lscp_set_channel_audio_channel, lscp_set_channel_midi_port,
    lscp_set_channel_midi_channel, lscp_set_channel_volume.
  repeat match goal with |- _ /\ _ => split end; try reflexivity.
  - destruct (ch <? 0)%Z; reflexivity.
  - destruct (ch <? 0)%Z; reflexivity.
  - intros [H|H]; apply Z.ltb_lt in H; rewrite H, ?orb_true_r; reflexivity.
  - intros H; apply Z.ltb_lt in H; rewrite H, ?orb_true_r; reflexivity.
  - intros [H|H]; apply Z.ltb_lt in H; rewrite H, ?orb_true_r; reflexivity.
  - intros H. rewrite H, orb_true_r. reflexivity.
Qed.

(** ** The life of a session *)

Lemma fill_as_allocated_of_state (w w' : world) :
  fill_state w' = fill_state w -> fill_as_allocated w -> fill_as_allocated w'.
Proof.
  unfold fill_state, fill_as_allocated, field, array_shape. intros H Hwf.
  destruct (w_client w') as [c'|]; [|exact I].
  destruct (w_client w) as [c|]; [|discriminate].
  cbn in H. inversion H as [[Hn Hshape Hnext Hfreed]]. rewrite Hn.
  destruct (buffer_fill c') as [[b' cells']|], (buffer_fill c) as [[b cells]|];
    cbn in Hshape; try discriminate; [|exact Hwf].
  inversion Hshape. cbn [option_map snd] in Hwf |- *.
  destruct Hwf as [[_ Hnone]|Hsome]; [discriminate|]. right. congruence.
Qed.

(** Every operation keeps the array what [malloc] gave for the cached
    count. *)
Lemma fill_as_allocated_invariant (o : operation) (w w' : world)
    (r : option lscp_status_t) :
  fill_as_allocated w -> perform PTR o w = Done (r, w') -> fill_as_allocated w'.
Proof.
  intros Hwf H.
  destruct o;
    try (refine (fill_as_allocated_of_state _ _ _ Hwf);
         match goal with
         | Hp : perform PTR ?op w = Done _ |- _ =>
             exact (perform_preserves_fill_state op ltac:(discriminate)
                      ltac:(intros; discriminate) _ _ _ Hp)
         end).
  - unfold perform, status in H. apply bind_done in H.
    destruct H as [a [w1 [Hd H]]]. inversion H. subst.
    unfold fill_as_allocated. rewrite (destroy_frees _ _ _ Hd). exact I.
  - unfold perform, void in H. apply bind_done in H.
    destruct H as [a [w1 [Hd H]]]. inversion H. subst. clear H.
    destruct (w_client w) as [c|] eqn:Hc.
    2: { unfold lscp_get_channel_buffer_fill, bind, load in Hd.
         rewrite Hc in Hd. discriminate. }
    destruct (iSamplerChannel <? 0)%Z eqn:Hch.
    { unfold lscp_get_channel_buffer_fill in Hd.
      rewrite (bind_run _ _ _ _ _ (load_run _ _ Hc)), Hch in Hd.
      inversion Hd. subst. exact Hwf. }
    apply Z.ltb_ge in Hch.
    destruct (resolve_stream_count PTR iSamplerChannel w) as [[n w1]|f] eqn:Hres.
    2: { unfold lscp_get_channel_buffer_fill in Hd.
         rewrite (bind_run _ _ _ _ _ (load_run _ _ Hc)) in Hd.
         apply Z.ltb_ge in Hch. rewrite Hch in Hd.
         unfold bind in Hd. rewrite Hres in Hd. discriminate. }
    destruct (buffer_fill_outcome w w1 c usage_type iSamplerChannel n Hc Hch Hres)
      as [Hlow Hhigh].
    destruct (Z.lt_ge_cases n 1) as [Hn|Hn].
    + destruct (Hlow Hn) as [Hrun Hst]. rewrite Hrun in Hd. inversion Hd. subst.
      exact (fill_as_allocated_of_state _ _ Hst Hwf).
    + destruct (Hhigh Hn _ _ Hd) as [c' [Hc' [Hcount [Hsame Hdiff]]]].
      unfold fill_as_allocated in *. rewrite Hc'. rewrite Hc in Hwf.
      right. split; [lia|]. rewrite Hcount.
      destruct (Z.eq_dec n (iStreamCount c)) as [Heq|Hne].
      * destruct (Hsame Heq) as [Hshape _]. unfold array_shape in Hshape.
        destruct Hwf as [[H0 _]|[_ Hwf]]; [lia|]. rewrite Heq, <- Hwf.
        destruct (buffer_fill c') as [[b' cells']|], (buffer_fill c) as [[b cells]|];
          cbn in Hshape; try discriminate; [|reflexivity].
        inversion Hshape. cbn. congruence.
      * destruct (Hdiff Hne) as [Hshape _]. unfold array_shape in Hshape.
        destruct (buffer_fill c') as [[b' cells']|], (malloc_fill n) as [k|];
          cbn in Hshape; try discriminate; [|reflexivity].
        inversion Hshape. reflexivity.
Qed.

(** With a [malloc] that gives what it is asked for, the array has as many
    entries as the cached count says. *)
Lemma fill_wf_of_allocated (w : world) :
  (forall n, (1 <= n)%Z -> malloc_fill n = Some (Z.to_nat n)) ->
  fill_as_allocated w -> fill_wf w.
Proof.
  unfold fill_as_allocated, fill_wf. intros Hfull H.
  destruct (w_client w) as [c|]; [|exact I].
  destruct H as [[H0 Hnone]|[H1 Hsome]].
  - rewrite Hnone. exact H0.
  - rewrite (Hfull _ H1) in Hsome.
    destruct (buffer_fill c) as [[b cells]|]; cbn in Hsome; [|discriminate].
    inversion Hsome. lia.
Qed.

(** X19: in every state a session reaches from its creation through any
    sequence of operations and listener turns that returned, the buffer fill
    array is what [malloc] gave for [pClient->iStreamCount]: none while the
    count is 0, and for a count of 1 or more none when [malloc] failed and
    the entries it found room for otherwise (the count is stored whatever
    [malloc] returned).  So when [malloc] gives the array asked for whenever
    it is asked for one, the array has as many entries as the count says, and
    the writes of the buffer fill parse stay inside it. *)
Theorem buffer_fill_array_matches_count (cb : option (text -> lscp_status_t))
    (setup : option Z) (ops : list operation) (w w1 w2 : world) :
  lscp_client_create cb setup w = Done (PTR, w1) ->
  perform_all PTR ops w1 = Done (tt, w2) ->
  fill_as_allocated w2 /\
  ((forall n, (1 <= n)%Z -> malloc_fill n = Some (Z.to_nat n)) -> fill_wf w2).
Proof.
  intros Hcreate Hrun.
  assert (Ha : fill_as_allocated w2).
  { assert (Hwf1 : fill_as_allocated w1).
    { unfold lscp_client_create in Hcreate.
      destruct cb as [f|]; [destruct setup as [port|]|]; inversion Hcreate.
      unfold fill_as_allocated. cbn. auto. }
    clear Hcreate. revert w1 Hwf1 Hrun.
    induction ops as [|o ops IH]; intros w1 Hwf1 H.
    - inversion H. subst. exact Hwf1.
    - cbn [perform_all] in H. apply bind_done in H.
      destruct H as [r [w' [Hp H]]].
      apply (IH w'); [|exact H].
      exact (fill_as_allocated_invariant o w1 w' r Hwf1 Hp). }
  split; [exact Ha|].
  intros Hfull. exact (fill_wf_of_allocated w2 Hfull Ha).
Qed.

Lemma store_step {B : Type} (f : lscp_client_t -> lscp_client_t) (k : unit -> op B)
    (w : world) (c : lscp_client_t) :
  w_client w = Some c -> bind (store PTR f) k w = k tt (with_client (f c) w).
Proof. intros H. apply bind_run, store_run, H. Qed.

Lemma load_step {B : Type} (k : lscp_client_t -> op B) (w : world) (c : lscp_client_t) :
  w_client w = Some c -> bind (load PTR) k w = k c w.
Proof. intros H. apply bind_run, load_run, H. Qed.

Lemma set_result_step {B : Type} (r : option text) (e : Z) (k : unit -> op B)
    (w : world) (c : lscp_client_t) :
  w_client w = Some c ->
  bind (_lscp_client_set_result PTR r e) k w = k tt (with_client (with_result r e c) w).
Proof. intros H. apply bind_run, set_result_run, H. Qed.

(** X20: [lscp_client_destroy] on a live session returns LSCP_OK, releases
    the buffer fill array if there is one and the client structure, and sends
    nothing to the server (a bound session-id is dropped without an
    unsubscription).  The pointer then dangles: destroying the session again
    or querying through it reads freed memory. *)
Theorem destroy_releases_session (w : world) (c : lscp_client_t) (pszQuery : text) :
  w_client w = Some c ->
  exists w',
    lscp_client_destroy PTR w = Done (LSCP_OK, w') /\
    w' = with_freed (match buffer_fill c with
                     | Some (b, _) => b :: w_freed w
                     | None => w_freed w
                     end) (with_cell None w) /\
    lscp_client_destroy PTR w' = Fault NullPointer /\
    lscp_client_query PTR pszQuery w' = Fault NullPointer.
Proof.
  intros Hc. eexists. split; [|split; [reflexivity|split]].
  - unfold lscp_client_destroy.
    rewrite (store_step _ _ w c Hc).
    do 7 (erewrite store_step; [|reflexivity]).
    erewrite set_result_step; [|reflexivity].
    unfold free_buffer_fill. rewrite bind_unfold.
    erewrite load_step; [|reflexivity].
    cbn [buffer_fill with_result with_pszResult with_iErrno with_engines
         with_midi_drivers with_audio_drivers with_audio_info with_midi_info
         with_engine_info with_channel_info with_sessid option_map].
    destruct (buffer_fill c) as [[b cells]|]; unfold free, ret;
      (do 3 (erewrite store_step; [|reflexivity]));
      unfold free_client, bind, ret;
      destruct w as [? sv nb fr us]; reflexivity.
  - reflexivity.
  - unfold lscp_client_query, lscp_client_call.
    destruct (Z.of_nat (length pszQuery) <? 1)%Z; [reflexivity|].
    destruct (Z.of_nat LSCP_BUFSIZ <? 1)%Z; reflexivity.
Qed.

(** ** The buffer fill parse on well-formed payloads *)

Lemma strtok_skip_sep (pszSeps b ppch : text) (c : ascii) :
  is_sep pszSeps c = true ->
  _lscp_strtok (Some (c :: b)) pszSeps ppch = _lscp_strtok (Some b) pszSeps ppch.
Proof. intros H. unfold _lscp_strtok. cbn [skip_seps]. rewrite H. reflexivity. Qed.

Lemma array_set_mid {A : Type} (done rest : list A) (x : A) (f : A -> A) :
  array_set (done ++ x :: rest) (Z.of_nat (length done)) f = Done (done ++ f x :: rest).
Proof.
  unfold array_set.
  assert (Hb : ((0 <=? Z.of_nat (length done))%Z &&
                (Z.of_nat (length done) <? Z.of_nat (length (done ++ x :: rest)))%Z)%bool
               = true).
  { apply andb_true_iff. split; [apply Z.leb_le; lia|].
    apply Z.ltb_lt. rewrite length_app. cbn [length]. lia. }
  rewrite Hb, Nat2Z.id.
  rewrite nth_error_app2, Nat.sub_diag by lia. cbn [nth_error].
  rewrite firstn_app_exact.
  change (S (length done)) with (1 + length done)%nat.
  rewrite <- skipn_skipn, skipn_app_exact. reflexivity.
Qed.

Lemma fill_payload_cons (id usage : text) (rest : list (text * text)) :
  fill_payload ((id, usage) :: rest)
  = "[" ++ id ++ "]" ++ usage ++ "%" ++ payload_tail rest.
Proof. destruct rest; reflexivity. Qed.

Lemma skip_payload_tail (id usage : text) (rest : list (text * text)) :
  fill_token id ->
  skip_seps fill_seps (payload_tail ((id, usage) :: rest))
  = id ++ "]" ++ usage ++ "%" ++ payload_tail rest.
Proof.
  intros [Hne Hfree]. unfold payload_tail. rewrite fill_payload_cons.
  change (skip_seps fill_seps ("," ++ "[" ++ id ++ "]" ++ usage ++ "%" ++ payload_tail rest))
    with (skip_seps fill_seps (id ++ "]" ++ usage ++ "%" ++ payload_tail rest)).
  apply skip_seps_token; assumption.
Qed.

Lemma buffer_fill_loop_none (fuel : nat) (cells : list lscp_buffer_fill_t)
    (n k : Z) (pch : text) :
  buffer_fill_loop fuel cells n k None pch = Done (cells, k).
Proof. destruct fuel; reflexivity. Qed.

Lemma buffer_fill_loop_pairs (pairs : list (text * text)) :
  forall (fuel : nat) (done remaining : list lscp_buffer_fill_t) (id usage : text),
    (length pairs < fuel)%nat ->
    fill_token id -> fill_token usage ->
    Forall (fun p => fill_token (fst p) /\ fill_token (snd p)) pairs ->
    buffer_fill_loop fuel (done ++ remaining)
      (Z.of_nat (length done + length remaining)) (Z.of_nat (length done))
      (Some id) (usage ++ "%" ++ payload_tail pairs)
    = Done (done ++ map fill_entry (firstn (length remaining) ((id, usage) :: pairs))
              ++ skipn (S (length pairs)) remaining,
            Z.of_nat (length done + min (length remaining) (S (length pairs)))).
Proof.
  induction pairs as [|[id2 usage2] rest IH];
    intros fuel done remaining id usage Hfuel Hid Husage Hall.
  - destruct fuel as [|fuel]; [lia|]. cbn [buffer_fill_loop].
    destruct remaining as [|x rem].
    + assert (Hk : (Z.of_nat (length done) <? Z.of_nat (length done + length (@nil lscp_buffer_fill_t)))%Z = false)
        by (apply Z.ltb_ge; cbn [length]; lia).
      rewrite Hk. cbn. rewrite Nat.add_0_r. reflexivity.
    + assert (Hk : (Z.of_nat (length done) <? Z.of_nat (length done + length (x :: rem)))%Z = true)
        by (apply Z.ltb_lt; cbn [length]; lia).
      rewrite Hk. destruct Hid as [Hine Hifree]. destruct Husage as [Hune Hufree].
      destruct id as [|i0 id']; [congruence|].
      rewrite array_set_mid.
      rewrite (strtok_token fill_seps usage "%" [] (usage ++ "%" ++ payload_tail []) None
                 Hune Hufree eq_refl eq_refl).
      rewrite array_set_mid.
      cbn [skip_seps].
      change (_lscp_strtok None fill_seps []) with (@None text, @nil ascii).
      cbv iota beta. rewrite buffer_fill_loop_none.
      cbn [length firstn map skipn app]. rewrite firstn_nil. cbn [map app].
      f_equal. f_equal. lia.
  - destruct fuel as [|fuel]; [cbn [length] in Hfuel; lia|]. cbn [buffer_fill_loop].
    inversion Hall as [|p l [Hid2 Husage2] Hrest]; subst. cbn [fst snd] in *.
    destruct remaining as [|x rem].
    + assert (Hk : (Z.of_nat (length done) <? Z.of_nat (length done + length (@nil lscp_buffer_fill_t)))%Z = false)
        by (apply Z.ltb_ge; cbn [length]; lia).
      rewrite Hk. cbn. rewrite Nat.add_0_r. reflexivity.
    + assert (Hk : (Z.of_nat (length done) <? Z.of_nat (length done + length (x :: rem)))%Z = true)
        by (apply Z.ltb_lt; cbn [length]; lia).
      rewrite Hk. destruct Hid as [Hine Hifree]. destruct Husage as [Hune Hufree].
      destruct id as [|i0 id']; [congruence|].
      rewrite array_set_mid.
      rewrite (strtok_token fill_seps usage "%" (payload_tail ((id2, usage2) :: rest))
                 (usage ++ "%" ++ payload_tail ((id2, usage2) :: rest)) None
                 Hune Hufree eq_refl eq_refl).
      rewrite array_set_mid.
      rewrite (skip_payload_tail id2 usage2 rest Hid2).
      destruct Hid2 as [Hine2 Hifree2].
      rewrite (strtok_token fill_seps id2 "]" (usage2 ++ "%" ++ payload_tail rest)
                 (id2 ++ "]" ++ usage2 ++ "%" ++ payload_tail rest) None
                 Hine2 Hifree2 eq_refl eq_refl).
      destruct Husage2 as [Hune2 Hufree2].
      rewrite (skip_seps_token fill_seps usage2 ("%" ++ payload_tail rest) Hune2 Hufree2).
      pose proof (IH fuel (done ++ [set_stream_usage usage (set_stream_id (i0 :: id') x)])
                    rem id2 usage2 ltac:(cbn [length] in Hfuel; lia)
                    (conj Hine2 Hifree2) (conj Hune2 Hufree2) Hrest) as Hrec.
      rewrite length_app in Hrec. cbn [length] in Hrec.
      replace (Z.of_nat (length done) + 1)%Z with (Z.of_nat (length done + 1)) by lia.
      replace (Z.of_nat (length done + length (x :: rem)))
        with (Z.of_nat (length done + 1 + length rem)) by (cbn [length]; lia).
      rewrite <- app_assoc in Hrec. cbn [app] in Hrec.
      rewrite Hrec. cbn [length firstn map skipn].
      rewrite <- !app_assoc. cbn [app].
      f_equal. f_equal. f_equal. cbn. lia.
Qed.

(** X21: the parse of a well-formed buffer fill payload
    [[<id>]<usage>%,[<id>]<usage>%,...] into an array of [iStreamCount]
    entries stores pair number [i] in entry number [i], id and usage read by
    [atol], for as many pairs as the array has entries; pairs beyond that are
    dropped, and entries for which the payload has no pair keep what they held
    before. *)
Theorem buffer_fill_parse_pairs (cells : list lscp_buffer_fill_t)
    (pairs : list (text * text)) :
  Forall (fun p => fill_token (fst p) /\ fill_token (snd p)) pairs ->
  buffer_fill_parse cells (Z.of_nat (length cells)) (fill_payload pairs)
  = Done (map fill_entry (firstn (length cells) pairs) ++ skipn (length pairs) cells,
          Z.of_nat (min (length cells) (length pairs))).
Proof.
  intros Hall. unfold buffer_fill_parse.
  destruct pairs as [|[id usage] rest].
  - change (_lscp_strtok (Some (fill_payload [])) fill_seps [])
      with (@None text, @nil ascii).
    cbv iota beta. rewrite buffer_fill_loop_none.
    rewrite firstn_nil, Nat.min_0_r. reflexivity.
  - inversion Hall as [|p l [Hid Husage] Hrest]; subst. cbn [fst snd] in *.
    rewrite fill_payload_cons.
    change ("[" ++ id ++ "]" ++ usage ++ "%" ++ payload_tail rest)
      with ("["%char :: (id ++ "]" ++ usage ++ "%" ++ payload_tail rest)).
    rewrite (strtok_skip_sep fill_seps _ [] "[" eq_refl).
    destruct Hid as [Hine Hifree].
    rewrite (strtok_token fill_seps id "]" (usage ++ "%" ++ payload_tail rest) []
               (Some (id ++ "]" ++ usage ++ "%" ++ payload_tail rest))
               Hine Hifree eq_refl eq_refl).
    destruct Husage as [Hune Hufree].
    rewrite (skip_seps_token fill_seps usage ("%" ++ payload_tail rest) Hune Hufree).
    pose proof (buffer_fill_loop_pairs rest
                  (S (length ("["%char :: (id ++ "]" ++ usage ++ "%" ++ payload_tail rest))))
                  [] cells id usage) as Hloop.
    cbv iota beta.
    apply Hloop; try assumption; try (split; assumption).
    clear. cbn [length]. rewrite !length_app.
      assert (Hp : forall r, (length r <= length (payload_tail r))%nat).
      { induction r as [|[a b] r IHr]; [cbn; lia|].
        unfold payload_tail. rewrite fill_payload_cons.
        change ("," ++ "[" ++ a ++ "]" ++ b ++ "%" ++ payload_tail r)
          with (","%char :: "["%char :: (a ++ "]" ++ b ++ "%" ++ payload_tail r)).
        cbn [length]. rewrite !length_app. lia. }
      specialize (Hp rest). lia.
Qed.

(** ** Splitting a well-formed comma separated list *)

Lemma find_sep_item (pszSeps cur rest : text) (c : ascii) (i : nat) :
  sep_free pszSeps cur = true -> nul_free cur = true ->
  is_sep pszSeps c = true -> Ascii.eqb c NUL = false ->
  find_sep pszSeps (cur ++ c :: rest) i = Some (i + length cur)%nat.
Proof.
  intros Hfree Hnul Hc Hcn. revert i.
  induction cur as [|x cur IH]; intros i; cbn [app find_sep length].
  - rewrite Hcn, Hc. f_equal. lia.
  - cbn in Hfree, Hnul.
    apply andb_true_iff in Hfree. destruct Hfree as [Hx Hfree].
    apply andb_true_iff in Hnul. destruct Hnul as [Hxn Hnul].
    apply negb_true_iff in Hx. apply negb_true_iff in Hxn.
    rewrite Hxn, Hx, (IH Hfree Hnul). f_equal. lia.
Qed.

Lemma find_sep_none (pszSeps cur : text) (i : nat) :
  sep_free pszSeps cur = true -> find_sep pszSeps cur i = None.
Proof.
  revert i. induction cur as [|x cur IH]; intros i Hfree; cbn [find_sep]; [reflexivity|].
  cbn in Hfree. apply andb_true_iff in Hfree. destruct Hfree as [Hx Hfree].
  apply negb_true_iff in Hx. rewrite Hx.
  destruct (Ascii.eqb x NUL); [reflexivity|]. apply IH. exact Hfree.
Qed.

Lemma peek_app (pre rest : text) (c : ascii) :
  peek (pre ++ c :: rest) (length pre) = c.
Proof. rewrite peek_skipn, skipn_app_exact. reflexivity. Qed.

Lemma trim_back_item (pre cur rest : text) :
  cur <> [] -> isspace (last cur NUL) = false ->
  trim_back (pre ++ cur ++ rest) 0 (length pre + length cur) = (length pre + length cur)%nat.
Proof.
  intros Hne Hlast.
  destruct (exists_last Hne) as [cur' [z Hcur]]. subst cur.
  rewrite last_last in Hlast.
  rewrite length_app. cbn [length].
  replace (length pre + (length cur' + 1))%nat with (S (length (pre ++ cur'))) 
    by (rewrite length_app; lia).
  cbn [trim_back].
  replace (pre ++ (cur' ++ [z]) ++ rest) with ((pre ++ cur') ++ z :: rest)
    by (rewrite <- !app_assoc; reflexivity).
  rewrite peek_app, Hlast. reflexivity.
Qed.

Lemma poke_nul_sep (pre rest : text) (c : ascii) :
  poke_nul (pre ++ c :: rest) (length pre) = pre ++ NUL :: rest.
Proof.
  unfold poke_nul.
  assert (H : (length pre <? length (pre ++ c :: rest))%nat = true).
  { apply Nat.ltb_lt. rewrite length_app. cbn [length]. lia. }
  rewrite H, firstn_app_exact, skipn_past_quote. reflexivity.
Qed.

Lemma unquote_item_in_place (pre item rest : text) :
  item <> [] -> isspace (hd NUL item) = false -> is_quote (hd NUL item) = false ->
  _lscp_unquote (pre ++ item ++ rest) (length pre) false
  = (pre ++ item ++ rest, length pre, length pre).
Proof.
  intros Hne Hsp Hq. destruct item as [|x item]; [congruence|]. cbn [hd] in Hsp, Hq.
  unfold _lscp_unquote, skip_space.
  rewrite skipn_app_exact. cbn [app span_len]. rewrite Hsp, Nat.add_0_r.
  rewrite peek_app, Hq. reflexivity.
Qed.

Lemma cstr_at_item (pre item : text) (rest : list text) :
  nul_free item = true ->
  cstr_at (pre ++ item ++ flat_map (fun t => NUL :: t) rest) (length pre) = item.
Proof.
  intros Hnul. unfold cstr_at. rewrite skipn_app_exact.
  destruct rest as [|r rest]; cbn [flat_map].
  - rewrite app_nil_r. apply cstr_nul_free. exact Hnul.
  - apply cstr_stop. exact Hnul.
Qed.

(** The loop of [_lscp_szsplit_create] on the rest of a well-formed list: it
    turns every comma into a NUL and records where each item starts. *)
Lemma szsplit_loop_join (rest : list text) :
  forall (fuel : nat) (pre cur : text) (offs : list nat),
    (length rest < fuel)%nat -> csv_item cur -> Forall csv_item rest ->
    exists offs',
      szsplit_loop fuel "," (pre ++ cur ++ flat_map (fun t => ","%char :: t) rest)
        (length pre) offs
      = (pre ++ cur ++ flat_map (fun t => NUL :: t) rest, offs ++ offs') /\
      map (cstr_at (pre ++ cur ++ flat_map (fun t => NUL :: t) rest)) offs' = rest.
Proof.
  induction rest as [|item rest IH]; intros fuel pre cur offs Hfuel Hcur Hrest.
  - destruct fuel as [|fuel]; [lia|]. exists []. cbn [flat_map szsplit_loop].
    rewrite !app_nil_r. unfold strpbrk_at. rewrite skipn_app_exact.
    destruct Hcur as [_ [Hfree _]]. rewrite (find_sep_none _ _ _ Hfree).
    split; reflexivity.
  - destruct fuel as [|fuel]; [cbn [length] in Hfuel; lia|].
    inversion Hrest as [|i l Hitem Hrest']; subst.
    pose proof Hcur as [Hne [Hfree [Hnul [Hsp [Hq Hlast]]]]].
    pose proof Hitem as [Hne2 [Hfree2 [Hnul2 [Hsp2 [Hq2 Hlast2]]]]].
    cbn [flat_map szsplit_loop].
    set (tail := flat_map (fun t => ","%char :: t) rest).
    unfold strpbrk_at. rewrite skipn_app_exact.
    change (cur ++ (","%char :: item) ++ tail) with (cur ++ ","%char :: (item ++ tail)).
    rewrite (find_sep_item "," cur (item ++ tail) "," (length pre) Hfree Hnul eq_refl eq_refl).
    replace (pre ++ cur ++ ","%char :: (item ++ tail))
      with (pre ++ cur ++ (","%char :: item ++ tail)) by reflexivity.
    rewrite (trim_back_item pre cur _ Hne Hlast).
    replace (pre ++ cur ++ (","%char :: item ++ tail))
      with ((pre ++ cur) ++ ","%char :: (item ++ tail))
      by (rewrite <- app_assoc; reflexivity).
    rewrite <- (length_app pre cur), poke_nul_sep.
    replace ((pre ++ cur) ++ NUL :: item ++ tail)
      with (((pre ++ cur) ++ [NUL]) ++ item ++ tail)
      by (rewrite <- !app_assoc; reflexivity).
    replace (length (pre ++ cur) + length (list_ascii_of_string ","))%nat
      with (length ((pre ++ cur) ++ [NUL]))
      by (rewrite (length_app _ [NUL]); reflexivity).
    rewrite (unquote_item_in_place _ item tail Hne2 Hsp2 Hq2).
    destruct (IH fuel ((pre ++ cur) ++ [NUL]) item
                 (offs ++ [length ((pre ++ cur) ++ [NUL])])
                 ltac:(cbn [length] in Hfuel; lia) Hitem Hrest')
      as [offs' [Hloop Hmap]].
    exists (length ((pre ++ cur) ++ [NUL]) :: offs').
    fold tail in Hloop. rewrite Hloop.
    replace (pre ++ cur ++ (NUL :: item) ++ flat_map (fun t => NUL :: t) rest)
      with (((pre ++ cur) ++ [NUL]) ++ item ++ flat_map (fun t => NUL :: t) rest)
      by (rewrite <- !app_assoc; reflexivity).
    split.
    + apply f_equal2; [reflexivity|]. rewrite <- app_assoc. reflexivity.
    + cbn [map]. rewrite Hmap, (cstr_at_item _ item rest Hnul2). reflexivity.
Qed.

(** X22: splitting what joining gives.  For a list of items that are not
    empty, hold no comma and no NUL, have no white space at either end and do
    not start with a quote, [_lscp_szsplit_create] applied to the items
    joined by commas returns exactly those items, in order.  The empty text
    splits into one empty string. *)
Theorem szsplit_of_joined_items (items : list text) :
  items <> [] -> Forall csv_item items ->
  _lscp_szsplit_create (csv_join items) "," = items /\
  _lscp_szsplit_create [] "," = [[]].
Proof.
  intros Hne Hall. split; [|reflexivity].
  destruct items as [|item rest]; [congruence|].
  inversion Hall as [|i l Hitem Hrest]; subst.
  pose proof Hitem as [Hne1 [Hfree [Hnul [Hsp [Hq Hlast]]]]].
  unfold _lscp_szsplit_create, csv_join.
  set (tail := flat_map (fun t => ","%char :: t) rest).
  assert (Hun : _lscp_unquote (item ++ tail) 0 true = (cstr (item ++ tail), O, O)).
  { destruct item as [|x item']; [congruence|]. cbn [hd] in Hsp, Hq.
    unfold _lscp_unquote, skip_space. cbn [skipn app span_len]. rewrite Hsp.
    cbn [Nat.add]. unfold peek. cbn [nth]. rewrite Hq. reflexivity. }
  rewrite Hun.
  assert (Hnt : nul_free (item ++ tail) = true).
  { apply nul_free_app; [exact Hnul|]. unfold tail. clear -Hrest.
    induction Hrest as [|r rest [_ [_ [Hr _]]] _ IH]; [reflexivity|].
    cbn [flat_map]. change ((","%char :: r) ++ flat_map (fun t => ","%char :: t) rest)
      with (","%char :: (r ++ flat_map (fun t => ","%char :: t) rest)).
    cbn [nul_free forallb]. apply nul_free_app; assumption. }
  rewrite (cstr_nul_free _ Hnt).
  destruct (szsplit_loop_join rest (S (length (item ++ tail))) [] item [O])
    as [offs' [Hloop Hmap]]; try assumption.
  { unfold tail. rewrite length_app. clear.
    induction rest as [|r rest IH]; cbn [flat_map length]; [lia|].
    rewrite length_app. cbn [length]. lia. }
  cbn [app length] in Hloop. fold tail in Hloop. rewrite Hloop.
  cbn [app map]. cbn [app] in Hmap. rewrite Hmap. f_equal.
  exact (cstr_at_item [] item rest Hnul).
Qed.

(** ** Decoding a well-formed engine info answer *)

Lemma rstrip_crlf_free (s t : text) :
  t <> [] -> sep_free CRLF t = true -> rstrip_crlf (s ++ t) = s ++ t.
Proof.
  intros Hne Hfree. destruct (exists_last Hne) as [t' [z Ht]]. subst t.
  unfold sep_free in Hfree. rewrite forallb_app in Hfree.
  apply andb_true_iff in Hfree. destruct Hfree as [_ Hz]. cbn in Hz.
  rewrite app_assoc. apply rstrip_crlf_keep.
  change CR with "013"%char. change LF with "010"%char.
  destruct (Ascii.eqb z "013"); [discriminate|].
  destruct (Ascii.eqb z "010"); [discriminate|reflexivity].
Qed.



Lemma get_result_step {B : Type} (k : option text -> op B) (w : world)
    (c : lscp_client_t) :
  w_client w = Some c -> bind (lscp_client_get_result PTR) k w = k (pszResult c) w.
Proof.
  intros H. unfold lscp_client_get_result. rewrite bind_unfold.
  rewrite (load_step _ w c H). reflexivity.
Qed.



(** ** More edge cases *)

(** X24: the command wrappers called with a NULL client.  They carry no NULL
    test of their own.  Those that do nothing with the pointer but hand it to
    [lscp_client_query] fail as the query does, with nothing sent (for the
    wrappers that first write a name into [szQuery], when the request fits
    the array); the buffer fill query and the three list queries read a field
    of the client themselves, through the NULL pointer. *)
Theorem wrappers_on_null_client (w : world) (name : text) (ch a b : Z)
    (fVolume : float) (u : lscp_usage_t) :
  ((length ("LOAD ENGINE " ++ name ++ " " ++ fmt_d ch ++ CRLF) < LSCP_BUFSIZ)%nat ->
   lscp_load_engine NULL (Some name) ch w = Done (LSCP_FAILED, w)) /\
  ((length ("LOAD INSTRUMENT " ++ name ++ " " ++ fmt_d a ++ " " ++ fmt_d ch ++ CRLF)
      < LSCP_BUFSIZ)%nat ->
   lscp_load_instrument NULL (Some name) a ch w = Done (LSCP_FAILED, w)) /\
  ((length ("SET CHANNEL AUDIO_OUTPUT_TYPE " ++ fmt_d ch ++ " " ++ name ++ CRLF)
      < LSCP_BUFSIZ)%nat ->
   lscp_set_channel_audio_type NULL ch (Some name) w = Done (LSCP_FAILED, w)) /\
  ((length ("SET CHANNEL MIDI_INPUT_TYPE " ++ fmt_d ch ++ " " ++ name ++ CRLF)
      < LSCP_BUFSIZ)%nat ->
   lscp_set_channel_midi_type NULL ch (Some name) w = Done (LSCP_FAILED, w)) /\
  ((length ("GET ENGINE INFO " ++ name ++ CRLF) < LSCP_BUFSIZ)%nat ->
   lscp_get_engine_info NULL (Some name) w = Done (None, w)) /\
  lscp_remove_channel NULL ch w = Done (LSCP_FAILED, w) /\
  lscp_reset_channel NULL ch w = Done (LSCP_FAILED, w) /\
  lscp_set_channel_audio_channel NULL ch a b w = Done (LSCP_FAILED, w) /\
  lscp_set_channel_midi_port NULL ch a w = Done (LSCP_FAILED, w) /\
  lscp_set_channel_midi_channel NULL ch a w = Done (LSCP_FAILED, w) /\
  lscp_set_channel_volume NULL ch fVolume w = Done (LSCP_FAILED, w) /\
  lscp_get_channels NULL w = Done ((-1)%Z, w) /\
  lscp_add_channel NULL w = Done ((-1)%Z, w) /\
  lscp_get_channel_voice_count NULL ch w = Done ((-1)%Z, w) /\
  lscp_get_channel_stream_count NULL ch w = Done ((-1)%Z, w) /\
  lscp_get_channel_info NULL ch w = Done (None, w) /\
  lscp_get_channel_buffer_fill NULL u ch w = Fault NullPointer /\
  lscp_get_available_audio_drivers NULL w = Fault NullPointer /\
  lscp_get_available_midi_drivers NULL w = Fault NullPointer /\
  lscp_get_available_engines NULL w = Fault NullPointer.
Proof.
  unfold lscp_load_engine, lscp_load_instrument, lscp_remove_channel,
    lscp_reset_channel, lscp_get_channel_voice_count,
    lscp_get_channel_stream_count, lscp_get_engine_info, lscp_get_channel_info,
    lscp_set_channel_audio_type, lscp_set_channel_audio_channel,
    lscp_set_channel_midi_type, lscp_set_channel_midi_port,
    lscp_set_channel_midi_channel, lscp_set_channel_volume.
  destruct (ch <? 0)%Z, (a <? 0)%Z, (b <? 0)%Z, (16 <? a)%Z, (0 <? a)%Z,
    (float_negative fVolume);
    repeat match goal with |- _ /\ _ => split end;
    try reflexivity;
    intros Hfit; rewrite ?sprintf_bind; apply Nat.ltb_lt in Hfit; rewrite ?Hfit;
    reflexivity.
Qed.

(** X25: [lscp_client_create] returns NULL and leaves the world alone when
    the callback is NULL or when the connection cannot be set up.  Otherwise
    the session it returns has no result text, error code -1, the default
    timeout of 200 ms and no session-id (an unsubscription fails at once), and
    nothing has been sent to the server yet. *)
Theorem fresh_session (w : world) (cb : option (text -> lscp_status_t))
    (setup : option Z) (f : text -> lscp_status_t) (port : Z) :
  lscp_client_create None setup w = Done (NULL, w) /\
  lscp_client_create cb None w = Done (NULL, w) /\
  exists w',
    lscp_client_create (Some f) (Some port) w = Done (PTR, w') /\
    lscp_client_get_result PTR w' = Done (None, w') /\
    lscp_client_get_errno PTR w' = Done ((-1)%Z, w') /\
    lscp_client_get_timeout PTR w' = Done (200%Z, w') /\
    lscp_client_unsubscribe PTR w' = Done (LSCP_FAILED, w') /\
    w_server w' = w_server w.
Proof.
  split; [reflexivity|]. split; [destruct cb; reflexivity|].
  eexists. split; [reflexivity|]. repeat split.
Qed.

Lemma span_len_all (p : ascii -> bool) (l : text) :
  forallb p l = true -> span_len p l = length l.
Proof.
  induction l as [|c l IH]; cbn; [reflexivity|].
  intros H. apply andb_true_iff in H. destruct H as [Hc Hl].
  rewrite Hc, (IH Hl). reflexivity.
Qed.

Lemma cstr_no_nul (s : text) : nul_free (cstr s) = true.
Proof.
  induction s as [|c s IH]; [reflexivity|]. cbn [cstr].
  destruct (Ascii.eqb c NUL) eqn:Hc; [reflexivity|].
  unfold nul_free in *. cbn [forallb]. rewrite Hc, IH. reflexivity.
Qed.

(** X26: an opening quote that is never closed is dropped, and the rest of
    the text is returned as a bare text would be: without its leading white
    space, with its trailing white space.  The same holds when the text goes
    on with the other kind of quote, which is then part of the content. *)
Theorem unquote_unclosed_quote (q : ascii) (pre s : text) :
  is_quote q = true -> all_space pre = true ->
  forallb (fun c => negb (Ascii.eqb c q)) (cstr (_lscp_ltrim s)) = true ->
  unquoted (pre ++ q :: s) = cstr (_lscp_ltrim s).
Proof.
  intros Hq Hpre Hnoq.
  pose proof (quote_not_space q Hq) as Hqs.
  set (b := pre ++ q :: s).
  assert (H1 : skip_space b 0 = length pre).
  { unfold skip_space, b. change (skipn 0 ?l) with l.
    rewrite (span_len_app _ _ _ Hpre), (span_len_stop _ _ _ Hqs). lia. }
  assert (H2 : peek b (length pre) = q) by (unfold b; apply peek_app).
  assert (H3 : cstr_at b (skip_space b (S (length pre))) = cstr (_lscp_ltrim s)).
  { unfold cstr_at, skip_space, b. rewrite skipn_past_quote.
    change (S (length pre) + span_len isspace s)%nat
      with (S (length pre + span_len isspace s)).
    replace (S (length pre + span_len isspace s))
      with (span_len isspace s + S (length pre))%nat by lia.
    rewrite <- skipn_skipn, skipn_past_quote, skipn_span_space. reflexivity. }
  unfold unquoted, _lscp_unquote. cbv zeta.
  rewrite H1, H2, Hq, H3. cbv beta iota.
  change (skipn 0 (cstr (_lscp_ltrim s))) with (cstr (_lscp_ltrim s)).
  rewrite span_len_all.
  - cbn [Nat.add]. unfold peek. rewrite nth_overflow by lia.
    change (Ascii.eqb NUL NUL) with true. cbv iota.
    unfold cstr_at. change (skipn 0 ?l) with l. apply cstr_idem.
  - pose proof (cstr_no_nul (_lscp_ltrim s)) as Hn. unfold nul_free in Hn.
    rewrite forallb_forall in Hn, Hnoq. apply forallb_forall.
    intros c Hc. rewrite (Hn c Hc), (Hnoq c Hc). reflexivity.
Qed.

(** X27: the loop of [lscp_client_query] that drops the trailing CR and LF of
    a response removes a suffix made of CR and LF only, and what it leaves
    does not end with CR or LF. *)
Theorem rstrip_crlf_removes_line_end (s : text) :
  exists t,
    s = rstrip_crlf s ++ t /\ crlf_only t = true /\
    crlf_only [last (rstrip_crlf s) NUL] = false.
Proof.
  induction s as [|c s [t [Hs [Ht Hl]]]].
  - exists []. repeat split.
  - cbn [rstrip_crlf]. destruct (rstrip_crlf s) as [|x r] eqn:Hr.
    + cbn [app] in Hs. subst s.
      destruct (Ascii.eqb c LF || Ascii.eqb c CR) eqn:Hc.
      * exists (c :: t). split; [reflexivity|]. split; [|exact Hl].
        unfold crlf_only in *. cbn [forallb]. rewrite Hc. exact Ht.
      * exists t. split; [reflexivity|]. split; [exact Ht|].
        unfold crlf_only. cbn [last forallb]. rewrite Hc. reflexivity.
    + exists t. split; [cbn [app] in Hs |- *; congruence|]. split; [exact Ht|].
      exact Hl.
Qed.

(** ** Decoding a numeric answer *)

(** Out of the range of [int], [atoi] gives what the conversion of the [long]
    leaves; out of the range of [long], [atol] gives [LONG_MAX]. *)
Example atoi_out_of_range :
  atoi (E := demo) "4294967301" = 5%Z /\
  atoi (E := demo) "99999999999" = 1215752191%Z /\
  atol (E := demo) "18446744073709551617" = 9223372036854775807%Z /\
  atol (E := demo) "-18446744073709551617" = (-9223372036854775808)%Z.
Proof. repeat split. Qed.

Lemma atoi_digits_acc (d : Decimal.uint) :
  forall acc : positive,
    atoi_digits (Zpos acc) (list_ascii_of_string (NilEmpty.string_of_uint d))
    = Zpos (Pos.of_uint_acc d acc).
Proof.
  induction d; intros acc; cbn [NilEmpty.string_of_uint list_ascii_of_string];
    [reflexivity|..];
    cbn [atoi_digits]; 
    match goal with
    | |- context [digit_of ?c] =>
        let v := eval vm_compute in (digit_of c) in
        change (digit_of c) with v
    end; cbv iota beta; cbn [Pos.of_uint_acc];
    match goal with
    | |- atoi_digits ?a _ = Zpos (Pos.of_uint_acc _ ?p) =>
        replace a with (Zpos p) by lia
    end; apply IHd.
Qed.

Lemma atoi_digits_uint (d : Decimal.uint) :
  atoi_digits 0 (list_ascii_of_string (NilEmpty.string_of_uint d))
  = Z.of_N (Pos.of_uint d).
Proof.
  induction d; cbn [NilEmpty.string_of_uint list_ascii_of_string Pos.of_uint];
    [reflexivity|..];
    cbn [atoi_digits];
    match goal with
    | |- context [digit_of ?c] =>
        let v := eval vm_compute in (digit_of c) in
        change (digit_of c) with v
    end; cbv iota beta; [exact IHd|..];
    match goal with
    | |- atoi_digits ?a _ = Z.of_N (Npos (Pos.of_uint_acc _ ?p)) =>
        change a with (Zpos p)
    end; apply atoi_digits_acc.
Qed.

Lemma uint_chars (d : Decimal.uint) :
  forallb numeral_char (list_ascii_of_string (NilEmpty.string_of_uint d)) = true.
Proof.
  induction d; cbn [NilEmpty.string_of_uint list_ascii_of_string forallb];
    [reflexivity|..]; rewrite IHd; reflexivity.
Qed.

Lemma numeral_value_of_numeral (d : Decimal.uint) :
  d <> Decimal.Nil ->
  numeral_value (list_ascii_of_string (NilEmpty.string_of_uint d))
  = atoi_digits 0 (list_ascii_of_string (NilEmpty.string_of_uint d)).
Proof. destruct d; [congruence|..]; reflexivity. Qed.

(** The number read from what ["%d"] writes is the number written. *)
Lemma numeral_value_fmt_d (z : Z) : numeral_value (fmt_d z) = z.
Proof.
  unfold fmt_d. destruct z as [|p|p]; [reflexivity|..]; cbn [Z.to_int].
  - unfold NilZero.string_of_int, NilZero.string_of_uint.
    pose proof (DecimalPos.Unsigned.to_uint_nonnil p) as Hn.
    destruct (Pos.to_uint p) eqn:Hd; [congruence|..]; rewrite <- Hd;
      (rewrite numeral_value_of_numeral, atoi_digits_uint, DecimalPos.Unsigned.of_to;
       [reflexivity | congruence]).
  - unfold NilZero.string_of_int, NilZero.string_of_uint.
    pose proof (DecimalPos.Unsigned.to_uint_nonnil p) as Hn.
    destruct (Pos.to_uint p) eqn:Hd; [congruence|..]; rewrite <- Hd;
      cbn [list_ascii_of_string];
      change (numeral_value ("-"%char :: ?l)) with (- atoi_digits 0 l)%Z;
      rewrite atoi_digits_uint, DecimalPos.Unsigned.of_to; reflexivity.
Qed.

(** A [long] holds every [int]. *)
Lemma long_holds_int : (2 ^ 31 <= 2 ^ (ULONG_BITS - 1))%Z.
Proof.
  pose proof ULONG_BITS_wide as H. apply Z.leb_le in H.
  apply Z.pow_le_mono_r; lia.
Qed.

(** Within the range of [int], [atoi] gives the number read. *)
Lemma atoi_in_range (s : text) :
  (-2147483648 <= numeral_value s <= 2147483647)%Z -> atoi s = numeral_value s.
Proof.
  intros H. pose proof long_holds_int as HL.
  unfold atoi, atol, strtol, int_of_long.
  change (2 ^ 31)%Z with 2147483648%Z in *.
  rewrite Z.min_r, Z.max_r by lia.
  rewrite Z.mod_small by (change (2 ^ 32)%Z with 4294967296%Z; lia). lia.
Qed.

(** [atoi] reads back the [int] that ["%d"] writes. *)
Lemma atoi_fmt_d (z : Z) :
  (-2147483648 <= z <= 2147483647)%Z -> atoi (fmt_d z) = z.
Proof.
  intros H. rewrite atoi_in_range; rewrite numeral_value_fmt_d; [reflexivity | exact H].
Qed.

Lemma fmt_d_chars (z : Z) : fmt_d z <> [] /\ forallb numeral_char (fmt_d z) = true.
Proof.
  unfold fmt_d. destruct z as [|p|p]; [split; [discriminate|reflexivity]|..];
    cbn [Z.to_int]; unfold NilZero.string_of_int, NilZero.string_of_uint;
    pose proof (DecimalPos.Unsigned.to_uint_nonnil p) as Hn;
    pose proof (uint_chars (Pos.to_uint p)) as Hc;
    destruct (Pos.to_uint p) eqn:Hd; try congruence;
    (split; [discriminate | cbn [list_ascii_of_string forallb] in Hc |- *; exact Hc]).
Qed.

Lemma numeral_char_plain (c : ascii) :
  numeral_char c = true ->
  isspace c = false /\ Ascii.eqb c NUL = false /\ is_sep CRLF c = false /\
  Ascii.eqb (tolower c) "e" = false /\ Ascii.eqb (tolower c) "w" = false /\
  Ascii.eqb (tolower c) "o" = false.
Proof.
  destruct c as [[] [] [] [] [] [] [] []]; intros H; vm_compute in H;
    try discriminate; repeat split.
Qed.

(** A query answered with a decimal numeral and CR LF stores the numeral as
    its result text. *)
Lemma query_numeral_answer (w : world) (c : lscp_client_t) (q : text) (z : Z)
    (s : Server) :
  w_client w = Some c -> q <> [] ->
  serve (w_server w) q (select_timeval (iTimeout c)) = (Recv (fmt_d z ++ CRLF), s) ->
  (length (fmt_d z ++ CRLF) <= LSCP_BUFSIZ)%nat ->
  lscp_client_query PTR q w
    = Done (LSCP_OK, with_client (with_pszResult (Some (fmt_d z)) (with_iErrno 0%Z c))
                       (with_server s w)).
Proof.
  intros Hc Hq Hserve Hlen.
  destruct (fmt_d_chars z) as [Hne Hchars].
  assert (Hlen2 : (length (fmt_d z) + 2 <= LSCP_BUFSIZ)%nat).
  { rewrite length_app in Hlen. exact Hlen. }
  destruct (fmt_d z) as [|x X'] eqn:HX; [congruence|].
  pose proof Hchars as Hall. cbn [forallb] in Hchars.
  apply andb_true_iff in Hchars. destruct Hchars as [Hx _].
  destruct (numeral_char_plain x Hx) as [Hsp [_ [_ [He [Hw Ho]]]]].
  assert (Hplain : forall y, In y (x :: X') ->
                     Ascii.eqb y NUL = false /\ is_sep CRLF y = false).
  { intros y Hy. rewrite forallb_forall in Hall.
    destruct (numeral_char_plain y (Hall y Hy)) as [_ [H1 [H2 _]]]. auto. }
  assert (Hnul : nul_free (x :: X') = true).
  { apply forallb_forall. intros y Hy. destruct (Hplain y Hy) as [H1 _].
    rewrite H1. reflexivity. }
  assert (Hfree : sep_free CRLF (x :: X') = true).
  { apply forallb_forall. intros y Hy. destruct (Hplain y Hy) as [_ H2].
    rewrite H2. reflexivity. }
  pose proof (call_run w c q _ s Hc Hq ltac:(lia) Hserve) as Hcall.
  cbv iota beta in Hcall. rewrite (firstn_all2 _ Hlen) in Hcall.
  cbn [app] in Hcall. cbv iota in Hcall.
  change (x :: X' ++ CRLF) with ((x :: X') ++ CRLF) in Hcall.
  assert (Hstrip : rstrip_crlf ((x :: X') ++ CRLF) = x :: X').
  { rewrite (rstrip_crlf_app _ CRLF eq_refl).
    apply (rstrip_crlf_free [] (x :: X')); [discriminate | exact Hfree]. }
  pose proof (query_received w (with_server s w) _ _ c Hcall Hc) as Hq'.
  rewrite Hstrip, (cstr_nul_free _ Hnul) in Hq'.
  rewrite (classify_ok_plain (x :: X')) in Hq'.
  - rewrite Hq' by (cbn [length] in *; lia).
    unfold with_result. cbn [option_map]. rewrite (ltrim_head x X' Hsp). reflexivity.
  - change (strncaseeq 4 (x :: X') "ERR:")
      with (Ascii.eqb (tolower x) "e" && strncaseeq 3 X' "RR:").
    rewrite He. reflexivity.
  - change (strncaseeq 4 (x :: X') "WRN:")
      with (Ascii.eqb (tolower x) "w" && strncaseeq 3 X' "RN:").
    rewrite Hw. reflexivity.
  - change (strncaseeq 3 (x :: X') "OK[")
      with (Ascii.eqb (tolower x) "o" && strncaseeq 2 X' "K[").
    rewrite Ho. reflexivity.
Qed.

(** X28: decoding a count.  When the server answers the query of one of the
    four counters ([lscp_get_channels], [lscp_add_channel],
    [lscp_get_channel_voice_count], [lscp_get_channel_stream_count]) with the
    decimal numeral of an [int], as ["%d"] writes it, followed by CR LF, the
    counter returns that [int]. *)
Theorem counters_decoded (w : world) (c : lscp_client_t) (z : Z) (s : Server) :
  w_client w = Some c ->
  (length (fmt_d z ++ CRLF) <= LSCP_BUFSIZ)%nat ->
  (-2147483648 <= z <= 2147483647)%Z ->
  (serve (w_server w) ("GET CHANNELS" ++ CRLF) (select_timeval (iTimeout c))
     = (Recv (fmt_d z ++ CRLF), s) ->
   exists w', lscp_get_channels PTR w = Done (z, w')) /\
  (serve (w_server w) ("ADD CHANNEL" ++ CRLF) (select_timeval (iTimeout c))
     = (Recv (fmt_d z ++ CRLF), s) ->
   exists w', lscp_add_channel PTR w = Done (z, w')) /\
  (forall iSamplerChannel, (0 <= iSamplerChannel)%Z ->
   serve (w_server w) ("GET CHANNEL VOICE_COUNT " ++ fmt_d iSamplerChannel ++ CRLF)
         (select_timeval (iTimeout c))
     = (Recv (fmt_d z ++ CRLF), s) ->
   exists w', lscp_get_channel_voice_count PTR iSamplerChannel w = Done (z, w')) /\
  (forall iSamplerChannel, (0 <= iSamplerChannel)%Z ->
   serve (w_server w) ("GET CHANNEL STREAM_COUNT " ++ fmt_d iSamplerChannel ++ CRLF)
         (select_timeval (iTimeout c))
     = (Recv (fmt_d z ++ CRLF), s) ->
   exists w', lscp_get_channel_stream_count PTR iSamplerChannel w = Done (z, w')).
Proof.
  intros Hc Hlen Hz.
  assert (Hint : forall q, q <> [] ->
             serve (w_server w) q (select_timeval (iTimeout c))
               = (Recv (fmt_d z ++ CRLF), s) ->
             exists w', query_int PTR q w = Done (z, w')).
  { intros q Hq Hserve. unfold query_int.
    rewrite (bind_run _ _ _ _ _ (query_numeral_answer w c q z s Hc Hq Hserve Hlen)).
    erewrite get_result_step; [|reflexivity].
    cbn [pszResult with_pszResult]. rewrite (atoi_fmt_d z Hz). eexists. reflexivity. }
  split; [|split; [|split]].
  - apply Hint. discriminate.
  - apply Hint. discriminate.
  - intros ch Hch. unfold lscp_get_channel_voice_count.
    assert (Hn : (ch <? 0)%Z = false) by (apply Z.ltb_ge; lia).
    rewrite Hn. apply Hint. discriminate.
  - intros ch Hch. unfold lscp_get_channel_stream_count.
    assert (Hn : (ch <? 0)%Z = false) by (apply Z.ltb_ge; lia).
    rewrite Hn. apply Hint. discriminate.
Qed.

End Properties.

(** * Concrete runs *)

Lemma C8_witness :
  unquoted "  foo  " = cstr (_lscp_ltrim "  foo  ") /\
  unquoted ("  " ++ DQUOTE :: [] ++ "Hello, World" ++ [] ++ DQUOTE :: "  ")
    = "Hello, World".
Proof.
  destruct C8_unquote_keeps_trailing_space as [Hbare [_ [Hquoted _]]].
  split.
  - apply Hbare. reflexivity.
  - apply Hquoted; first [reflexivity | discriminate].
Defined.

(** Where C8 as stated fails: the claim has [  foo  ] unquote to [foo], both
    ends trimmed; the code keeps the two trailing spaces. *)
Lemma C8_trailing_space_not_trimmed :
  is_quote (hd NUL (_lscp_ltrim "  foo  ")) = false /\
  spec_trim "  foo  " = "foo" /\
  unquoted "  foo  " = "foo  " /\
  unquoted "  foo  " <> spec_trim "  foo  ".
Proof.
  repeat split; try reflexivity.
  vm_compute. discriminate.
Qed.

Lemma C1_witness :
  exists c1 c2,
    w_client (scripted client_after_error []) = Some c1 /\
    lscp_client_query PTR "GET CHANNELS" (scripted client_after_error [SelectTimeout])
      = Done (LSCP_TIMEOUT, with_client c2 (scripted client_after_error [])) /\
    c2 = with_result (Some timeout_message) (-1)%Z c1 /\
    pszResult c2 = Some timeout_message /\
    iErrno c2 = (-1)%Z.
Proof.
  apply (C1_timeout_resets_errno (E := demo)
           (scripted client_after_error [SelectTimeout])
           (scripted client_after_error []) "GET CHANNELS" []).
  reflexivity.
Defined.

(** Where C1 as stated fails: the error code was 5 before the call that times
    out and is -1 after it. *)
Lemma C1_errno_not_kept :
  option_map iErrno (w_client (scripted client_after_error [SelectTimeout]))
    = Some 5%Z /\
  value_of (lscp_client_query PTR "GET CHANNELS"
              (scripted client_after_error [SelectTimeout])) = Some LSCP_TIMEOUT /\
  option_map iErrno
    (client_after (lscp_client_query PTR "GET CHANNELS"
                     (scripted client_after_error [SelectTimeout])))
    = Some (-1)%Z /\
  option_map pszResult
    (client_after (lscp_client_query PTR "GET CHANNELS"
                     (scripted client_after_error [SelectTimeout])))
    = Some (Some timeout_message).
Proof. vm_compute. repeat split. Qed.

Lemma error_response_witness :
  exists c2,
    lscp_client_query PTR query_channels (scripted fresh_client [Recv answer_error])
      = Done (LSCP_ERROR, with_client c2 (scripted fresh_client [])) /\
    iErrno c2 = 5%Z /\
    pszResult c2 = Some ("Invalid channel" : text).
Proof.
  destruct (error_response (E := demo)
              (scripted fresh_client [Recv answer_error])
              (scripted fresh_client []) query_channels answer_error)
    as [c1 [c2 [_ [Hq Hform]]]];
    [reflexivity | vm_compute; lia | reflexivity |].
  exists c2. split; [exact Hq|].
  destruct (Hform "5" "Invalid channel") as [_ [He Hr]];
    try reflexivity; try discriminate.
  split; [exact He | exact Hr].
Defined.

(** The answer [ERR:5:Invalid channel] gives LSCP_ERROR, code 5 and the
    message as result text. *)
Example error_invalid_channel :
  value_of (lscp_client_query PTR query_channels
              (scripted fresh_client [Recv answer_error])) = Some LSCP_ERROR /\
  option_map iErrno
    (client_after (lscp_client_query PTR query_channels
                     (scripted fresh_client [Recv answer_error]))) = Some 5%Z /\
  option_map pszResult
    (client_after (lscp_client_query PTR query_channels
                     (scripted fresh_client [Recv answer_error])))
    = Some (Some ("Invalid channel" : text)).
Proof. repeat split. Qed.

(** C4: the answer [ERR:5:bad [x]], whose message field is [bad [x]].  The
    query returns LSCP_ERROR and stores [bad ] as the result text: the
    message is cut at the bracket, where the source's comments have the
    message text as the final result. *)
Lemma C4_message_cut_at_bracket :
  spec_colon_fields (cstr (rstrip_crlf answer_error_bracket))
    = ["ERR" : text; "5" : text; "bad [x]" : text] /\
  value_of (lscp_client_query PTR query_channels
              (scripted fresh_client [Recv answer_error_bracket]))
    = Some LSCP_ERROR /\
  option_map pszResult
    (client_after (lscp_client_query PTR query_channels
                     (scripted fresh_client [Recv answer_error_bracket])))
    = Some (Some ("bad " : text)) /\
  ("bad " : text) <> "bad [x]".
Proof.
  repeat split; try reflexivity.
  vm_compute. discriminate.
Qed.

Lemma ok_response_witness :
  exists c2,
    lscp_client_query PTR query_channels (scripted fresh_client [Recv answer_ok])
      = Done (LSCP_OK, with_client c2 (scripted fresh_client [])) /\
    iErrno c2 = 0%Z /\
    pszResult c2 = Some ("42" : text).
Proof.
  destruct (ok_response (E := demo)
              (scripted fresh_client [Recv answer_ok])
              (scripted fresh_client []) query_channels answer_ok)
    as [c1 [c2 [_ [Hq [He [_ Hform]]]]]];
    [reflexivity | vm_compute; lia | reflexivity | reflexivity |].
  exists c2. split; [exact Hq|]. split; [exact He|].
  destruct (Hform "42" []) as [_ Hr]; try reflexivity; try discriminate.
  exact Hr.
Defined.

(** The answer [OK[42]] gives LSCP_OK, code 0 and [42] as result text. *)
Example ok_forty_two :
  value_of (lscp_client_query PTR query_channels
              (scripted fresh_client [Recv answer_ok])) = Some LSCP_OK /\
  option_map iErrno
    (client_after (lscp_client_query PTR query_channels
                     (scripted fresh_client [Recv answer_ok]))) = Some 0%Z /\
  option_map pszResult
    (client_after (lscp_client_query PTR query_channels
                     (scripted fresh_client [Recv answer_ok])))
    = Some (Some ("42" : text)).
Proof. repeat split. Qed.

(** C5: the answer [OK[a:b]], whose bracketed payload is [a:b].  The query
    returns LSCP_OK and stores [a] as the result text: the payload is cut at
    the colon, where the source's comment has "the return string under
    brackets" as the result. *)
Lemma C5_payload_cut_at_colon :
  spec_bracket_payload (cstr (rstrip_crlf answer_ok_colon)) = Some ("a:b" : text) /\
  value_of (lscp_client_query PTR query_channels
              (scripted fresh_client [Recv answer_ok_colon]))
    = Some LSCP_OK /\
  option_map pszResult
    (client_after (lscp_client_query PTR query_channels
                     (scripted fresh_client [Recv answer_ok_colon])))
    = Some (Some ("a" : text)) /\
  ("a" : text) <> "a:b".
Proof.
  repeat split; try reflexivity.
  vm_compute. discriminate.
Qed.

Lemma C2_witness :
  let turn :=
    udp_turn PTR (Recvfrom (ping "5000" "abc123" ++ "stale bytes")
                    (Z.of_nat (length (ping "5000" "abc123"))))
      (scripted fresh_client []) in
  (sessid fresh_client = None ->
     turn = Done (tt, with_udp_sent
                        (w_udp_sent (scripted fresh_client [])
                           ++ ["PONG " ++ "abc123" ++ CRLF])
                        (with_client (with_sessid (Some ("abc123" : text)) fresh_client)
                           (scripted fresh_client [])))) /\
  (sessid fresh_client = Some ("abc123" : text) ->
     turn = Done (tt, with_udp_sent
                        (w_udp_sent (scripted fresh_client [])
                           ++ ["PONG " ++ "abc123" ++ CRLF])
                        (scripted fresh_client []))) /\
  (forall id', sessid fresh_client = Some id' -> id' <> ("abc123" : text) ->
     turn = Done (tt, scripted fresh_client [])).
Proof.
  apply (C2_ping_adopts_and_replies (E := demo) (scripted fresh_client [])
           fresh_client "5000" "abc123" "stale bytes");
    try reflexivity; try discriminate.
  vm_compute. lia.
Defined.

(** Where C2 as stated fails: the keepalive [PING 5000 abc123] arrives while
    no session-id is bound; the id is adopted and a [PONG abc123] goes out in
    the same turn. *)
Lemma C2_pong_sent_on_adoption :
  sessid fresh_client = None /\
  option_map sessid
    (client_after (udp_turn PTR (Recvfrom ping_abc (Z.of_nat (length ping_abc)))
                     (scripted fresh_client [])))
    = Some (Some ("abc123" : text)) /\
  sent_after (udp_turn PTR (Recvfrom ping_abc (Z.of_nat (length ping_abc)))
                (scripted fresh_client []))
    = Some ["PONG abc123" ++ CRLF] /\
  sent_after (udp_turn PTR (Recvfrom ping_abc (Z.of_nat (length ping_abc)))
                (scripted fresh_client []))
    <> Some [].
Proof.
  repeat split; try reflexivity.
  vm_compute. discriminate.
Qed.

Lemma C3_witness :
  (lscp_get_audio_driver_info PTR (Some ("ALSA" : text)) (scripted cached_client [])
     = Done (None, with_client (with_result (Some timeout_message) (-1)%Z cached_client)
                     (scripted cached_client [])) /\
   field info_caches
     (with_client (with_result (Some timeout_message) (-1)%Z cached_client)
        (scripted cached_client []))
     = field info_caches (scripted cached_client [])) /\
  (lscp_get_channel_info PTR 3%Z (scripted cached_client [])
     = Done (None, with_client (with_result (Some timeout_message) (-1)%Z cached_client)
                     (scripted cached_client [])) /\
   field info_caches
     (with_client (with_result (Some timeout_message) (-1)%Z cached_client)
        (scripted cached_client []))
     = field info_caches (scripted cached_client [])).
Proof.
  destruct (C3_failed_info_query_keeps_cache (E := demo)
              (scripted cached_client [])
              (with_client (with_result (Some timeout_message) (-1)%Z cached_client)
                 (scripted cached_client []))
              LSCP_TIMEOUT)
    as [Haudio [_ [_ Hchannel]]]; [discriminate|].
  split.
  - apply (Haudio "ALSA"); [vm_compute; lia | reflexivity].
  - apply (Hchannel 3%Z); [lia | reflexivity].
Defined.

(** A successful channel info query does reset and rebuild the cache. *)
Example channel_info_rebuilt :
  option_map channel_info
    (client_after
       (lscp_get_channel_info PTR 3%Z
          (scripted cached_client
             [Recv ("ENGINE_NAME: Akai" ++ CRLF ++ "VOLUME: 2" ++ CRLF)])))
    = Some {| engine_name := Some ("Akai" : text); audio_device := 0%Z;
              audio_channels := 0%Z; audio_routing := None;
              instrument_file := None; instrument_nr := 0%Z;
              midi_device := 0%Z; midi_port := 0%Z; midi_channel := 0%Z;
              volume := (2%Z : @float demo) |}.
Proof. reflexivity. Qed.



(** C10: four public functions read a field of the client before any test of
    the pointer.  Called with a NULL client, [lscp_get_channel_buffer_fill]
    reads [pClient->iStreamCount] and the three list queries read their list
    cache, through the NULL pointer, where the functions of the
    [lscp_client_] family return their failure value. *)
Lemma C10_wrappers_read_null_client :
  lscp_get_channel_buffer_fill NULL LSCP_USAGE_BYTES 0%Z (unborn [])
    = Fault NullPointer /\
  lscp_get_available_audio_drivers NULL (unborn []) = Fault NullPointer /\
  lscp_get_available_midi_drivers NULL (unborn []) = Fault NullPointer /\
  lscp_get_available_engines NULL (unborn []) = Fault NullPointer /\
  lscp_client_query NULL query_channels (unborn []) = Done (LSCP_FAILED, unborn []).
Proof. repeat split. Qed.

Lemma C9_witness :
  exists cells' pairs,
    buffer_fill_parse (E := demo) (repeat fill_indeterminate 2) 2%Z payload_three_streams
      = Done (cells', pairs) /\
    length cells' = length (repeat fill_indeterminate 2) /\
    (0 <= pairs <= 2)%Z /\
    (forall e, array_set cells' 2%Z e = Fault OutOfBounds).
Proof.
  apply (C9_buffer_fill_writes_in_bounds (E := demo)). reflexivity.
Defined.

(** Three pairs offered to an array of two entries: two are stored. *)
Example buffer_fill_two_of_three :
  buffer_fill_parse (E := demo) (repeat fill_indeterminate 2) 2%Z payload_three_streams
    = Done ([ {| stream_id := Some 0%Z; stream_usage := Some 12%Z |};
              {| stream_id := Some 1%Z; stream_usage := Some 34%Z |} ], 2%Z).
Proof. reflexivity. Qed.


(** The first buffer fill query of a session, step by step: the array is
    block 0, it has two entries, and they hold the two pairs of the answer. *)
Example buffer_fill_first_call :
  option_map buffer_fill
    (client_after
       (lscp_get_channel_buffer_fill PTR LSCP_USAGE_PERCENTAGE 0%Z
          (scripted fresh_client [Recv answer_two_streams; Recv answer_fill])))
    = Some (Some (O, [ {| stream_id := Some 0%Z; stream_usage := Some 12%Z |};
                       {| stream_id := Some 1%Z; stream_usage := Some 34%Z |} ])).
Proof. reflexivity. Qed.

(** The answer [OK[abc123]] to a subscription reaches [lscp_client_subscribe]
    as the result text [abc123], the brackets gone, so that its test for a
    first token [OK] fails and no id is bound: the id then comes from the
    first keepalive. *)
Example subscribe_bracketed_answer :
  value_of (lscp_client_subscribe PTR
              (scripted fresh_client [Recv ("OK[abc123]" ++ CRLF)]))
    = Some LSCP_OK /\
  option_map sessid
    (client_after (lscp_client_subscribe PTR
                     (scripted fresh_client [Recv ("OK[abc123]" ++ CRLF)])))
    = Some None /\
  option_map sessid
    (client_after (lscp_client_subscribe PTR
                     (scripted fresh_client [Recv (" OK[abc123]" ++ CRLF)])))
    = Some (Some ("abc123" : text)).
Proof. repeat split. Qed.

(** A later keepalive with another id neither replaces the bound id nor gets
    an answer. *)
Example later_ping_ignored :
  udp_turn PTR (Recvfrom ping_zzz (Z.of_nat (length ping_zzz)))
    (scripted bound_client [])
    = Done (tt, scripted bound_client []).
Proof. reflexivity. Qed.

Example unquote_hello : unquoted quoted_hello = "Hello, World".
Proof. reflexivity. Qed.

Example szsplit_drivers :
  _lscp_szsplit_create csv_drivers ","
    = ["ALSA" : text; "JACK" : text; "CoreAudio" : text].
Proof. reflexivity. Qed.

(** Token scan over separators only yields no token. *)
Example strtok_only_separators :
  _lscp_strtok (Some (":[]::" : text)) ":[]" [] = (None, []).
Proof. reflexivity. Qed.

Lemma strtok_token_shape_witness :
  exists lead rest,
    ("::ab:cd" : text) = lead ++ ("ab" : text) ++ rest /\
    sep_only ":" lead = true /\
    ("ab" : text) <> [] /\ sep_free ":" "ab" = true /\
    skip_seps ":" "cd" = ("cd" : text) /\
    (rest = [] /\ ("cd" : text) = [] \/
     exists c r, rest = c :: r /\ is_sep ":" c = true /\
                 ("cd" : text) = skip_seps ":" r).
Proof.
  exact (strtok_token_shape (Some ("::ab:cd" : text)) ":" [] "ab" "cd" eq_refl).
Defined.

(** * Concrete runs of the further properties *)

Lemma select_timeval_amount_witness :
  (fst (select_timeval 1500) * 1000000 + snd (select_timeval 1500) = 1500 * 1000 /\
   0 <= fst (select_timeval 1500) /\
   0 <= snd (select_timeval 1500) <= 1000000 /\
   (snd (select_timeval 1500) = 1000000 <-> 1500 = 1000))%Z.
Proof. apply (select_timeval_amount 1500%Z). lia. Defined.

Lemma call_rejects_bad_arguments_witness :
  lscp_client_call PTR (Some query_channels) 0%Z (Some 1024%Z)
    (scripted fresh_client [Recv answer_plain])
  = Done ((LSCP_FAILED, []), scripted fresh_client [Recv answer_plain]).
Proof.
  apply (call_rejects_bad_arguments (E := demo)). right. left. lia.
Defined.

Lemma call_result_shape_witness :
  scripted fresh_client [] = with_server (w_server (scripted fresh_client []))
                               (scripted fresh_client [Recv answer_plain]) /\
  (LSCP_OK = LSCP_OK \/ LSCP_OK = LSCP_FAILED \/ LSCP_OK = LSCP_TIMEOUT) /\
  (LSCP_OK <> LSCP_OK -> answer_plain = []) /\
  (LSCP_OK = LSCP_OK ->
   answer_plain <> [] /\
   exists cap, Some 1024%Z = Some cap /\ (Z.of_nat (length answer_plain) <= cap)%Z).
Proof.
  apply (call_result_shape (E := demo) PTR (Some query_channels) 14%Z (Some 1024%Z)
           (scripted fresh_client [Recv answer_plain]) (scripted fresh_client [])
           LSCP_OK answer_plain).
  reflexivity.
Defined.

Lemma timeout_set_then_get_witness :
  ((0 <= 500)%Z ->
   lscp_client_set_timeout PTR 500%Z (scripted fresh_client [])
     = Done (LSCP_OK, with_client (with_iTimeout 500%Z fresh_client)
                        (scripted fresh_client [])) /\
   lscp_client_get_timeout PTR
     (with_client (with_iTimeout 500%Z fresh_client) (scripted fresh_client []))
     = Done (500%Z, with_client (with_iTimeout 500%Z fresh_client)
                      (scripted fresh_client []))) /\
  ((500 < 0)%Z ->
   lscp_client_set_timeout PTR 500%Z (scripted fresh_client [])
     = Done (LSCP_FAILED, scripted fresh_client []) /\
   lscp_client_get_timeout PTR (scripted fresh_client [])
     = Done (iTimeout fresh_client, scripted fresh_client [])).
Proof.
  apply (timeout_set_then_get (E := demo) (scripted fresh_client []) fresh_client 500%Z).
  reflexivity.
Defined.

Lemma query_result_record_witness :
  exists c c',
    w_client (scripted fresh_client [Recv answer_ok]) = Some c /\
    w_client (with_client (with_result (Some ("42" : text)) 0%Z fresh_client)
                (scripted fresh_client [])) = Some c' /\
    c' = with_pszResult (pszResult c') (with_iErrno (iErrno c') c) /\
    (LSCP_OK = LSCP_OK -> iErrno c' = 0%Z) /\
    (LSCP_OK = LSCP_FAILED -> iErrno c' = (-1)%Z /\ pszResult c' = None) /\
    (LSCP_OK = LSCP_TIMEOUT ->
       iErrno c' = (-1)%Z /\ pszResult c' = Some timeout_message) /\
    (forall r, pszResult c' = Some r -> isspace (hd NUL r) = false).
Proof.
  apply (query_result_record (E := demo) query_channels
           (scripted fresh_client [Recv answer_ok])
           (with_client (with_result (Some ("42" : text)) 0%Z fresh_client)
              (scripted fresh_client []))
           LSCP_OK).
  reflexivity.
Defined.

Lemma warning_response_witness :
  exists c2,
    lscp_client_query PTR query_channels (scripted fresh_client [Recv answer_warning])
      = Done (LSCP_WARNING, with_client c2 (scripted fresh_client [])) /\
    iErrno c2 = 3%Z /\
    pszResult c2 = Some ("careful" : text).
Proof.
  destruct (warning_response (E := demo) (scripted fresh_client [Recv answer_warning])
              (scripted fresh_client []) query_channels answer_warning)
    as [c1 [c2 [_ [Hq Hform]]]];
    [reflexivity | vm_compute; lia | reflexivity |].
  exists c2. split; [exact Hq|].
  destruct (Hform "3" "careful") as [He Hr]; try reflexivity; try discriminate.
  split; [exact He | exact Hr].
Defined.

Lemma query_overruns_full_buffer_witness :
  lscp_client_query PTR query_channels (scripted fresh_client [Recv answer_full])
    = Fault OutOfBounds.
Proof.
  apply (query_overruns_full_buffer (E := demo)
           (scripted fresh_client [Recv answer_full]) fresh_client query_channels
           answer_full []);
    [reflexivity | discriminate | reflexivity | vm_compute; lia | reflexivity].
Defined.

Lemma subscribe_bracketed_id_not_bound_witness :
  exists w' c',
    lscp_client_subscribe PTR (scripted fresh_client [Recv answer_subscribed])
      = Done (LSCP_OK, w') /\
    w_client w' = Some c' /\ sessid c' = None.
Proof.
  apply (subscribe_bracketed_id_not_bound (E := demo)
           (scripted fresh_client [Recv answer_subscribed]) fresh_client "abc123" []);
    try reflexivity; [vm_compute; lia | discriminate].
Defined.


Lemma listener_turn_witness :
  exists w' c',
    udp_turn PTR (Recvfrom "NOTIFY x" 8%Z) (scripted fresh_client []) = Done (tt, w') /\
    w_client w' = Some c' /\
    (if (0 <? 8)%Z then
       if strncaseeq 5 "NOTIFY x" "PING " then
         c' = with_sessid (sessid c') fresh_client /\
         w' = with_udp_sent (w_udp_sent w') (with_client c' (scripted fresh_client []))
       else
         w' = if status_eqb (pfnCallback fresh_client (firstn (Z.to_nat 8) "NOTIFY x"))
                            LSCP_OK
              then scripted fresh_client []
              else with_client (with_udp_iState false fresh_client)
                     (scripted fresh_client [])
     else w' = with_client (with_udp_iState false fresh_client)
                 (scripted fresh_client [])).
Proof.
  apply (listener_turn (E := demo) (scripted fresh_client []) fresh_client
           "NOTIFY x" 8%Z); [reflexivity | vm_compute; reflexivity].
Defined.

Lemma listener_stops_for_good_witness :
  (udp_iState fresh_client = false ->
   _lscp_client_udp_proc PTR [Recvfrom ping_abc 16%Z] (scripted fresh_client [])
     = Done (tt, scripted fresh_client [])) /\
  (udp_iState fresh_client = true -> (0 <= 0)%Z ->
   _lscp_client_udp_proc PTR [Recvfrom [] 0%Z; Recvfrom ping_abc 16%Z]
     (scripted fresh_client [])
     = Done (tt, with_client (with_udp_iState false fresh_client)
                   (scripted fresh_client []))).
Proof.
  apply (listener_stops_for_good (E := demo) (scripted fresh_client []) fresh_client
           [Recvfrom ping_abc 16%Z] [] 0%Z).
  reflexivity.
Defined.

Lemma info_query_forgets_previous_snapshot_witness :
  exists info w',
    lscp_get_engine_info PTR (Some ("GigEngine" : text))
      (scripted fresh_client [Recv answer_engine]) = Done (Some info, w') /\
    lscp_get_engine_info PTR (Some ("GigEngine" : text))
      (with_client engine_client (scripted fresh_client [Recv answer_engine]))
      = Done (Some info, w').
Proof.
  let v := eval vm_compute in
             (lscp_get_engine_info PTR (Some ("GigEngine" : text))
                (scripted fresh_client [Recv answer_engine])) in
  match v with
  | Done (Some ?i, ?w) =>
      exists i, w;
      assert (Hrun : lscp_get_engine_info PTR (Some ("GigEngine" : text))
                       (scripted fresh_client [Recv answer_engine]) = Done (Some i, w))
        by reflexivity;
      split; [exact Hrun|];
      destruct (info_query_forgets_previous_snapshot (E := demo)
                  (scripted fresh_client [Recv answer_engine]) w fresh_client eq_refl)
        as [_ [Hengine _]];
      exact (Hengine (Some ("GigEngine" : text)) i
               {| ei_description := Some ("old" : text);
                  ei_version := Some ("0.1" : text) |} Hrun)
  end.
Defined.


Lemma wrappers_refuse_negative_channel_witness :
  lscp_remove_channel PTR (-1)%Z (scripted fresh_client [Recv answer_ok])
    = Done (LSCP_FAILED, scripted fresh_client [Recv answer_ok]) /\
  lscp_get_channel_stream_count PTR (-1)%Z (scripted fresh_client [Recv answer_ok])
    = Done ((-1)%Z, scripted fresh_client [Recv answer_ok]).
Proof.
  destruct (wrappers_refuse_negative_channel (E := demo) PTR
              (scripted fresh_client [Recv answer_ok]) (-1)%Z None 0%Z 0%Z 0%Z
              ltac:(lia))
    as [_ [_ [Hremove [_ [_ [_ [Hcount _]]]]]]].
  split; assumption.
Defined.

Lemma buffer_fill_array_matches_count_witness :
  exists w1 w2,
    lscp_client_create (E := demo) (Some (fun _ => LSCP_OK)) (Some 5000%Z)
      (unborn [Recv answer_two_streams; Recv answer_fill]) = Done (PTR, w1) /\
    perform_all PTR [Op_get_channel_buffer_fill LSCP_USAGE_PERCENTAGE 0%Z;
                     Op_set_timeout 500%Z] w1 = Done (tt, w2) /\
    fill_as_allocated w2 /\ fill_wf w2.
Proof.
  let v := eval vm_compute in
             (lscp_client_create (E := demo) (Some (fun _ => LSCP_OK)) (Some 5000%Z)
                (unborn [Recv answer_two_streams; Recv answer_fill])) in
  match v with
  | Done (_, ?w1) =>
      let v2 := eval vm_compute in
                  (perform_all PTR
                     [Op_get_channel_buffer_fill LSCP_USAGE_PERCENTAGE 0%Z;
                      Op_set_timeout 500%Z] w1) in
      match v2 with
      | Done (_, ?w2) =>
          exists w1, w2;
          assert (H1 : lscp_client_create (E := demo) (Some (fun _ => LSCP_OK))
                         (Some 5000%Z)
                         (unborn [Recv answer_two_streams; Recv answer_fill])
                       = Done (PTR, w1)) by reflexivity;
          assert (H2 : perform_all PTR
                         [Op_get_channel_buffer_fill LSCP_USAGE_PERCENTAGE 0%Z;
                          Op_set_timeout 500%Z] w1 = Done (tt, w2)) by reflexivity;
          split; [exact H1|]; split; [exact H2|];
          destruct (buffer_fill_array_matches_count (E := demo) _ _ _ _ _ _ H1 H2)
            as [Ha Hwf];
          split; [exact Ha | apply Hwf; intros n Hn; reflexivity]
      end
  end.
Defined.

Lemma destroy_releases_session_witness :
  exists w',
    lscp_client_destroy PTR (scripted filled_client []) = Done (LSCP_OK, w') /\
    w' = with_freed (match buffer_fill filled_client with
                     | Some (b, _) => b :: w_freed (scripted filled_client [])
                     | None => w_freed (scripted filled_client [])
                     end) (with_cell None (scripted filled_client [])) /\
    lscp_client_destroy PTR w' = Fault NullPointer /\
    lscp_client_query PTR query_channels w' = Fault NullPointer.
Proof.
  apply (destroy_releases_session (E := demo) (scripted filled_client []) filled_client
           query_channels).
  reflexivity.
Defined.

Lemma buffer_fill_parse_pairs_witness :
  buffer_fill_parse (E := demo) (repeat fill_indeterminate 3)
    (Z.of_nat (length (repeat fill_indeterminate 3)))
    (fill_payload [("0" : text, "12" : text); ("1" : text, "34" : text)])
  = Done (map (fill_entry (E := demo))
            (firstn (length (repeat fill_indeterminate 3))
               [("0" : text, "12" : text); ("1" : text, "34" : text)])
          ++ skipn (length [("0" : text, "12" : text); ("1" : text, "34" : text)])
               (repeat fill_indeterminate 3),
          Z.of_nat (min (length (repeat fill_indeterminate 3))
                        (length [("0" : text, "12" : text); ("1" : text, "34" : text)]))).
Proof.
  apply (buffer_fill_parse_pairs (E := demo)).
  repeat constructor; cbn; discriminate.
Defined.

Lemma szsplit_of_joined_items_witness :
  _lscp_szsplit_create
    (csv_join ["ALSA" : text; "JACK" : text; "Core Audio" : text]) ","
    = ["ALSA" : text; "JACK" : text; "Core Audio" : text] /\
  _lscp_szsplit_create [] "," = [[]].
Proof.
  apply (szsplit_of_joined_items ["ALSA" : text; "JACK" : text; "Core Audio" : text]);
    [discriminate|].
  repeat constructor; cbn; discriminate.
Defined.


Lemma unquote_unclosed_quote_witness :
  unquoted (" " ++ DQUOTE :: " abc  ") = cstr (_lscp_ltrim " abc  ").
Proof.
  apply (unquote_unclosed_quote DQUOTE " " " abc  "); reflexivity.
Defined.

Lemma counters_decoded_witness :
  exists w',
    lscp_get_channels PTR (scripted fresh_client [Recv (fmt_d 16 ++ CRLF)])
      = Done (16%Z, w').
Proof.
  destruct (counters_decoded (E := demo)
              (scripted fresh_client [Recv (fmt_d 16 ++ CRLF)]) fresh_client 16%Z []
              eq_refl ltac:(vm_compute; lia) ltac:(lia)) as [Hchannels _].
  apply Hchannels. reflexivity.
Defined.

Lemma wrappers_on_null_client_witness :
  lscp_load_engine NULL (Some ("GigEngine" : text)) 0%Z (unborn [])
    = Done (LSCP_FAILED, unborn []) /\
  lscp_load_instrument NULL (Some ("GigEngine" : text)) 0%Z 0%Z (unborn [])
    = Done (LSCP_FAILED, unborn []) /\
  lscp_set_channel_audio_type NULL 0%Z (Some ("GigEngine" : text)) (unborn [])
    = Done (LSCP_FAILED, unborn []) /\
  lscp_set_channel_midi_type NULL 0%Z (Some ("GigEngine" : text)) (unborn [])
    = Done (LSCP_FAILED, unborn []) /\
  lscp_get_engine_info NULL (Some ("GigEngine" : text)) (unborn [])
    = Done (None, unborn []).
Proof.
  destruct (wrappers_on_null_client (E := demo) (unborn []) "GigEngine" 0%Z 0%Z 0%Z
              float_zero LSCP_USAGE_BYTES)
    as (Hengine & Hinstrument & Haudio & Hmidi & Hinfo & _).
  split; [apply Hengine | split; [apply Hinstrument | split; [apply Haudio |
    split; [apply Hmidi | apply Hinfo]]]]; vm_compute; lia.
Defined.
